(** * The simple finality gadget of goshimmer

    A shallow embedding of [packages/consensus/finality/finality_gadget.go]:
    the translation of approval weight into grades of finality, the
    propagation of a grade through the message DAG ([HandleMarker]) and
    through the UTXO graph ([HandleBranch]), the confirmation events, and the
    query predicates of the confirmation oracle.

    Approval weights are [float64] values in the source; they are modelled as
    exact rationals ([Q]), compared with the thresholds the way the source
    compares them.  Identifiers are byte arrays in the source and natural
    numbers here.  The object storage is a finite map per kind of object;
    [Consume] on an object that is not stored runs nothing.

    Three smaller parts follow the gadget: the configuration of the ledger
    state ([ledgerstate]), the mocked transactions and the alias
    dictionaries of the test framework of the ledger ([ledger]), and the
    handlers of the web API that list the outputs of an address
    ([webapi]). *)

From Stdlib Require Import QArith Lqa.
From stdpp Require Import gmap list strings pretty.

#[local] Set Warnings "-clear-no-such-hyp".

(** ** Grades of finality *)

Module gof.

(** [gof.GradeOfFinality]: an unsigned integer with four named levels. *)
Inductive GradeOfFinality : Type := None | Low | Medium | High.

Definition rank (g : GradeOfFinality) : nat :=
  match g with None => 0 | Low => 1 | Medium => 2 | High => 3 end.

(** [a >= b] and [a < b] on grades, as the source writes them. *)
Definition geb (a b : GradeOfFinality) : bool := Nat.leb (rank b) (rank a).
Definition ltb (a b : GradeOfFinality) : bool := Nat.ltb (rank a) (rank b).

Definition eqb (a b : GradeOfFinality) : bool := Nat.eqb (rank a) (rank b).

End gof.

#[global] Instance GradeOfFinality_eq_dec : EqDecision gof.GradeOfFinality.
Proof. solve_decision. Defined.

(** ** Identifiers *)

Abbreviation MessageID := nat (only parsing).
Abbreviation TransactionID := nat (only parsing).
Abbreviation BranchID := nat (only parsing).

(** [tangle.EmptyMessageID]: the zero identifier, which the marker index
    returns for a marker it does not know. *)
Definition EmptyMessageID : MessageID := 0.

(** [ledgerstate.NewBranchID] and [BranchID.TransactionID]: a branch and the
    transaction that created it carry the same bytes. *)
Definition NewBranchID (transactionID : TransactionID) : BranchID := transactionID.
Definition BranchID_TransactionID (branchID : BranchID) : TransactionID := branchID.

(** [utxo.OutputID{TransactionID, Index}]. *)
Record OutputID : Type := mkOutputID {
  oTransactionID : TransactionID;
  oIndex : nat
}.

#[global] Instance OutputID_eq_dec : EqDecision OutputID.
Proof. solve_decision. Defined.

#[global] Instance OutputID_countable : Countable OutputID.
Proof.
  refine (inj_countable' (λ o, (oTransactionID o, oIndex o))
                         (λ p, mkOutputID p.1 p.2) _).
  by intros [].
Defined.

(** [markers.Marker]: a sequence and an index in it. *)
Abbreviation Marker := (nat * nat)%type (only parsing).

(** ** Objects of the tangle and of the ledger state *)

Record Message : Type := mkMessage {
  strongParents : list MessageID;
  payload : option TransactionID
}.

Record MessageMetadata : Type := mkMessageMetadata {
  mGradeOfFinality : gof.GradeOfFinality;
  IsPastMarker : bool
}.

Record Transaction : Type := mkTransaction {
  Outputs : list OutputID
}.

Record TransactionMetadata : Type := mkTransactionMetadata {
  tGradeOfFinality : gof.GradeOfFinality;
  tBranchID : BranchID
}.

Record OutputMetadata : Type := mkOutputMetadata {
  oGradeOfFinality : gof.GradeOfFinality
}.

(** The part of the tangle the gadget only reads: the marker index, the
    messages, the attachments of a transaction, the transactions, the
    consumers of an output, the conflict flag and the weight of a branch. *)
Record Tangle : Type := mkTangle {
  markerIndex : gmap Marker MessageID;
  messages : gmap MessageID Message;
  attachments : gmap TransactionID (list MessageID);
  transactions : gmap TransactionID Transaction;
  consumers : gmap OutputID (list TransactionID);
  TransactionConflicting : TransactionID → bool;
  WeightOfBranch : BranchID → Q
}.

(** The metadata the gadget updates in place. *)
Record Storage : Type := mkStorage {
  messageMetadata : gmap MessageID MessageMetadata;
  transactionMetadata : gmap TransactionID TransactionMetadata;
  outputMetadata : gmap OutputID OutputMetadata
}.

(** [MarkersManager.MessageID]: the message of a marker, [EmptyMessageID] for
    a marker without one ([IsMarkerConfirmed] tests for it). *)
Definition MarkersManager_MessageID (t : Tangle) (marker : Marker) : MessageID :=
  default EmptyMessageID (markerIndex t !! marker).

(** ** What a call does besides returning: events and metadata writes *)

Inductive Event : Type :=
  | MessageConfirmed (messageID : MessageID)
  | TransactionConfirmed (transactionID : TransactionID)
  | BranchConfirmed (branchID : BranchID).

Inductive Entity : Type :=
  | OfMessage (messageID : MessageID)
  | OfTransaction (transactionID : TransactionID)
  | OfOutput (outputID : OutputID).

(** [Trigger e]: an event handed to the subscribers.  [Write x old new]: the
    grade stored for [x] replaced, [old] by [new]. *)
Inductive Effect : Type :=
  | Trigger (e : Event)
  | Write (x : Entity) (old new : gof.GradeOfFinality).

#[global] Instance Event_eq_dec : EqDecision Event.
Proof. solve_decision. Defined.
#[global] Instance Entity_eq_dec : EqDecision Entity.
Proof. solve_decision. Defined.
#[global] Instance Effect_eq_dec : EqDecision Effect.
Proof. solve_decision. Defined.

(** ** Threshold translation *)

Definition MessageThresholdTranslation : Type := Q → gof.GradeOfFinality.
Definition BranchThresholdTranslation : Type := BranchID → Q → gof.GradeOfFinality.

Definition lowLowerBound : Q := 2 # 10.
Definition mediumLowerBound : Q := 3 # 10.
Definition highLowerBound : Q := 5 # 10.

(** [a >= b] and [a < b] on weights. *)
Definition Qgeb (a b : Q) : bool := Qle_bool b a.
Definition Qltb (a b : Q) : bool := negb (Qle_bool b a).

Definition DefaultBranchGoFTranslation : BranchThresholdTranslation :=
  λ branchID aw,
    if Qgeb aw lowLowerBound && Qltb aw mediumLowerBound then gof.Low
    else if Qgeb aw mediumLowerBound && Qltb aw highLowerBound then gof.Medium
    else if Qgeb aw highLowerBound then gof.High
    else gof.None.

Definition DefaultMessageGoFTranslation : MessageThresholdTranslation :=
  λ aw,
    if Qgeb aw lowLowerBound && Qltb aw mediumLowerBound then gof.Low
    else if Qgeb aw mediumLowerBound && Qltb aw highLowerBound then gof.Medium
    else if Qgeb aw highLowerBound then gof.High
    else gof.None.

(** The errors of the package.  [ErrUnsupportedBranchType] is declared by the
    source; no function of the gadget builds it. *)
Inductive error : Type := ErrUnsupportedBranchType.

(** ** Options *)

Record Options : Type := mkOptions {
  BranchTransFunc : BranchThresholdTranslation;
  MessageTransFunc : MessageThresholdTranslation;
  BranchGoFReachedLevel : gof.GradeOfFinality;
  MessageGoFReachedLevel : gof.GradeOfFinality
}.

Definition Option : Type := Options → Options.

Definition WithMessageThresholdTranslation (f : MessageThresholdTranslation) : Option :=
  λ opts, mkOptions (BranchTransFunc opts) f
                    (BranchGoFReachedLevel opts) (MessageGoFReachedLevel opts).

Definition WithBranchThresholdTranslation (f : BranchThresholdTranslation) : Option :=
  λ opts, mkOptions f (MessageTransFunc opts)
                    (BranchGoFReachedLevel opts) (MessageGoFReachedLevel opts).

Definition WithBranchGoFReachedLevel (branchGradeOfFinality : gof.GradeOfFinality) : Option :=
  λ opts, mkOptions (BranchTransFunc opts) (MessageTransFunc opts)
                    branchGradeOfFinality (MessageGoFReachedLevel opts).

Definition WithMessageGoFReachedLevel (msgGradeOfFinality : gof.GradeOfFinality) : Option :=
  λ opts, mkOptions (BranchTransFunc opts) (MessageTransFunc opts)
                    (BranchGoFReachedLevel opts) msgGradeOfFinality.

Definition defaultOpts : list Option :=
  [ WithBranchThresholdTranslation DefaultBranchGoFTranslation;
    WithMessageThresholdTranslation DefaultMessageGoFTranslation;
    WithBranchGoFReachedLevel gof.High;
    WithMessageGoFReachedLevel gof.High ].

(** The zero value of [Options]: nil functions are never called, because the
    defaults are applied first. *)
Definition zeroOptions : Options :=
  mkOptions (λ _ _, gof.None) (λ _, gof.None) gof.None gof.None.

(** [SimpleFinalityGadget]: the tangle it works on and its options. *)
Record SimpleFinalityGadget : Type := mkGadget {
  tangle : Tangle;
  opts : Options
}.

Definition NewSimpleFinalityGadget (t : Tangle) (os : list Option) : SimpleFinalityGadget :=
  mkGadget t (foldl (λ o f, f o) (foldl (λ o f, f o) zeroOptions defaultOpts) os).

(** ** Setters of the metadata objects *)

(** Modelled from the spec: [MessageMetadata.SetGradeOfFinality] belongs to
    package tangle.  The design asks for a compare-and-raise
    ("attempt to raise the message's grade to the candidate; if the value did
    not change (already at least the candidate), stop"), and the result says
    whether the stored grade changed. *)
Definition MessageMetadata_SetGradeOfFinality
    (md : MessageMetadata) (gradeOfFinality : gof.GradeOfFinality) : MessageMetadata * bool :=
  if gof.ltb (mGradeOfFinality md) gradeOfFinality
  then (mkMessageMetadata gradeOfFinality (IsPastMarker md), true)
  else (md, false).

(** Modelled from the spec: [TransactionMetadata.SetGradeOfFinality], the same
    compare-and-raise on a transaction ("attempt to raise the transaction's
    grade to the candidate; if no change, stop"). *)
Definition TransactionMetadata_SetGradeOfFinality
    (md : TransactionMetadata) (gradeOfFinality : gof.GradeOfFinality) : TransactionMetadata * bool :=
  if gof.ltb (tGradeOfFinality md) gradeOfFinality
  then (mkTransactionMetadata gradeOfFinality (tBranchID md), true)
  else (md, false).

(** Modelled from the spec: [OutputMetadata.SetGradeOfFinality], whose result
    the gadget drops.  The design describes the update of an output as an
    unconditional overwrite, "not a monotonic raise check at this point". *)
Definition OutputMetadata_SetGradeOfFinality
    (md : OutputMetadata) (gradeOfFinality : gof.GradeOfFinality) : OutputMetadata :=
  mkOutputMetadata gradeOfFinality.

Definition storeMessageMetadata (st : Storage) (id : MessageID) (md : MessageMetadata) : Storage :=
  mkStorage (<[id := md]> (messageMetadata st)) (transactionMetadata st) (outputMetadata st).

Definition storeTransactionMetadata (st : Storage) (id : TransactionID) (md : TransactionMetadata) : Storage :=
  mkStorage (messageMetadata st) (<[id := md]> (transactionMetadata st)) (outputMetadata st).

Definition storeOutputMetadata (st : Storage) (id : OutputID) (md : OutputMetadata) : Storage :=
  mkStorage (messageMetadata st) (transactionMetadata st) (<[id := md]> (outputMetadata st)).

(** ** The walker *)

Module walker.

(** Modelled from the spec: the worklist belongs to hive.go
    (datastructure/walker); it holds the pending items, the oldest first. *)
Definition Walker : Type := list nat.

Definition New : Walker := [].

(** Modelled from the spec: [Walker.Push] appends the item if it is not
    already pending. *)
Definition Push (x : nat) (w : Walker) : Walker :=
  if decide (x ∈ w) then w else w ++ [x].

Definition PushAll (xs : list nat) (w : Walker) : Walker :=
  foldl (λ w x, Push x w) w xs.

End walker.

(** ** The gadget *)

Section Gadget.

Variable s : SimpleFinalityGadget.

Definition IsTransactionRejected (transactionID : TransactionID) : bool := false.

Definition IsBranchRejected (branchID : BranchID) : bool := false.

Definition IsMessageConfirmed (st : Storage) (msgID : MessageID) : bool :=
  match messageMetadata st !! msgID with
  | Some messageMetadata =>
      gof.geb (mGradeOfFinality messageMetadata) (MessageGoFReachedLevel (opts s))
  | None => false
  end.

Definition IsMarkerConfirmed (st : Storage) (marker : Marker) : bool :=
  let messageID := MarkersManager_MessageID (tangle s) marker in
  if decide (messageID = EmptyMessageID) then false
  else IsMessageConfirmed st messageID.

(** The source compares with [MessageGoFReachedLevel] here. *)
Definition IsTransactionConfirmed (st : Storage) (transactionID : TransactionID) : bool :=
  match transactionMetadata st !! transactionID with
  | Some transactionMetadata =>
      gof.geb (tGradeOfFinality transactionMetadata) (MessageGoFReachedLevel (opts s))
  | None => false
  end.

Definition IsOutputConfirmed (st : Storage) (outputID : OutputID) : bool :=
  match outputMetadata st !! outputID with
  | Some outputMetadata =>
      gof.geb (oGradeOfFinality outputMetadata) (BranchGoFReachedLevel (opts s))
  | None => false
  end.

(** The body of [CachedOutputMetadata(output.ID()).Consume] in
    [setPayloadGoF]. *)
Definition setOutputGoF (st : Storage) (outputID : OutputID)
    (gradeOfFinality : gof.GradeOfFinality) : Storage * list Effect :=
  match outputMetadata st !! outputID with
  | Some md =>
      (storeOutputMetadata st outputID (OutputMetadata_SetGradeOfFinality md gradeOfFinality),
       [Write (OfOutput outputID) (oGradeOfFinality md) gradeOfFinality])
  | None => (st, [])
  end.

(** [for _, output := range transaction.Essence().Outputs()] of
    [setPayloadGoF]. *)
Fixpoint setOutputsGoF (st : Storage) (outputs : list OutputID)
    (gradeOfFinality : gof.GradeOfFinality) : Storage * list Effect :=
  match outputs with
  | [] => (st, [])
  | output :: rest =>
      let '(st1, log1) := setOutputGoF st output gradeOfFinality in
      let '(st2, log2) := setOutputsGoF st1 rest gradeOfFinality in
      (st2, log1 ++ log2)
  end.

(** [setPayloadGoF].  [ComputeIfTransaction] runs its callback when the
    message is stored and carries a transaction. *)
Definition setPayloadGoF (st : Storage) (messageID : MessageID)
    (gradeOfFinality : gof.GradeOfFinality) : Storage * list Effect :=
  match messages (tangle s) !! messageID with
  | Some message =>
    match payload message with
    | Some transactionID =>
      match transactionMetadata st !! transactionID with
      | Some transactionMetadata =>
          let gradeOfFinality :=
            if TransactionConflicting (tangle s) transactionID
            then let branchID := NewBranchID transactionID in
                 BranchTransFunc (opts s) branchID (WeightOfBranch (tangle s) branchID)
            else gradeOfFinality in
          let '(md', modified) :=
            TransactionMetadata_SetGradeOfFinality transactionMetadata gradeOfFinality in
          if negb modified then (st, [])
          else
            let st1 := storeTransactionMetadata st transactionID md' in
            let '(st2, log2) :=
              match transactions (tangle s) !! transactionID with
              | Some transaction => setOutputsGoF st1 (Outputs transaction) gradeOfFinality
              | None => (st1, [])
              end in
            (st2,
             Write (OfTransaction transactionID)
                   (tGradeOfFinality transactionMetadata) gradeOfFinality
             :: log2
             ++ (if gof.geb gradeOfFinality (BranchGoFReachedLevel (opts s))
                 then [Trigger (TransactionConfirmed transactionID)] else []))
      | None => (st, [])
      end
    | None => (st, [])
    end
  | None => (st, [])
  end.

(** [setMessageGoF]: the metadata object is the one stored under
    [messageID]. *)
Definition setMessageGoF (st : Storage) (messageID : MessageID)
    (messageMetadata : MessageMetadata) (gradeOfFinality : gof.GradeOfFinality)
    : Storage * bool * list Effect :=
  let '(md', modified) :=
    MessageMetadata_SetGradeOfFinality messageMetadata gradeOfFinality in
  if negb modified then (st, false, [])
  else
    let st1 := storeMessageMetadata st messageID md' in
    let '(st2, log2) := setPayloadGoF st1 messageID gradeOfFinality in
    (st2, true,
     Write (OfMessage messageID) (mGradeOfFinality messageMetadata) gradeOfFinality
     :: log2
     ++ (if gof.geb gradeOfFinality (MessageGoFReachedLevel (opts s))
         then [Trigger (MessageConfirmed messageID)] else [])).

(** The closure [propagateGoF] of [HandleMarker]. *)
Definition propagateGoF (gradeOfFinality : gof.GradeOfFinality)
    (st : Storage) (messageID : MessageID) (message : Message)
    (messageMetadata : MessageMetadata) (w : walker.Walker)
    : Storage * walker.Walker * list Effect :=
  if IsPastMarker messageMetadata
     && gof.geb (mGradeOfFinality messageMetadata) gradeOfFinality
  then (st, w, [])
  else
    let '(st1, modified, log1) :=
      setMessageGoF st messageID messageMetadata gradeOfFinality in
    if negb modified then (st1, w, log1)
    else (st1, walker.PushAll (strongParents message) w, log1).

(** Modelled from the spec: [Utils.WalkMessageAndMetadata] belongs to
    package tangle.  It takes the next pending identifier, loads the message
    and its metadata, and runs the callback when both are stored.  [fuel]
    bounds the number of identifiers taken; the rest of the worklist is
    returned. *)
Fixpoint WalkMessageAndMetadata (fuel : nat) (gradeOfFinality : gof.GradeOfFinality)
    (w : walker.Walker) (st : Storage) : Storage * walker.Walker * list Effect :=
  match fuel with
  | O => (st, w, [])
  | S fuel =>
    match w with
    | [] => (st, [], [])
    | messageID :: w =>
        let '(st1, w1, log1) :=
          match messages (tangle s) !! messageID, messageMetadata st !! messageID with
          | Some message, Some md => propagateGoF gradeOfFinality st messageID message md w
          | _, _ => (st, w, [])
          end in
        let '(st2, w2, log2) := WalkMessageAndMetadata fuel gradeOfFinality w1 st1 in
        (st2, w2, log1 ++ log2)
    end
  end.

(** What one message can cost the walk: itself and its strong parents. *)
Definition messageCost (messageID : MessageID) : nat :=
  match messages (tangle s) !! messageID with
  | Some message => S (length (strongParents message))
  | None => 1
  end.

(** The messages that can still be raised to [gradeOfFinality] bound the
    work that is left. *)
Definition markerPotential (gradeOfFinality : gof.GradeOfFinality) (st : Storage) : nat :=
  map_fold (λ messageID md acc,
              (if gof.ltb (mGradeOfFinality md) gradeOfFinality
               then messageCost messageID else 0) + acc)
           0 (messageMetadata st).

(** [HandleMarker].  The walk gets fuel for its first message and for the
    potential of the storage; that is enough for it to run until the worklist
    is empty, and more fuel gives the same result
    ([HandleMarker_terminates]). *)
Definition HandleMarker (st : Storage) (marker : Marker) (aw : Q)
    : Storage * list Effect * option error :=
  let gradeOfFinality := MessageTransFunc (opts s) aw in
  if gof.eqb gradeOfFinality gof.None then (st, [], None)
  else
    let messageID := MarkersManager_MessageID (tangle s) marker in
    let gofIncreased :=
      match messageMetadata st !! messageID with
      | Some md => gof.ltb (mGradeOfFinality md) gradeOfFinality
      | None => false
      end in
    if negb gofIncreased then (st, [], None)
    else
      let '(st1, _, log1) :=
        WalkMessageAndMetadata (S (markerPotential gradeOfFinality st))
                               gradeOfFinality [messageID] st in
      (st1, log1, None).

(** The loop over the consumers of an output in [adjustOutputGoF]:
    [consumerTxs] is the set of the transactions already handed to the
    walker for the transaction at hand. *)
Fixpoint pushConsumers (cs : list TransactionID) (consumerTxs : gset TransactionID)
    (txGoFPropWalker : walker.Walker) : gset TransactionID * walker.Walker :=
  match cs with
  | [] => (consumerTxs, txGoFPropWalker)
  | consumer :: rest =>
      if decide (consumer ∈ consumerTxs)
      then pushConsumers rest consumerTxs txGoFPropWalker
      else pushConsumers rest ({[consumer]} ∪ consumerTxs)
                         (walker.Push consumer txGoFPropWalker)
  end.

Definition adjustOutputGoF (st : Storage) (output : OutputID)
    (newGradeOfFinality : gof.GradeOfFinality) (consumerTxs : gset TransactionID)
    (txGoFPropWalker : walker.Walker)
    : Storage * gset TransactionID * walker.Walker * list Effect :=
  match outputMetadata st !! output with
  | Some md =>
      let st1 :=
        storeOutputMetadata st output
          (OutputMetadata_SetGradeOfFinality md newGradeOfFinality) in
      let '(consumerTxs1, w1) :=
        pushConsumers (default [] (consumers (tangle s) !! output))
                      consumerTxs txGoFPropWalker in
      (st1, consumerTxs1, w1,
       [Write (OfOutput output) (oGradeOfFinality md) newGradeOfFinality])
  | None => (st, consumerTxs, txGoFPropWalker, [])
  end.

(** [for _, output := range transaction.Essence().Outputs()] of
    [forwardPropagateBranchGoFToTxs]. *)
Fixpoint adjustOutputsGoF (st : Storage) (outputs : list OutputID)
    (newGradeOfFinality : gof.GradeOfFinality) (consumerTxs : gset TransactionID)
    (txGoFPropWalker : walker.Walker)
    : Storage * gset TransactionID * walker.Walker * list Effect :=
  match outputs with
  | [] => (st, consumerTxs, txGoFPropWalker, [])
  | output :: rest =>
      let '(st1, consumerTxs1, w1, log1) :=
        adjustOutputGoF st output newGradeOfFinality consumerTxs txGoFPropWalker in
      let '(st2, consumerTxs2, w2, log2) :=
        adjustOutputsGoF st1 rest newGradeOfFinality consumerTxs1 w1 in
      (st2, consumerTxs2, w2, log1 ++ log2)
  end.

(** The callback of [Attachments(...).Consume] in
    [forwardPropagateBranchGoFToTxs]: it keeps the greater of the grade seen
    so far and the grade of the attaching message, when its metadata is
    stored. *)
Definition maxAttachmentStep (st : Storage) (maxAttachmentGoF : gof.GradeOfFinality)
    (messageID : MessageID) : gof.GradeOfFinality :=
  match messageMetadata st !! messageID with
  | Some md =>
      if gof.ltb maxAttachmentGoF (mGradeOfFinality md)
      then mGradeOfFinality md else maxAttachmentGoF
  | None => maxAttachmentGoF
  end.

(** [maxAttachmentGoF] after the loop over the attachments; it starts at the
    zero value, [gof.None]. *)
Definition maxAttachmentGoF (st : Storage) (transactionID : TransactionID)
    : gof.GradeOfFinality :=
  foldl (maxAttachmentStep st) gof.None
        (default [] (attachments (tangle s) !! transactionID)).

Definition forwardPropagateBranchGoFToTxs (st : Storage)
    (candidateTxID : TransactionID) (candidateBranchID : BranchID)
    (newGradeOfFinality : gof.GradeOfFinality) (txGoFPropWalker : walker.Walker)
    : Storage * walker.Walker * list Effect :=
  match transactionMetadata st !! candidateTxID with
  | Some transactionMetadata =>
      if negb (bool_decide (tBranchID transactionMetadata = candidateBranchID))
      then (st, txGoFPropWalker, [])
      else if gof.ltb (maxAttachmentGoF st candidateTxID) newGradeOfFinality
      then (st, txGoFPropWalker, [])
      else
        let '(md', modified) :=
          TransactionMetadata_SetGradeOfFinality transactionMetadata newGradeOfFinality in
        if negb modified then (st, txGoFPropWalker, [])
        else
          let st1 := storeTransactionMetadata st candidateTxID md' in
          let '(st2, _, w2, log2) :=
            match transactions (tangle s) !! candidateTxID with
            | Some transaction =>
                adjustOutputsGoF st1 (Outputs transaction) newGradeOfFinality
                                 ∅ txGoFPropWalker
            | None => (st1, ∅, txGoFPropWalker, [])
            end in
          (st2, w2,
           Write (OfTransaction candidateTxID)
                 (tGradeOfFinality transactionMetadata) newGradeOfFinality
           :: log2
           ++ (if gof.geb (tGradeOfFinality md') (BranchGoFReachedLevel (opts s))
               then [Trigger (TransactionConfirmed candidateTxID)] else []))
  | None => (st, txGoFPropWalker, [])
  end.

(** [for txGoFPropWalker.HasNext()] of [HandleBranch]: while an item is
    pending, [Next] takes the oldest one.  [fuel] bounds the number of
    transactions taken, and the rest of the worklist is returned. *)
Fixpoint propagateBranch (fuel : nat) (branchID : BranchID)
    (newGradeOfFinality : gof.GradeOfFinality) (txGoFPropWalker : walker.Walker)
    (st : Storage) : Storage * walker.Walker * list Effect :=
  match fuel with
  | O => (st, txGoFPropWalker, [])
  | S fuel =>
    match txGoFPropWalker with
    | [] => (st, [], [])
    | candidateTxID :: w =>
        let '(st1, w1, log1) :=
          forwardPropagateBranchGoFToTxs st candidateTxID branchID newGradeOfFinality w in
        let '(st2, w2, log2) := propagateBranch fuel branchID newGradeOfFinality w1 st1 in
        (st2, w2, log1 ++ log2)
    end
  end.

(** What one transaction can cost the walk: itself and the consumers of its
    outputs. *)
Definition transactionCost (transactionID : TransactionID) : nat :=
  match transactions (tangle s) !! transactionID with
  | Some transaction =>
      S (sum_list ((λ output, length (default [] (consumers (tangle s) !! output)))
                     <$> Outputs transaction))
  | None => 1
  end.

Definition branchPotential (newGradeOfFinality : gof.GradeOfFinality) (st : Storage) : nat :=
  map_fold (λ transactionID md acc,
              (if gof.ltb (tGradeOfFinality md) newGradeOfFinality
               then transactionCost transactionID else 0) + acc)
           0 (transactionMetadata st).

(** [HandleBranch].  The loop gets fuel for its first transaction and for
    the potential of the storage; that is enough for it to run until the
    worklist is empty, and more fuel gives the same result
    ([HandleBranch_terminates]).  The named result [err] is never assigned. *)
Definition HandleBranch (st : Storage) (branchID : BranchID) (aw : Q)
    : Storage * list Effect * option error :=
  let err : option error := None in
  let newGradeOfFinality := BranchTransFunc (opts s) branchID aw in
  let txGoFPropWalker := walker.Push (BranchID_TransactionID branchID) walker.New in
  let '(st1, _, log1) :=
    propagateBranch (S (branchPotential newGradeOfFinality st))
                    branchID newGradeOfFinality txGoFPropWalker st in
  (st1,
   log1 ++ (if gof.geb newGradeOfFinality (BranchGoFReachedLevel (opts s))
            then [Trigger (BranchConfirmed branchID)] else []),
   err).

End Gadget.

(** ** Calls in sequence *)

Inductive Call : Type :=
  | CallMarker (marker : Marker) (aw : Q)
  | CallBranch (branchID : BranchID) (aw : Q).

Definition call (s : SimpleFinalityGadget) (st : Storage) (c : Call)
    : Storage * list Effect * option error :=
  match c with
  | CallMarker marker aw => HandleMarker s st marker aw
  | CallBranch branchID aw => HandleBranch s st branchID aw
  end.

(** The calls of [cs] one after the other; the log is the concatenation of
    theirs. *)
Fixpoint run (s : SimpleFinalityGadget) (st : Storage) (cs : list Call)
    : Storage * list Effect :=
  match cs with
  | [] => (st, [])
  | c :: rest =>
      let '(st1, log1, _) := call s st c in
      let '(st2, log2) := run s st1 rest in
      (st2, log1 ++ log2)
  end.

(** * The ledger state (package ledgerstate) *)

Module ledgerstate.

Section Ledgerstate.

(** [kvstore.KVStore], [database.CacheTimeProvider] and the three parts a
    ledger state embeds belong to other packages. *)
Variable KVStore : Type.
Variable CacheTimeProviderT : Type.
Variable UTXODAG : Type.
Variable BranchDAG : Type.
Variable ConfirmationOracle : Type.

(** The store [mapdb.NewMapDB()] returns. *)
Variable NewMapDB : KVStore.

(** [Options]; [CacheTimeProvider] is a pointer, nil in the zero value. *)
Record Options : Type := mkOptions {
  Options_Store : KVStore;
  Options_CacheTimeProvider : option CacheTimeProviderT
}.

(** [Ledgerstate]: the pointer to its options and the embedded pointers,
    nil in the zero value. *)
Record Ledgerstate : Type := mkLedgerstate {
  Ledgerstate_Options : option Options;
  Ledgerstate_UTXODAG : option UTXODAG;
  Ledgerstate_BranchDAG : option BranchDAG;
  Ledgerstate_ConfirmationOracle : option ConfirmationOracle
}.

Definition Option : Type := Options → Options.

Definition Store (store : KVStore) : Option :=
  λ options, mkOptions store (Options_CacheTimeProvider options).

Definition CacheTimeProvider (cacheTimeProvider : option CacheTimeProviderT) : Option :=
  λ options, mkOptions (Options_Store options) cacheTimeProvider.

(** [Configure]: the options are created, with a new map database as the
    store, when the pointer is nil; then every option is applied, in
    order. *)
Definition Configure (l : Ledgerstate) (options : list Option) : Ledgerstate :=
  let o :=
    match Ledgerstate_Options l with
    | None => mkOptions NewMapDB None
    | Some o => o
    end in
  mkLedgerstate (Some (foldl (λ o option, option o) o options))
                (Ledgerstate_UTXODAG l) (Ledgerstate_BranchDAG l)
                (Ledgerstate_ConfirmationOracle l).

End Ledgerstate.

End ledgerstate.

(** * The test framework of the ledger (package ledger) *)

Module ledger.

(** A byte is a [Z] below 256; [byte v] is the conversion of an integer to
    a byte. *)
Definition byte (v : Z) : Z := (v `mod` 256)%Z.

(** [types.Identifier]: an array of 32 bytes. *)
Definition Identifier : Type := list Z.

(** The zero value of an [Identifier]. *)
Definition zeroIdentifier : Identifier := replicate 32 0%Z.

(** [binary.BigEndian.PutUint64] of the Go library: the eight bytes of [v],
    the most significant first, are written to the front of [b]; it panics
    when [b] is shorter than eight bytes. *)
Definition PutUint64 (b : list Z) (v : Z) : option (list Z) :=
  if decide (length b < 8)%nat then None
  else Some ([byte (v ≫ 56)%Z; byte (v ≫ 48)%Z; byte (v ≫ 40)%Z; byte (v ≫ 32)%Z;
              byte (v ≫ 24)%Z; byte (v ≫ 16)%Z; byte (v ≫ 8)%Z; byte v] ++ drop 8 b).

(** An error, with its message. *)
Definition error : Type := string.

(** [utxo.TransactionID] wraps an identifier; its zero value is the empty
    transaction identifier. *)
Definition TransactionID : Type := Identifier.
Definition EmptyTransactionID : TransactionID := zeroIdentifier.

(** [utxo.OutputID]; the index is a uint16. *)
Record OutputID : Type := mkOutputID {
  OutputID_TransactionID : TransactionID;
  OutputID_Index : nat
}.

Record MockedInput : Type := mkMockedInput {
  MockedInput_OutputID : OutputID
}.

Definition NewMockedInput (outputID : OutputID) : MockedInput := mkMockedInput outputID.

(** [MockedOutput]: the identifier of the storable and the model
    [mockedOutput]. *)
Record MockedOutput : Type := mkMockedOutput {
  MockedOutput_ID : OutputID;
  MockedOutput_TxID : TransactionID;
  MockedOutput_Index : nat
}.

Definition MockedOutput_SetID (out : MockedOutput) (id : OutputID) : MockedOutput :=
  mkMockedOutput id (MockedOutput_TxID out) (MockedOutput_Index out).

Definition NewMockedOutput (txID : TransactionID) (index : nat) : MockedOutput :=
  MockedOutput_SetID (mkMockedOutput (mkOutputID zeroIdentifier 0) txID index)
                     (mkOutputID txID index).

(** [MockedTransaction]: the identifier of the storable and the model
    [mockedTransaction]; the unique essence is a uint64. *)
Record MockedTransaction : Type := mkMockedTransaction {
  MockedTransaction_ID : TransactionID;
  Inputs : list MockedInput;
  OutputCount : nat;
  UniqueEssence : Z
}.

(** [NewMockedTransaction]; the global [_uniqueEssenceCounter] is passed
    and returned.  [atomic.AddUint64] adds modulo 2^64 and returns the new
    value.  The identifier has 32 bytes, so [PutUint64] does not panic. *)
Definition NewMockedTransaction (inputs : list MockedInput) (outputCount : nat)
    (_uniqueEssenceCounter : Z) : MockedTransaction * Z :=
  let uniqueEssence := ((_uniqueEssenceCounter + 1) `mod` 2 ^ 64)%Z in
  let b := default zeroIdentifier (PutUint64 zeroIdentifier uniqueEssence) in
  (mkMockedTransaction b inputs outputCount uniqueEssence, uniqueEssence).

Section TestFramework.

(** [utxo.NewOutputID] belongs to package utxo. *)
Variable NewOutputID : TransactionID → nat → OutputID.

(** The metadata of a transaction belongs to another file of the package;
    the framework reads [IsBooked] only. *)
Variable TransactionMetadata : Type.
Variable IsBooked : TransactionMetadata → bool.

(** [MockedVM.ResolveInput]. *)
Definition ResolveInput (input : MockedInput) : OutputID := MockedInput_OutputID input.

(** [MockedVM.ExecuteTransaction]: one output for every index below the
    output count; the error is always nil.  The transactions of the model
    are mocked transactions, so the type assertion of the source holds. *)
Definition ExecuteTransaction (mockedTransaction : MockedTransaction)
    : list MockedOutput * option error :=
  ((λ i, MockedOutput_SetID
           (NewMockedOutput (MockedTransaction_ID mockedTransaction) i)
           (NewOutputID (MockedTransaction_ID mockedTransaction) i))
     <$> seq 0 (OutputCount mockedTransaction),
   None).

(** [TestFramework]: the two alias dictionaries, and of the ledger the
    storage of the transaction metadata, which [AllBooked] reads. *)
Record TestFramework : Type := mkTestFramework {
  transactionMetadataStorage : gmap TransactionID TransactionMetadata;
  transactionsByAlias : gmap string MockedTransaction;
  outputIDsByAlias : gmap string OutputID
}.

(** [TestFramework.Transaction]; [None] is the panic for an unknown
    alias. *)
Definition Transaction (t : TestFramework) (txAlias : string) : option MockedTransaction :=
  transactionsByAlias t !! txAlias.

(** [TestFramework.OutputID]; [None] is the panic for an unknown alias. *)
Definition TestFramework_OutputID (t : TestFramework) (alias : string) : option OutputID :=
  outputIDsByAlias t !! alias.

Definition MockOutputFromTx (tx : MockedTransaction) (outputIndex : nat) : OutputID :=
  NewOutputID (MockedTransaction_ID tx) outputIndex.

(** The alias of the output [i] of [txAlias]: [strconv.Itoa] writes [i] in
    decimal. *)
Definition outputAlias (txAlias : string) (i : nat) : string :=
  txAlias +:+ "." +:+ pretty i.

(** [TestFramework.CreateTransaction]; the counter of the unique essences
    is passed and returned, and [None] is the panic for an unknown input
    alias, which comes before the transaction is created. *)
Definition CreateTransaction (t : TestFramework) (txAlias : string) (outputCount : nat)
    (inputAliases : list string) (_uniqueEssenceCounter : Z)
    : option (TestFramework * Z) :=
  mockedInputs ← mapM (λ inputAlias, NewMockedInput <$> TestFramework_OutputID t inputAlias)
                      inputAliases;
  let '(tx, counter) := NewMockedTransaction mockedInputs outputCount _uniqueEssenceCounter in
  Some (mkTestFramework
          (transactionMetadataStorage t)
          (<[txAlias := tx]> (transactionsByAlias t))
          (foldl (λ outputIDs i, <[outputAlias txAlias i := MockOutputFromTx tx i]> outputIDs)
                 (outputIDsByAlias t) (seq 0 outputCount)),
        counter).

(** The loop of [AllBooked]: [allBooked] is the named result so far, and
    [failed] the transactions whose metadata
    [ConsumeTransactionMetadata] failed to load, which it reports to the
    test and goes on. *)
Fixpoint AllBooked_loop (t : TestFramework) (allBooked : bool)
    (failed : list TransactionID) (txAliases : list string)
    : option (bool * list TransactionID) :=
  match txAliases with
  | [] => Some (allBooked, failed)
  | txAlias :: rest =>
      tx ← Transaction t txAlias;
      let '(allBooked, failed) :=
        match transactionMetadataStorage t !! MockedTransaction_ID tx with
        | Some txMetadata => (IsBooked txMetadata, failed)
        | None => (allBooked, failed ++ [MockedTransaction_ID tx])
        end in
      if negb allBooked then Some (allBooked, failed)
      else AllBooked_loop t allBooked failed rest
  end.

(** [TestFramework.AllBooked]: the named result starts at false. *)
Definition AllBooked (t : TestFramework) (txAliases : list string)
    : option (bool * list TransactionID) :=
  AllBooked_loop t false [] txAliases.

End TestFramework.

(** The transactions that successive calls of [NewMockedTransaction]
    create. *)
Fixpoint NewMockedTransactions (requests : list (list MockedInput * nat))
    (_uniqueEssenceCounter : Z) : list MockedTransaction :=
  match requests with
  | [] => []
  | (inputs, outputCount) :: rest =>
      let '(tx, counter) := NewMockedTransaction inputs outputCount _uniqueEssenceCounter in
      tx :: NewMockedTransactions rest counter
  end.

(** The integer that the first eight bytes of an identifier hold, the most
    significant first. *)
Definition Uint64 (b : list Z) : Z :=
  match b with
  | b0 :: b1 :: b2 :: b3 :: b4 :: b5 :: b6 :: b7 :: _ =>
      (b0 * 2 ^ 56 + b1 * 2 ^ 48 + b2 * 2 ^ 40 + b3 * 2 ^ 32
       + b4 * 2 ^ 24 + b5 * 2 ^ 16 + b6 * 2 ^ 8 + b7)%Z
  | _ => 0%Z
  end.

End ledger.

(** * The outputs of an address (package ledgerstate of the web API) *)

Module webapi.

(** [http.StatusOK], [http.StatusBadRequest] and [http.StatusNotFound] of
    the Go library. *)
Definition StatusOK : nat := 200.
Definition StatusBadRequest : nat := 400.
Definition StatusNotFound : nat := 404.

Section Outputs.

(** What belongs to other packages: the addresses and their parser, the
    outputs of the ledger state with their identifiers, the metadata of an
    output with its count of consumers, the error values, and the JSON model
    of one output.  [NewOutput] gets an output that may be the nil interface
    value; [None] is a panic. *)
Variable Address : Type.
Variable error : Type.
Variable AddressFromBase58EncodedString : string → Address + error.
Variable Output : Type.
Variable OutputID : Type.
Variable ID : Output → OutputID.
Variable OutputMetadataT : Type.
Variable ConsumerCount : OutputMetadataT → Z.
Variable JSONOutput : Type.
Variable NewOutput : option Output → option JSONOutput.

(** The ledger state of the tangle: the outputs of an address, after
    [Unwrap], where an entry that could not be loaded is nil, and the stored
    metadata of the outputs. *)
Variable OutputsOnAddress_of : Address → list (option Output).
Variable OutputMetadata : OutputID → option OutputMetadataT.

(** [ledgerstate.Outputs]: a slice of outputs, each possibly nil. *)
Definition Outputs : Type := list (option Output).

Record OutputsOnAddress : Type := mkOutputsOnAddress {
  OutputCount : nat;
  OutputsOnAddress_Outputs : list JSONOutput
}.

Record UnspentOutputsOnAddress : Type := mkUnspentOutputsOnAddress {
  UnspentOutputsCount : nat;
  UnspentOutputs : list JSONOutput
}.

(** The loop of [NewOutputsOnAddress]: the nil entries are skipped. *)
Fixpoint mapOutputs (outputs : Outputs) (mappedOutputs : list JSONOutput)
    : option (list JSONOutput) :=
  match outputs with
  | [] => Some mappedOutputs
  | None :: rest => mapOutputs rest mappedOutputs
  | Some output :: rest =>
      jsonOutput ← NewOutput (Some output);
      mapOutputs rest (mappedOutputs ++ [jsonOutput])
  end.

Definition NewOutputsOnAddress (outputs : Outputs) : option OutputsOnAddress :=
  mappedOutputs ← mapOutputs outputs [];
  Some (mkOutputsOnAddress (length outputs) mappedOutputs).

(** [NewUnspentOutputsOnAddress] maps every entry. *)
Definition NewUnspentOutputsOnAddress (unspentOutputs : Outputs)
    : option UnspentOutputsOnAddress :=
  jsonOutputs ← mapM NewOutput unspentOutputs;
  Some (mkUnspentOutputsOnAddress (length unspentOutputs) jsonOutputs).

(** What a handler hands to [c.JSON]. *)
Inductive Body : Type :=
  | ErrorResponse (err : error)
  | OutputsBody (outputs : OutputsOnAddress)
  | UnspentOutputsBody (outputs : UnspentOutputsOnAddress).

Record Response : Type := JSON {
  status : nat;
  body : Body
}.

(** [GetAddressOutputsEndPoint], from the parameter "address" of the
    request; [None] is a panic. *)
Definition GetAddressOutputsEndPoint (address : string) : option Response :=
  match AddressFromBase58EncodedString address with
  | inr err => Some (JSON StatusBadRequest (ErrorResponse err))
  | inl address =>
      outputs ← NewOutputsOnAddress (OutputsOnAddress_of address);
      Some (JSON StatusOK (OutputsBody outputs))
  end.

(** The loop of [GetAddressUnspentOutputsEndPoint].  For a nil entry the
    handler builds the error of its answer from [output.ID()], a call on
    the nil interface value, which panics. *)
Fixpoint collectUnspent (outputs : Outputs) (unspentOutputs : Outputs) : option Outputs :=
  match outputs with
  | [] => Some unspentOutputs
  | None :: rest => None
  | Some output :: rest =>
      collectUnspent rest
        match OutputMetadata (ID output) with
        | Some outputMetadata =>
            if decide (ConsumerCount outputMetadata = 0%Z)
            then unspentOutputs ++ [Some output] else unspentOutputs
        | None => unspentOutputs
        end
  end.

Definition GetAddressUnspentOutputsEndPoint (address : string) : option Response :=
  match AddressFromBase58EncodedString address with
  | inr err => Some (JSON StatusBadRequest (ErrorResponse err))
  | inl address =>
      unspentOutputs ← collectUnspent (OutputsOnAddress_of address) [];
      unspent ← NewUnspentOutputsOnAddress unspentOutputs;
      Some (JSON StatusOK (UnspentOutputsBody unspent))
  end.

(** An output counts as unspent when its metadata is stored and has no
    consumer. *)
Definition unspent (output : Output) : bool :=
  match OutputMetadata (ID output) with
  | Some outputMetadata => bool_decide (ConsumerCount outputMetadata = 0%Z)
  | None => false
  end.

End Outputs.

End webapi.

(** * The vocabulary of the properties *)

(** The order of the grades, on the metadata of each kind. *)
Definition message_le (a b : MessageMetadata) : Prop :=
  gof.rank (mGradeOfFinality a) ≤ gof.rank (mGradeOfFinality b).
Definition transaction_le (a b : TransactionMetadata) : Prop :=
  gof.rank (tGradeOfFinality a) ≤ gof.rank (tGradeOfFinality b).
Definition output_le (a b : OutputMetadata) : Prop :=
  gof.rank (oGradeOfFinality a) ≤ gof.rank (oGradeOfFinality b).

(** [raised R m m']: the two maps store objects under the same keys, and each
    object of [m'] is above the one of [m]. *)
Definition raised `{Countable K} {A} (R : relation A) (m m' : gmap K A) : Prop :=
  ∀ k, option_Forall2 R (m !! k) (m' !! k).

(** The invariant of the ledger state the gadget relies on for its outputs:
    the grade of a stored output is at most the grade stored for the
    transaction that created it. *)
Definition outputBelowCreator (st : Storage) (o : OutputID) (omd : OutputMetadata) : bool :=
  match transactionMetadata st !! oTransactionID o with
  | Some md => gof.geb (tGradeOfFinality md) (oGradeOfFinality omd)
  | None => true
  end.

Definition outputsBelowCreator (st : Storage) : Prop :=
  map_Forall (λ o omd, outputBelowCreator st o omd = true) (outputMetadata st).

(** The outputs listed by a stored transaction carry its identifier. *)
Definition outputsOwned (t : Tangle) : Prop :=
  map_Forall (λ transactionID transaction,
                Forall (λ o, oTransactionID o = transactionID) (Outputs transaction))
             (transactions t).

(** The grade stored for an entity in [st'] is above the one stored in [st]. *)
Definition raisedIn (st st' : Storage) (x : Entity) : Prop :=
  match x with
  | OfMessage id =>
      ∃ a b, messageMetadata st !! id = Some a ∧ messageMetadata st' !! id = Some b
             ∧ gof.rank (mGradeOfFinality a) < gof.rank (mGradeOfFinality b)
  | OfTransaction id =>
      ∃ a b, transactionMetadata st !! id = Some a ∧ transactionMetadata st' !! id = Some b
             ∧ gof.rank (tGradeOfFinality a) < gof.rank (tGradeOfFinality b)
  | OfOutput id =>
      ∃ a b, outputMetadata st !! id = Some a ∧ outputMetadata st' !! id = Some b
             ∧ gof.rank (oGradeOfFinality a) < gof.rank (oGradeOfFinality b)
  end.

(** An event about a message or a transaction is justified between [st] and
    [st'] when the grade of that entity went up; an event about a branch when
    the branch is one of [P]. *)
Definition justified (P : BranchID → Prop) (st st' : Storage) (e : Effect) : Prop :=
  match e with
  | Trigger (MessageConfirmed id) => raisedIn st st' (OfMessage id)
  | Trigger (TransactionConfirmed id) => raisedIn st st' (OfTransaction id)
  | Trigger (BranchConfirmed branchID) => P branchID
  | Write _ _ _ => True
  end.

(** A write that stores a grade at least the one it replaces. *)
Definition nondecreasing (e : Effect) : Prop :=
  match e with
  | Write _ old new => gof.rank old ≤ gof.rank new
  | Trigger _ => True
  end.

(** The grade stored for an entity. *)
Definition gradeOf (st : Storage) (x : Entity) : option gof.GradeOfFinality :=
  match x with
  | OfMessage id => mGradeOfFinality <$> messageMetadata st !! id
  | OfTransaction id => tGradeOfFinality <$> transactionMetadata st !! id
  | OfOutput id => oGradeOfFinality <$> outputMetadata st !! id
  end.

(** The storage with the grade of a stored entity replaced. *)
Definition setGrade (st : Storage) (x : Entity) (g : gof.GradeOfFinality) : Storage :=
  match x with
  | OfMessage id =>
      match messageMetadata st !! id with
      | Some md => storeMessageMetadata st id (mkMessageMetadata g (IsPastMarker md))
      | None => st
      end
  | OfTransaction id =>
      match transactionMetadata st !! id with
      | Some md => storeTransactionMetadata st id (mkTransactionMetadata g (tBranchID md))
      | None => st
      end
  | OfOutput id =>
      match outputMetadata st !! id with
      | Some md => storeOutputMetadata st id (mkOutputMetadata g)
      | None => st
      end
  end.

(** The writes of a log done again, one after the other, on a storage: each
    must find the grade it says it replaces. *)
Fixpoint replay (st : Storage) (log : list Effect) : option Storage :=
  match log with
  | [] => Some st
  | Trigger _ :: log => replay st log
  | Write x old new :: log =>
      if decide (gradeOf st x = Some old) then replay (setGrade st x new) log else None
  end.

(** What every step of the gadget guarantees between the storage it gets and
    the storage it leaves. *)
Record Step (P : BranchID → Prop) (t : Tangle) (st st' : Storage) (log : list Effect)
    : Prop := mkStep {
  step_messages : raised message_le (messageMetadata st) (messageMetadata st');
  step_transactions : raised transaction_le (transactionMetadata st) (transactionMetadata st');
  step_events : Forall (justified P st st') log;
  step_replay : replay st log = Some st';
  step_outputs :
    outputsOwned t → outputsBelowCreator st →
    outputsBelowCreator st'
    ∧ raised output_le (outputMetadata st) (outputMetadata st')
    ∧ Forall nondecreasing log
}.

(** The branch events a call may emit: the one of its own branch, when the
    candidate reaches the branch level. *)
Definition ownBranch (s : SimpleFinalityGadget) (c : Call) (branchID : BranchID) : Prop :=
  ∃ aw, c = CallBranch branchID aw
        ∧ gof.rank (BranchGoFReachedLevel (opts s))
          ≤ gof.rank (BranchTransFunc (opts s) branchID aw).

(** The entity an effect writes, and the entity an event confirms. *)
Definition writeOf (e : Effect) : option Entity :=
  match e with Write x _ _ => Some x | Trigger _ => None end.

Definition eventOf (e : Effect) : option Entity :=
  match e with
  | Trigger (MessageConfirmed id) => Some (OfMessage id)
  | Trigger (TransactionConfirmed id) => Some (OfTransaction id)
  | _ => None
  end.

Fixpoint countOf (f : Effect → option Entity) (x : Entity) (log : list Effect) : nat :=
  match log with
  | [] => 0
  | e :: log => (if decide (f e = Some x) then 1 else 0) + countOf f x log
  end.

(** How often the effect [e] is in the log. *)
Fixpoint occurrences (e : Effect) (log : list Effect) : nat :=
  match log with
  | [] => 0
  | e' :: log => (if decide (e' = e) then 1 else 0) + occurrences e log
  end.

Definition tracked (x : Entity) : Prop :=
  match x with OfOutput _ => False | _ => True end.

(** Within one call every message and every transaction has one candidate
    grade [cand].  [Once cand st st' log]: the log writes a message or a
    transaction at most once, emits at most as many confirmations for it as
    it writes it, and writes it only from a grade below its candidate to a
    grade that is at least its candidate. *)
Definition Once (cand : Entity → gof.GradeOfFinality) (st st' : Storage)
    (log : list Effect) : Prop :=
  ∀ x, tracked x →
       countOf eventOf x log ≤ countOf writeOf x log
       ∧ countOf writeOf x log ≤ 1
       ∧ (0 < countOf writeOf x log →
          ∃ a b, gradeOf st x = Some a ∧ gradeOf st' x = Some b
                 ∧ gof.rank a < gof.rank (cand x) ∧ gof.rank (cand x) ≤ gof.rank b).

(** The candidate of an entity in a [HandleMarker] call whose weight
    translates to [g]: the translation of its branch weight for a conflicting
    transaction, [g] for everything else. *)
Definition markerCandidate (s : SimpleFinalityGadget) (g : gof.GradeOfFinality)
    (x : Entity) : gof.GradeOfFinality :=
  match x with
  | OfTransaction transactionID =>
      if TransactionConflicting (tangle s) transactionID
      then BranchTransFunc (opts s) (NewBranchID transactionID)
             (WeightOfBranch (tangle s) (NewBranchID transactionID))
      else g
  | _ => g
  end.

(** ** What the calls may log, and what they may change *)

(** The effects [HandleBranch] may log for the branch [branchID] when its
    candidate is [g]: writes of [g] to transactions and outputs, a
    [TransactionConfirmed] or the [BranchConfirmed] of the branch when [g]
    reaches the branch level; nothing about a message. *)
Definition handleBranchEffect (s : SimpleFinalityGadget) (branchID : BranchID)
    (g : gof.GradeOfFinality) (e : Effect) : Prop :=
  match e with
  | Write (OfMessage _) _ _ => False
  | Write (OfTransaction _) _ new => new = g
  | Write (OfOutput _) _ new => new = g
  | Trigger (MessageConfirmed _) => False
  | Trigger (TransactionConfirmed _) =>
      gof.rank (BranchGoFReachedLevel (opts s)) ≤ gof.rank g
  | Trigger (BranchConfirmed b) =>
      b = branchID ∧ gof.rank (BranchGoFReachedLevel (opts s)) ≤ gof.rank g
  end.

(** The effects [HandleMarker] may log when its candidate is [g]: writes of
    [g] to messages, writes of the candidate of a transaction to it and to the
    outputs it lists, a [MessageConfirmed] when [g] reaches the message level,
    a [TransactionConfirmed] when the candidate of the transaction reaches the
    branch level; never a [BranchConfirmed]. *)
Definition handleMarkerEffect (s : SimpleFinalityGadget) (g : gof.GradeOfFinality)
    (e : Effect) : Prop :=
  match e with
  | Write (OfMessage _) _ new => new = g
  | Write (OfTransaction transactionID) _ new =>
      new = markerCandidate s g (OfTransaction transactionID)
  | Write (OfOutput o) _ new =>
      ∃ transactionID transaction,
        transactions (tangle s) !! transactionID = Some transaction
        ∧ o ∈ Outputs transaction
        ∧ new = markerCandidate s g (OfTransaction transactionID)
  | Trigger (MessageConfirmed _) =>
      gof.rank (MessageGoFReachedLevel (opts s)) ≤ gof.rank g
  | Trigger (TransactionConfirmed transactionID) =>
      gof.rank (BranchGoFReachedLevel (opts s))
      ≤ gof.rank (markerCandidate s g (OfTransaction transactionID))
  | Trigger (BranchConfirmed _) => False
  end.

(** What a [HandleBranch] of [branchID] with the candidate [g] may have done
    between [st] and [st']: the messages are as they were; a transaction is
    as it was, or it was of the branch, below [g] and with an attachment at
    [g] or above, and is now at [g]; an output is as it was, or it is listed
    by such a transaction and is now at [g]. *)
Definition branchFrame (s : SimpleFinalityGadget) (branchID : BranchID)
    (g : gof.GradeOfFinality) (st st' : Storage) : Prop :=
  messageMetadata st' = messageMetadata st
  ∧ (∀ transactionID,
       transactionMetadata st' !! transactionID = transactionMetadata st !! transactionID
       ∨ ∃ md, transactionMetadata st !! transactionID = Some md
               ∧ tBranchID md = branchID
               ∧ gof.rank (tGradeOfFinality md) < gof.rank g
               ∧ gof.rank g ≤ gof.rank (maxAttachmentGoF s st transactionID)
               ∧ transactionMetadata st' !! transactionID
                 = Some (mkTransactionMetadata g branchID))
  ∧ (∀ o,
       outputMetadata st' !! o = outputMetadata st !! o
       ∨ ∃ transactionID transaction md,
           transactions (tangle s) !! transactionID = Some transaction
           ∧ o ∈ Outputs transaction
           ∧ transactionMetadata st !! transactionID = Some md
           ∧ tBranchID md = branchID
           ∧ gof.rank (tGradeOfFinality md) < gof.rank g
           ∧ transactionMetadata st' !! transactionID
             = Some (mkTransactionMetadata g branchID)
           ∧ outputMetadata st' !! o
             = (λ _, mkOutputMetadata g) <$> outputMetadata st !! o).

(** The common shape of what a call may have changed between [st] and [st']
    when messages are raised to [g] and a transaction to its candidate
    [cand]: a message is as it was, or it was below [g], is one of [M] and
    is now at [g]; a transaction is as it was, or it was below its candidate,
    satisfies [Tok] and is now at its candidate; an output is as it was, or
    it is listed by a transaction that was raised and is now at the
    candidate of that transaction.  The flag of a message and the branch of
    a transaction are kept. *)
Record Frame (t : Tangle) (g : gof.GradeOfFinality)
    (cand : TransactionID → gof.GradeOfFinality) (M : MessageID → Prop)
    (Tok : TransactionID → TransactionMetadata → Prop) (st st' : Storage) : Prop := mkFrame {
  frame_messages : ∀ messageID,
    messageMetadata st' !! messageID = messageMetadata st !! messageID
    ∨ ∃ md, messageMetadata st !! messageID = Some md
            ∧ gof.rank (mGradeOfFinality md) < gof.rank g
            ∧ M messageID
            ∧ messageMetadata st' !! messageID
              = Some (mkMessageMetadata g (IsPastMarker md));
  frame_transactions : ∀ transactionID,
    transactionMetadata st' !! transactionID = transactionMetadata st !! transactionID
    ∨ ∃ md, transactionMetadata st !! transactionID = Some md
            ∧ gof.rank (tGradeOfFinality md) < gof.rank (cand transactionID)
            ∧ Tok transactionID md
            ∧ transactionMetadata st' !! transactionID
              = Some (mkTransactionMetadata (cand transactionID) (tBranchID md));
  frame_outputs : ∀ o,
    outputMetadata st' !! o = outputMetadata st !! o
    ∨ ∃ transactionID transaction md,
        transactions t !! transactionID = Some transaction
        ∧ o ∈ Outputs transaction
        ∧ transactionMetadata st !! transactionID = Some md
        ∧ gof.rank (tGradeOfFinality md) < gof.rank (cand transactionID)
        ∧ transactionMetadata st' !! transactionID
          = Some (mkTransactionMetadata (cand transactionID) (tBranchID md))
        ∧ outputMetadata st' !! o
          = (λ _, mkOutputMetadata (cand transactionID)) <$> outputMetadata st !! o
}.

(** [belowParent s g st x y]: the message [x] is stored with a grade below
    [g] in [st], and [y] is one of its strong parents.  The walk of
    [HandleMarker] follows these links only. *)
Definition belowParent (s : SimpleFinalityGadget) (g : gof.GradeOfFinality)
    (st : Storage) (x y : MessageID) : Prop :=
  ∃ message md, messages (tangle s) !! x = Some message
                ∧ messageMetadata st !! x = Some md
                ∧ gof.rank (mGradeOfFinality md) < gof.rank g
                ∧ y ∈ strongParents message.

(** What a [HandleMarker] whose candidate is [g] and whose marker is the
    message [root] may have done between [st] and [st']: a message is as it
    was, or it was below [g], is reached from [root] through strong parents
    of messages below [g], and is now at [g]; a transaction is as it was, or
    it was below its candidate, is the payload of such a message and is now
    at its candidate; an output is as it was, or it is listed by such a
    transaction and is now at the candidate of that transaction. *)
Definition markerFrame (s : SimpleFinalityGadget) (g : gof.GradeOfFinality)
    (root : MessageID) (st st' : Storage) : Prop :=
  (∀ messageID,
     messageMetadata st' !! messageID = messageMetadata st !! messageID
     ∨ ∃ md, messageMetadata st !! messageID = Some md
             ∧ gof.rank (mGradeOfFinality md) < gof.rank g
             ∧ rtc (belowParent s g st) root messageID
             ∧ messageMetadata st' !! messageID
               = Some (mkMessageMetadata g (IsPastMarker md)))
  ∧ (∀ transactionID,
       transactionMetadata st' !! transactionID = transactionMetadata st !! transactionID
       ∨ ∃ md messageID message mmd,
           transactionMetadata st !! transactionID = Some md
           ∧ gof.rank (tGradeOfFinality md)
             < gof.rank (markerCandidate s g (OfTransaction transactionID))
           ∧ transactionMetadata st' !! transactionID
             = Some (mkTransactionMetadata
                       (markerCandidate s g (OfTransaction transactionID)) (tBranchID md))
           ∧ messages (tangle s) !! messageID = Some message
           ∧ payload message = Some transactionID
           ∧ messageMetadata st !! messageID = Some mmd
           ∧ gof.rank (mGradeOfFinality mmd) < gof.rank g
           ∧ rtc (belowParent s g st) root messageID)
  ∧ (∀ o,
       outputMetadata st' !! o = outputMetadata st !! o
       ∨ ∃ transactionID transaction md,
           transactions (tangle s) !! transactionID = Some transaction
           ∧ o ∈ Outputs transaction
           ∧ transactionMetadata st !! transactionID = Some md
           ∧ gof.rank (tGradeOfFinality md)
             < gof.rank (markerCandidate s g (OfTransaction transactionID))
           ∧ transactionMetadata st' !! transactionID
             = Some (mkTransactionMetadata
                       (markerCandidate s g (OfTransaction transactionID)) (tBranchID md))
           ∧ outputMetadata st' !! o
             = (λ _, mkOutputMetadata
                       (markerCandidate s g (OfTransaction transactionID)))
               <$> outputMetadata st !! o).

(** ** The options of a caller *)

(** What an option built by one of the four constructors of the package
    sets. *)
Inductive Setting : Type :=
  | BranchTranslationIs (f : BranchThresholdTranslation)
  | MessageTranslationIs (f : MessageThresholdTranslation)
  | BranchLevelIs (g : gof.GradeOfFinality)
  | MessageLevelIs (g : gof.GradeOfFinality).

Definition optionOf (x : Setting) : Option :=
  match x with
  | BranchTranslationIs f => WithBranchThresholdTranslation f
  | MessageTranslationIs f => WithMessageThresholdTranslation f
  | BranchLevelIs g => WithBranchGoFReachedLevel g
  | MessageLevelIs g => WithMessageGoFReachedLevel g
  end.

Definition branchTranslationOf (x : Setting) : option BranchThresholdTranslation :=
  match x with BranchTranslationIs f => Some f | _ => None end.
Definition messageTranslationOf (x : Setting) : option MessageThresholdTranslation :=
  match x with MessageTranslationIs f => Some f | _ => None end.
Definition branchLevelOf (x : Setting) : option gof.GradeOfFinality :=
  match x with BranchLevelIs g => Some g | _ => None end.
Definition messageLevelOf (x : Setting) : option gof.GradeOfFinality :=
  match x with MessageLevelIs g => Some g | _ => None end.

(** The last setting of a kind in a list, or [d] when there is none. *)
Definition lastOr {A} (d : A) (kind : Setting → option A) (xs : list Setting) : A :=
  default d (last (omap kind xs)).

(** [announced s log]: every write of the log that stores, for a message, a
    grade at the message level or above, or for a transaction a grade at the
    branch level or above, comes with the confirmation event of that message
    or transaction in the same log. *)
Definition announced (s : SimpleFinalityGadget) (log : list Effect) : Prop :=
  ∀ e, e ∈ log →
       match e with
       | Write (OfMessage messageID) _ new =>
           gof.rank (MessageGoFReachedLevel (opts s)) ≤ gof.rank new →
           Trigger (MessageConfirmed messageID) ∈ log
       | Write (OfTransaction transactionID) _ new =>
           gof.rank (BranchGoFReachedLevel (opts s)) ≤ gof.rank new →
           Trigger (TransactionConfirmed transactionID) ∈ log
       | _ => True
       end.

(** [settled s g st messageID]: the walk of [HandleMarker] has nothing left
    to do for the message: it is not stored, or no metadata is stored for it,
    or its grade is at [g] or above. *)
Definition settled (s : SimpleFinalityGadget) (g : gof.GradeOfFinality)
    (st : Storage) (messageID : MessageID) : Prop :=
  match messages (tangle s) !! messageID, messageMetadata st !! messageID with
  | Some _, Some md => gof.rank g ≤ gof.rank (mGradeOfFinality md)
  | _, _ => True
  end.

(** The messages the walk must still settle, or has settled: the message
    [root] of the marker, and the strong parents of the messages that were
    below [g] in [st0] and are at [g] or above in [st]. *)
Definition target (s : SimpleFinalityGadget) (g : gof.GradeOfFinality)
    (root : MessageID) (st0 st : Storage) (y : MessageID) : Prop :=
  y = root
  ∨ ∃ x md, belowParent s g st0 x y
            ∧ messageMetadata st !! x = Some md
            ∧ gof.rank g ≤ gof.rank (mGradeOfFinality md).

(** [Cover t cand st st']: between [st] and [st'] a transaction is as it
    was or was raised to its candidate [cand]; the same outputs are stored;
    and every stored output that a raised transaction lists is at the
    candidate of the transaction. *)
Record Cover (t : Tangle) (cand : TransactionID → gof.GradeOfFinality)
    (st st' : Storage) : Prop := mkCover {
  cover_transactions : ∀ transactionID,
    transactionMetadata st' !! transactionID = transactionMetadata st !! transactionID
    ∨ ∃ md, transactionMetadata st !! transactionID = Some md
            ∧ gof.rank (tGradeOfFinality md) < gof.rank (cand transactionID)
            ∧ transactionMetadata st' !! transactionID
              = Some (mkTransactionMetadata (cand transactionID) (tBranchID md));
  cover_keys : ∀ o, outputMetadata st' !! o = None ↔ outputMetadata st !! o = None;
  cover_outputs : ∀ transactionID md transaction o,
    transactionMetadata st !! transactionID = Some md →
    gof.rank (tGradeOfFinality md) < gof.rank (cand transactionID) →
    transactionMetadata st' !! transactionID
    = Some (mkTransactionMetadata (cand transactionID) (tBranchID md)) →
    transactions t !! transactionID = Some transaction →
    o ∈ Outputs transaction →
    outputMetadata st' !! o
    = (λ _, mkOutputMetadata (cand transactionID)) <$> outputMetadata st !! o
}.

(** [raisable s branchID g st x]: [forwardPropagateBranchGoFToTxs] raises
    the transaction [x] in [st]: its metadata is stored, it is recorded
    under the branch, an attachment of it is at [g] or above, and its grade
    is below [g]. *)
Definition raisable (s : SimpleFinalityGadget) (branchID : BranchID)
    (g : gof.GradeOfFinality) (st : Storage) (x : TransactionID) : Prop :=
  ∃ md, transactionMetadata st !! x = Some md
        ∧ tBranchID md = branchID
        ∧ gof.rank g ≤ gof.rank (maxAttachmentGoF s st x)
        ∧ gof.rank (tGradeOfFinality md) < gof.rank g.

(** [spends s st x y]: the transaction [y] is a consumer of an output that
    [x] lists and whose metadata is stored. *)
Definition spends (s : SimpleFinalityGadget) (st : Storage) (x y : TransactionID) : Prop :=
  ∃ transaction o cs,
    transactions (tangle s) !! x = Some transaction
    ∧ o ∈ Outputs transaction
    ∧ is_Some (outputMetadata st !! o)
    ∧ consumers (tangle s) !! o = Some cs
    ∧ y ∈ cs.

(** The links the loop of [HandleBranch] follows. *)
Definition branchLink (s : SimpleFinalityGadget) (branchID : BranchID)
    (g : gof.GradeOfFinality) (st : Storage) (x y : TransactionID) : Prop :=
  raisable s branchID g st x ∧ spends s st x y.

(** [settledTx s branchID g st y]: the loop of [HandleBranch] has nothing
    left to do for the transaction. *)
Definition settledTx (s : SimpleFinalityGadget) (branchID : BranchID)
    (g : gof.GradeOfFinality) (st : Storage) (y : TransactionID) : Prop :=
  match transactionMetadata st !! y with
  | Some md =>
      tBranchID md ≠ branchID
      ∨ gof.rank (maxAttachmentGoF s st y) < gof.rank g
      ∨ gof.rank g ≤ gof.rank (tGradeOfFinality md)
  | None => True
  end.

(** The transactions the loop must still settle, or has settled: the one
    that defines the branch, and the consumers of the transactions that were
    raisable in [st0] and are at [g] or above in [st]. *)
Definition targetTx (s : SimpleFinalityGadget) (branchID : BranchID)
    (g : gof.GradeOfFinality) (st0 st : Storage) (y : TransactionID) : Prop :=
  y = BranchID_TransactionID branchID
  ∨ ∃ x md, branchLink s branchID g st0 x y
            ∧ transactionMetadata st !! x = Some md
            ∧ gof.rank g ≤ gof.rank (tGradeOfFinality md).

(** ** Examples of a tangle and its storage *)

(** A marker message 10 with the strong parent 11, which carries the
    transaction 5 of two outputs; the transaction 6 of another branch spends
    the first of them. *)
Definition cascadeGadget : SimpleFinalityGadget :=
  NewSimpleFinalityGadget
    (mkTangle {[ (1, 1) := 10 ]}
              {[ 10 := mkMessage [11] None; 11 := mkMessage [] (Some 5) ]}
              {[ 5 := [11] ]}
              {[ 5 := mkTransaction [mkOutputID 5 0; mkOutputID 5 1];
                 6 := mkTransaction [mkOutputID 6 0] ]}
              {[ mkOutputID 5 0 := [6] ]}
              (λ _, false) (λ _, 0%Q))
    [].

Definition cascadeStorage : Storage :=
  mkStorage
    {[ 10 := mkMessageMetadata gof.None true; 11 := mkMessageMetadata gof.None false ]}
    {[ 5 := mkTransactionMetadata gof.None 5; 6 := mkTransactionMetadata gof.None 7 ]}
    {[ mkOutputID 5 0 := mkOutputMetadata gof.None;
       mkOutputID 5 1 := mkOutputMetadata gof.None;
       mkOutputID 6 0 := mkOutputMetadata gof.None ]}.

(** The same tangle, with the transaction 5 in a conflict and no weight on
    its branch yet. *)
Definition conflictGadget : SimpleFinalityGadget :=
  mkGadget
    (mkTangle (markerIndex (tangle cascadeGadget)) (messages (tangle cascadeGadget))
              (attachments (tangle cascadeGadget)) (transactions (tangle cascadeGadget))
              (consumers (tangle cascadeGadget))
              (λ transactionID, bool_decide (transactionID = 5)) (λ _, 0%Q))
    (opts cascadeGadget).

(** The tangle of [conflictGadget] once the branch of transaction 5 has the
    weight 0.6. *)
Definition weightedGadget : SimpleFinalityGadget :=
  mkGadget
    (mkTangle (markerIndex (tangle cascadeGadget)) (messages (tangle cascadeGadget))
              (attachments (tangle cascadeGadget)) (transactions (tangle cascadeGadget))
              (consumers (tangle cascadeGadget))
              (λ transactionID, bool_decide (transactionID = 5)) (λ _, 6 # 10))
    (opts cascadeGadget).

(** The storage after the marker of message 10 got the weight 0.3 in
    [conflictGadget]: both messages are at Medium, the conflicting transaction
    5 is still at None. *)
Definition mediumMessages : Storage :=
  (HandleMarker conflictGadget cascadeStorage (1, 1) (3 # 10)).1.1.

(** A gadget whose message level is Low and whose branch level is High, and a
    store with one transaction of grade Medium. *)
Definition levelsGadget : SimpleFinalityGadget :=
  NewSimpleFinalityGadget
    (mkTangle ∅ ∅ ∅ ∅ ∅ (λ _, false) (λ _, 0%Q))
    [WithMessageGoFReachedLevel gof.Low].

Definition mediumStorage : Storage :=
  mkStorage ∅ {[ 1 := mkTransactionMetadata gof.Medium 1 ]} ∅.

(** The marker of message 10 gets the weight 0.6, the branch 5 gets 0.6, and
    the marker gets the lower weight 0.25 afterwards. *)
Definition cascadeCalls : list Call :=
  [CallMarker (1, 1) (6 # 10); CallBranch 5 (6 # 10); CallMarker (1, 1) (25 # 100)].

(** A tangle whose marker index is empty, with a message stored under the
    empty message identifier, and its metadata at None. *)
Definition genesisGadget : SimpleFinalityGadget :=
  NewSimpleFinalityGadget
    (mkTangle ∅ {[ EmptyMessageID := mkMessage [] None ]} ∅ ∅ ∅ (λ _, false) (λ _, 0%Q))
    [].

Definition genesisStorage : Storage :=
  mkStorage {[ EmptyMessageID := mkMessageMetadata gof.None false ]} ∅ ∅.

(** The transaction 5 defines the branch 5; the transaction 8, of the same
    branch, spends its output.  Both are attached by the message 11, which
    is at High. *)
Definition chainGadget : SimpleFinalityGadget :=
  NewSimpleFinalityGadget
    (mkTangle ∅
              {[ 11 := mkMessage [] (Some 5) ]}
              {[ 5 := [11]; 8 := [11] ]}
              {[ 5 := mkTransaction [mkOutputID 5 0];
                 8 := mkTransaction [mkOutputID 8 0] ]}
              {[ mkOutputID 5 0 := [8] ]}
              (λ _, false) (λ _, 0%Q))
    [].

Definition chainStorage : Storage :=
  mkStorage
    {[ 11 := mkMessageMetadata gof.High false ]}
    {[ 5 := mkTransactionMetadata gof.None 5; 8 := mkTransactionMetadata gof.None 5 ]}
    {[ mkOutputID 5 0 := mkOutputMetadata gof.None;
       mkOutputID 8 0 := mkOutputMetadata gof.None ]}.

(** * Properties *)

(** ** Comparisons of grades *)

Lemma geb_true (a b : gof.GradeOfFinality) :
  gof.geb a b = true ↔ gof.rank b ≤ gof.rank a.
Proof. unfold gof.geb. apply Nat.leb_le. Qed.

Lemma ltb_true (a b : gof.GradeOfFinality) :
  gof.ltb a b = true ↔ gof.rank a < gof.rank b.
Proof. unfold gof.ltb. apply Nat.ltb_lt. Qed.

Lemma ltb_false (a b : gof.GradeOfFinality) :
  gof.ltb a b = false ↔ gof.rank b ≤ gof.rank a.
Proof. unfold gof.ltb. rewrite Nat.ltb_ge. done. Qed.

Lemma eqb_None_true (g : gof.GradeOfFinality) :
  gof.eqb g gof.None = true ↔ g = gof.None.
Proof. by destruct g. Qed.

(** ** Threshold translation *)

Lemma Qgeb_true (a b : Q) : Qgeb a b = true ↔ (b <= a)%Q.
Proof. apply Qle_bool_iff. Qed.

Lemma Qltb_true (a b : Q) : Qltb a b = true ↔ (a < b)%Q.
Proof.
  unfold Qltb. rewrite negb_true_iff, <- not_true_iff_false, Qle_bool_iff.
  split; [apply Qnot_le_lt | apply Qlt_not_le].
Qed.

Lemma Qgeb_false (a b : Q) : Qgeb a b = false ↔ (a < b)%Q.
Proof.
  unfold Qgeb. rewrite <- not_true_iff_false, Qle_bool_iff.
  split; [apply Qnot_le_lt | apply Qlt_not_le].
Qed.

Lemma Qltb_false (a b : Q) : Qltb a b = false ↔ (b <= a)%Q.
Proof. unfold Qltb. rewrite negb_false_iff. apply Qle_bool_iff. Qed.

(** The bands of the default translation, one by one. *)
Lemma DefaultMessageGoFTranslation_None (w : Q) :
  (w < lowLowerBound)%Q → DefaultMessageGoFTranslation w = gof.None.
Proof.
  intros Hw. unfold DefaultMessageGoFTranslation.
  assert (Qgeb w lowLowerBound = false) as -> by by apply Qgeb_false.
  assert (Qgeb w mediumLowerBound = false) as ->.
  { apply Qgeb_false. eapply Qlt_trans; [exact Hw | done]. }
  assert (Qgeb w highLowerBound = false) as ->; [|done].
  apply Qgeb_false. eapply Qlt_trans; [exact Hw | done].
Qed.

Lemma DefaultMessageGoFTranslation_Low (w : Q) :
  (lowLowerBound <= w)%Q → (w < mediumLowerBound)%Q →
  DefaultMessageGoFTranslation w = gof.Low.
Proof.
  intros Hlo Hhi. unfold DefaultMessageGoFTranslation.
  assert (Qgeb w lowLowerBound = true) as -> by by apply Qgeb_true.
  by assert (Qltb w mediumLowerBound = true) as -> by by apply Qltb_true.
Qed.

Lemma DefaultMessageGoFTranslation_Medium (w : Q) :
  (mediumLowerBound <= w)%Q → (w < highLowerBound)%Q →
  DefaultMessageGoFTranslation w = gof.Medium.
Proof.
  intros Hlo Hhi. unfold DefaultMessageGoFTranslation.
  assert (Qltb w mediumLowerBound = false) as -> by by apply Qltb_false.
  assert (Qgeb w mediumLowerBound = true) as -> by by apply Qgeb_true.
  assert (Qltb w highLowerBound = true) as -> by by apply Qltb_true.
  by rewrite andb_false_r.
Qed.

Lemma DefaultMessageGoFTranslation_High (w : Q) :
  (highLowerBound <= w)%Q → DefaultMessageGoFTranslation w = gof.High.
Proof.
  intros Hlo. unfold DefaultMessageGoFTranslation.
  assert (Qltb w mediumLowerBound = false) as ->.
  { apply Qltb_false. eapply Qle_trans; [|exact Hlo]. done. }
  assert (Qltb w highLowerBound = false) as -> by by apply Qltb_false.
  assert (Qgeb w highLowerBound = true) as -> by by apply Qgeb_true.
  by rewrite !andb_false_r.
Qed.

(** C10: the default translations of a message weight and of a branch weight
    are the same function, which gives None below 0.2, Low from 0.2 up to 0.3
    excluded, Medium from 0.3 up to 0.5 excluded and High from 0.5 on; so 0.2
    is Low, 0.19999 is None, 0.3 is Medium and 0.5 is High. *)
Theorem default_translation_bands (branchID : BranchID) (w : Q) :
  DefaultBranchGoFTranslation branchID w = DefaultMessageGoFTranslation w
  ∧ ((w < 2 # 10)%Q → DefaultMessageGoFTranslation w = gof.None)
  ∧ ((2 # 10 <= w)%Q ∧ (w < 3 # 10)%Q → DefaultMessageGoFTranslation w = gof.Low)
  ∧ ((3 # 10 <= w)%Q ∧ (w < 5 # 10)%Q → DefaultMessageGoFTranslation w = gof.Medium)
  ∧ ((5 # 10 <= w)%Q → DefaultMessageGoFTranslation w = gof.High)
  ∧ DefaultMessageGoFTranslation (2 # 10) = gof.Low
  ∧ DefaultMessageGoFTranslation (19999 # 100000) = gof.None
  ∧ DefaultMessageGoFTranslation (3 # 10) = gof.Medium
  ∧ DefaultMessageGoFTranslation (5 # 10) = gof.High.
Proof.
  split; [reflexivity|].
  split; [apply DefaultMessageGoFTranslation_None|].
  split; [intros []; by apply DefaultMessageGoFTranslation_Low|].
  split; [intros []; by apply DefaultMessageGoFTranslation_Medium|].
  split; [apply DefaultMessageGoFTranslation_High|].
  repeat split; reflexivity.
Qed.

Lemma default_translation_bands_witness :
  DefaultBranchGoFTranslation 7 (25 # 100) = gof.Low.
Proof.
  destruct (default_translation_bands 7 (25 # 100)) as (-> & _ & HLow & _).
  apply HLow. split; done.
Defined.

(** ** The query predicates *)

Lemma IsTransactionConfirmed_spec (s : SimpleFinalityGadget) (st : Storage)
    (transactionID : TransactionID) :
  IsTransactionConfirmed s st transactionID = true
  ↔ ∃ md, transactionMetadata st !! transactionID = Some md
          ∧ gof.rank (MessageGoFReachedLevel (opts s)) ≤ gof.rank (tGradeOfFinality md).
Proof.
  unfold IsTransactionConfirmed.
  destruct (transactionMetadata st !! transactionID) as [md|].
  - rewrite geb_true. split; [eauto|]. by intros (? & [= <-] & ?).
  - split; [done|]. by intros (? & ? & ?).
Qed.

(** C1: [IsTransactionConfirmed] does not compare with the branch level.  With
    the message level at Low and the branch level at High, a transaction of
    grade Medium, which is below the branch level, is reported confirmed. *)
Theorem IsTransactionConfirmed_below_branch_level :
  BranchGoFReachedLevel (opts levelsGadget) = gof.High
  ∧ (tGradeOfFinality <$> transactionMetadata mediumStorage !! 1) = Some gof.Medium
  ∧ gof.geb gof.Medium (BranchGoFReachedLevel (opts levelsGadget)) = false
  ∧ IsTransactionConfirmed levelsGadget mediumStorage 1 = true
  ∧ IsOutputConfirmed levelsGadget
      (mkStorage ∅ ∅ {[ mkOutputID 1 0 := mkOutputMetadata gof.Medium ]})
      (mkOutputID 1 0) = false.
Proof. repeat split; vm_compute; reflexivity. Qed.

(** ** Calls that change nothing *)

Section NoOp.

Variable s : SimpleFinalityGadget.

Lemma WalkMessageAndMetadata_nil fuel g st :
  WalkMessageAndMetadata s fuel g [] st = (st, [], []).
Proof. by destruct fuel. Qed.

Lemma propagateBranch_nil fuel branchID g st :
  propagateBranch s fuel branchID g [] st = (st, [], []).
Proof. by destruct fuel. Qed.

(** [HandleMarker] returns at once when the candidate is None, when no
    metadata is stored for the message of the marker, or when the stored
    grade is not below the candidate. *)
Lemma HandleMarker_guard st marker aw :
  MessageTransFunc (opts s) aw = gof.None
  ∨ messageMetadata st !! MarkersManager_MessageID (tangle s) marker = None
  ∨ (∃ md, messageMetadata st !! MarkersManager_MessageID (tangle s) marker = Some md
           ∧ gof.rank (MessageTransFunc (opts s) aw) ≤ gof.rank (mGradeOfFinality md)) →
  HandleMarker s st marker aw = (st, [], None).
Proof.
  unfold HandleMarker. intros [HNone | [Hmd | (md & Hmd & Hle)]].
  - by rewrite HNone.
  - rewrite Hmd. by destruct (gof.eqb _ _).
  - rewrite Hmd. apply ltb_false in Hle. rewrite Hle. by destruct (gof.eqb _ _).
Qed.

(** When the message itself is not stored the walk takes its identifier and
    runs nothing. *)
Lemma HandleMarker_no_message st marker aw :
  messages (tangle s) !! MarkersManager_MessageID (tangle s) marker = None →
  HandleMarker s st marker aw = (st, [], None).
Proof.
  unfold HandleMarker.
  generalize (MarkersManager_MessageID (tangle s) marker) as messageID.
  intros messageID Hmsg.
  destruct (gof.eqb _ _); [done|].
  destruct (negb _); [done|].
  cbn [WalkMessageAndMetadata]. rewrite Hmsg.
  by rewrite WalkMessageAndMetadata_nil.
Qed.

End NoOp.

(** When no message, or no metadata of a message, is stored under the
    identifier the marker index gives for a marker, [HandleMarker] keeps the
    metadata of messages, transactions and outputs as they are, writes
    nothing, emits no event and returns no error. *)
Lemma HandleMarker_unresolved_marker (s : SimpleFinalityGadget) (st : Storage)
    (marker : Marker) (aw : Q) :
  MessageTransFunc (opts s) aw ≠ gof.None →
  messages (tangle s) !! MarkersManager_MessageID (tangle s) marker = None
  ∨ messageMetadata st !! MarkersManager_MessageID (tangle s) marker = None →
  HandleMarker s st marker aw = (st, [], None).
Proof.
  intros _ [Hmsg | Hmd].
  - by apply HandleMarker_no_message.
  - apply HandleMarker_guard. auto.
Qed.

Lemma HandleMarker_unresolved_marker_witness :
  HandleMarker cascadeGadget cascadeStorage (2, 1) (6 # 10) = (cascadeStorage, [], None).
Proof.
  apply HandleMarker_unresolved_marker; [vm_compute; discriminate | left; reflexivity].
Defined.

(** C8: [HandleBranch] returns no error, whatever the branch and the weight,
    and [HandleMarker] returns no error, whatever the marker and the weight:
    [ErrUnsupportedBranchType] is declared and never returned by either. *)
Theorem handlers_return_nil (s : SimpleFinalityGadget) (st : Storage)
    (branchID : BranchID) (marker : Marker) (aw : Q) :
  (HandleBranch s st branchID aw).2 = None
  ∧ (HandleMarker s st marker aw).2 = None.
Proof.
  split.
  - unfold HandleBranch.
    by destruct (propagateBranch _ _ _ _ _ _) as [[st1 w1] log1].
  - unfold HandleMarker.
    destruct (gof.eqb _ _); [done|]. destruct (negb _); [done|].
    by destruct (WalkMessageAndMetadata _ _ _ _ _) as [[st1 w1] log1].
Qed.

(** C8, as stated, fails: no input makes [HandleBranch] return an error. *)
Lemma HandleBranch_error_counterexample :
  ¬ ∃ (s : SimpleFinalityGadget) (st : Storage) (branchID : BranchID) (aw : Q),
      (HandleBranch s st branchID aw).2 ≠ None.
Proof.
  intros (s & st & branchID & aw & Herr). apply Herr.
  unfold HandleBranch.
  by destruct (propagateBranch _ _ _ _ _ _) as [[st1 w1] log1].
Qed.

(** ** Transactions the forward propagation leaves alone *)

(** [maxAttachmentGoF] is the greatest grade stored for an attachment of the
    transaction: it bounds each of them, and it is the grade of one of them
    unless it is None. *)
Lemma maxAttachmentGoF_spec (s : SimpleFinalityGadget) (st : Storage)
    (transactionID : TransactionID) :
  (∀ messageID md,
     messageID ∈ default [] (attachments (tangle s) !! transactionID) →
     messageMetadata st !! messageID = Some md →
     gof.rank (mGradeOfFinality md) ≤ gof.rank (maxAttachmentGoF s st transactionID))
  ∧ (maxAttachmentGoF s st transactionID = gof.None
     ∨ ∃ messageID md,
         messageID ∈ default [] (attachments (tangle s) !! transactionID)
         ∧ messageMetadata st !! messageID = Some md
         ∧ mGradeOfFinality md = maxAttachmentGoF s st transactionID).
Proof.
  unfold maxAttachmentGoF.
  generalize (default [] (attachments (tangle s) !! transactionID)) as l.
  intros l.
  assert (∀ acc,
             gof.rank acc ≤ gof.rank (foldl (maxAttachmentStep st) acc l)
             ∧ (∀ messageID md, messageID ∈ l → messageMetadata st !! messageID = Some md →
                                gof.rank (mGradeOfFinality md)
                                ≤ gof.rank (foldl (maxAttachmentStep st) acc l))
             ∧ (foldl (maxAttachmentStep st) acc l = acc
                ∨ ∃ messageID md, messageID ∈ l ∧ messageMetadata st !! messageID = Some md
                                  ∧ mGradeOfFinality md
                                    = foldl (maxAttachmentStep st) acc l)) as Hfold.
  { induction l as [|x l IH]; intros acc; cbn [foldl].
    { split; [lia|]. split; [|by left]. intros ? ? Hin. by apply elem_of_nil in Hin. }
    destruct (IH (maxAttachmentStep st acc x)) as (Hge & Hall & Hex).
    assert (gof.rank acc ≤ gof.rank (maxAttachmentStep st acc x)) as Hacc.
    { unfold maxAttachmentStep. destruct (messageMetadata st !! x) as [md|]; [|lia].
      destruct (gof.ltb _ _) eqn:E; [apply ltb_true in E|]; lia. }
    assert (∀ md, messageMetadata st !! x = Some md →
                  gof.rank (mGradeOfFinality md)
                  ≤ gof.rank (maxAttachmentStep st acc x)) as Hx.
    { intros md Hmd. unfold maxAttachmentStep. rewrite Hmd.
      destruct (gof.ltb _ _) eqn:E; [lia|]. by apply ltb_false in E. }
    split; [lia|]. split.
    - intros messageID md Hin Hmd. apply elem_of_cons in Hin as [->|Hin].
      + specialize (Hx md Hmd). lia.
      + by apply (Hall messageID md).
    - destruct Hex as [Heq|(messageID & md & Hin & Hmd & Heq)].
      + rewrite Heq. unfold maxAttachmentStep.
        destruct (messageMetadata st !! x) as [md|] eqn:Hmd; [|by left].
        destruct (gof.ltb _ _); [|by left].
        right. exists x, md. split; [set_solver|done].
      + right. exists messageID, md. split; [set_solver|done]. }
  destruct (Hfold gof.None) as (_ & Hall & Hex). done.
Qed.

(** C6: a transaction taken from the worklist of [HandleBranch] whose greatest
    attachment grade is below the candidate is not raised: the step returns
    the storage and the worklist it was given and an empty log (no metadata
    of the transaction or of its outputs is written, no consumer is pushed,
    no event is emitted), and the loop goes on with the rest of the worklist
    as it was. *)
Theorem forwardPropagate_attachment_cap (s : SimpleFinalityGadget) (st : Storage)
    (candidateTxID : TransactionID) (branchID : BranchID)
    (newGradeOfFinality : gof.GradeOfFinality) (w : walker.Walker) (fuel : nat) :
  gof.rank (maxAttachmentGoF s st candidateTxID) < gof.rank newGradeOfFinality →
  forwardPropagateBranchGoFToTxs s st candidateTxID branchID newGradeOfFinality w
    = (st, w, [])
  ∧ propagateBranch s (S fuel) branchID newGradeOfFinality (candidateTxID :: w) st
    = propagateBranch s fuel branchID newGradeOfFinality w st.
Proof.
  intros Hcap. apply ltb_true in Hcap.
  assert (forwardPropagateBranchGoFToTxs s st candidateTxID branchID newGradeOfFinality w
          = (st, w, [])) as Hstep.
  { unfold forwardPropagateBranchGoFToTxs.
    destruct (transactionMetadata st !! candidateTxID) as [md|]; [|done].
    destruct (negb _); [done|]. by rewrite Hcap. }
  split; [done|].
  cbn [propagateBranch]. rewrite Hstep.
  by destruct (propagateBranch _ _ _ _ _ _) as [[st2 w2] log2].
Qed.

Lemma forwardPropagate_attachment_cap_witness :
  forwardPropagateBranchGoFToTxs conflictGadget mediumMessages 5 5 gof.High []
  = (mediumMessages, [], [])
  ∧ propagateBranch conflictGadget 1 5 gof.High [5] mediumMessages
    = propagateBranch conflictGadget 0 5 gof.High [] mediumMessages.
Proof.
  apply (forwardPropagate_attachment_cap conflictGadget mediumMessages 5 5 gof.High [] 0).
  vm_compute. lia.
Defined.

(** C7: a transaction taken from the worklist of [HandleBranch] whose recorded
    branch is not the branch being propagated is left as it is, whatever led
    to it: the step returns the storage and the worklist it was given and an
    empty log, and the loop goes on with the rest of the worklist. *)
Theorem forwardPropagate_other_branch (s : SimpleFinalityGadget) (st : Storage)
    (candidateTxID : TransactionID) (md : TransactionMetadata) (branchID : BranchID)
    (newGradeOfFinality : gof.GradeOfFinality) (w : walker.Walker) (fuel : nat) :
  transactionMetadata st !! candidateTxID = Some md →
  tBranchID md ≠ branchID →
  forwardPropagateBranchGoFToTxs s st candidateTxID branchID newGradeOfFinality w
    = (st, w, [])
  ∧ propagateBranch s (S fuel) branchID newGradeOfFinality (candidateTxID :: w) st
    = propagateBranch s fuel branchID newGradeOfFinality w st.
Proof.
  intros Hmd Hne.
  assert (forwardPropagateBranchGoFToTxs s st candidateTxID branchID newGradeOfFinality w
          = (st, w, [])) as Hstep.
  { unfold forwardPropagateBranchGoFToTxs. rewrite Hmd.
    by rewrite bool_decide_eq_false_2. }
  split; [done|].
  cbn [propagateBranch]. rewrite Hstep.
  by destruct (propagateBranch _ _ _ _ _ _) as [[st2 w2] log2].
Qed.

Lemma forwardPropagate_other_branch_witness :
  forwardPropagateBranchGoFToTxs cascadeGadget cascadeStorage 6 5 gof.High [5]
  = (cascadeStorage, [5], [])
  ∧ propagateBranch cascadeGadget 3 5 gof.High [6; 5] cascadeStorage
    = propagateBranch cascadeGadget 2 5 gof.High [5] cascadeStorage.
Proof.
  apply (forwardPropagate_other_branch cascadeGadget cascadeStorage 6
           (mkTransactionMetadata gof.None 7) 5 gof.High [5] 2);
    [reflexivity | discriminate].
Defined.

(** ** The order on stored grades *)

#[global] Instance message_le_preorder : PreOrder message_le.
Proof. split; unfold message_le; [intros ?|intros ???]; lia. Qed.
#[global] Instance transaction_le_preorder : PreOrder transaction_le.
Proof. split; unfold transaction_le; [intros ?|intros ???]; lia. Qed.
#[global] Instance output_le_preorder : PreOrder output_le.
Proof. split; unfold output_le; [intros ?|intros ???]; lia. Qed.

Section Raised.

Context `{Countable K} {A : Type} (R : relation A) `{!PreOrder R}.

Lemma raised_refl (m : gmap K A) : raised R m m.
Proof. intros k. reflexivity. Qed.

Lemma raised_trans (m1 m2 m3 : gmap K A) :
  raised R m1 m2 → raised R m2 m3 → raised R m1 m3.
Proof. intros H12 H23 k. transitivity (m2 !! k); [apply H12 | apply H23]. Qed.

Lemma raised_insert (m : gmap K A) k a b :
  m !! k = Some a → R a b → raised R m (<[k := b]> m).
Proof.
  intros Hk Hab k'. destruct (decide (k = k')) as [<-|Hne].
  - rewrite Hk, lookup_insert_eq. by constructor.
  - rewrite lookup_insert_ne by done. reflexivity.
Qed.

Lemma raised_lookup (m m' : gmap K A) k a :
  raised R m m' → m !! k = Some a → ∃ b, m' !! k = Some b ∧ R a b.
Proof. intros Hr Hk. specialize (Hr k). rewrite Hk in Hr. inversion Hr. eauto. Qed.

Lemma raised_lookup_inv (m m' : gmap K A) k b :
  raised R m m' → m' !! k = Some b → ∃ a, m !! k = Some a ∧ R a b.
Proof. intros Hr Hk. specialize (Hr k). rewrite Hk in Hr. inversion Hr. eauto. Qed.

End Raised.

Lemma replay_app (st st1 st2 : Storage) (log1 log2 : list Effect) :
  replay st log1 = Some st1 → replay st1 log2 = Some st2 →
  replay st (log1 ++ log2) = Some st2.
Proof.
  revert st. induction log1 as [|e log1 IH]; intros st; cbn.
  - by intros [= ->].
  - destruct e as [ev|x old new]; [apply IH|].
    destruct (decide _); [apply IH|done].
Qed.

Lemma replay_events (st : Storage) (evs : list Effect) :
  Forall (λ e, ∃ ev, e = Trigger ev) evs → replay st evs = Some st.
Proof. induction 1 as [|e evs [ev ->] _ IH]; cbn; done. Qed.

Lemma Step_refl (P : BranchID → Prop) (t : Tangle) (st : Storage) : Step P t st st [].
Proof.
  split; [apply raised_refl, _ | apply raised_refl, _ | constructor | done |].
  intros _ Hinv. split; [done|]. split; [apply raised_refl, _ | constructor].
Qed.

Lemma justified_mono (P : BranchID → Prop) (st0 st1 st2 st3 : Storage) (e : Effect) :
  raised message_le (messageMetadata st0) (messageMetadata st1) →
  raised transaction_le (transactionMetadata st0) (transactionMetadata st1) →
  raised message_le (messageMetadata st2) (messageMetadata st3) →
  raised transaction_le (transactionMetadata st2) (transactionMetadata st3) →
  justified P st1 st2 e → justified P st0 st3 e.
Proof.
  intros Hm01 Ht01 Hm23 Ht23.
  destruct e as [[id|id|id]|]; cbn; [| |done..].
  - intros (a & b & Ha & Hb & Hlt).
    destruct (raised_lookup_inv _ _ _ _ _ Hm01 Ha) as (a0 & Ha0 & Hle0).
    destruct (raised_lookup _ _ _ _ _ Hm23 Hb) as (b3 & Hb3 & Hle3).
    exists a0, b3. unfold message_le in *. repeat split; [done..|lia].
  - intros (a & b & Ha & Hb & Hlt).
    destruct (raised_lookup_inv _ _ _ _ _ Ht01 Ha) as (a0 & Ha0 & Hle0).
    destruct (raised_lookup _ _ _ _ _ Ht23 Hb) as (b3 & Hb3 & Hle3).
    exists a0, b3. unfold transaction_le in *. repeat split; [done..|lia].
Qed.

Lemma Step_trans (P : BranchID → Prop) (t : Tangle) (st0 st1 st2 : Storage)
    (log1 log2 : list Effect) :
  Step P t st0 st1 log1 → Step P t st1 st2 log2 → Step P t st0 st2 (log1 ++ log2).
Proof.
  intros [Hm1 Ht1 He1 Hr1 Ho1] [Hm2 Ht2 He2 Hr2 Ho2]. split.
  - exact (raised_trans _ _ _ _ Hm1 Hm2).
  - exact (raised_trans _ _ _ _ Ht1 Ht2).
  - apply Forall_app. split.
    + eapply Forall_impl; [exact He1|]. intros e.
      apply justified_mono; [apply raised_refl, _ | apply raised_refl, _ | done..].
    + eapply Forall_impl; [exact He2|]. intros e.
      apply justified_mono; [done | done | apply raised_refl, _ | apply raised_refl, _].
  - by eapply replay_app.
  - intros Hwf Hinv.
    destruct (Ho1 Hwf Hinv) as (Hinv1 & Hra1 & Hn1).
    destruct (Ho2 Hwf Hinv1) as (Hinv2 & Hra2 & Hn2).
    split; [done|]. split; [exact (raised_trans _ _ _ _ Hra1 Hra2)|].
    apply Forall_app. done.
Qed.

(** ** What the steps of the gadget do to the storage *)

Section Steps.

Variable s : SimpleFinalityGadget.
Variable P : BranchID → Prop.

(** The grades written by [setOutputsGoF]: the listed outputs that are
    stored get the grade, nothing else changes, and the log holds one write
    per stored output, with the grade it replaced. *)
Lemma setOutputsGoF_spec (outs : list OutputID) (g : gof.GradeOfFinality) (st : Storage) :
  messageMetadata (setOutputsGoF st outs g).1 = messageMetadata st
  ∧ transactionMetadata (setOutputsGoF st outs g).1 = transactionMetadata st
  ∧ (∀ o, outputMetadata (setOutputsGoF st outs g).1 !! o
          = if decide (o ∈ outs)
            then (λ _, mkOutputMetadata g) <$> outputMetadata st !! o
            else outputMetadata st !! o)
  ∧ Forall (λ e, ∃ o old, e = Write (OfOutput o) old g ∧ o ∈ outs
                   ∧ (old = g ∨ oGradeOfFinality <$> outputMetadata st !! o = Some old))
           (setOutputsGoF st outs g).2.
Proof.
  revert st. induction outs as [|o outs IH]; intros st.
  { cbn. split; [done|]. split; [done|]. split; [|constructor].
    intros o. by rewrite decide_False by set_solver. }
  cbn [setOutputsGoF]. unfold setOutputGoF.
  destruct (outputMetadata st !! o) as [md|] eqn:Ho.
  - set (st1 := storeOutputMetadata st o (OutputMetadata_SetGradeOfFinality md g)).
    destruct (IH st1) as (Hm & Ht & Hout & Hlog).
    destruct (setOutputsGoF st1 outs g) as [st2 log2]. cbn in *.
    split; [done|]. split; [done|]. split.
    + intros o'. rewrite Hout.
      destruct (decide (o' = o)) as [->|Hne].
      * rewrite (decide_True (P := o ∈ o :: outs)) by set_solver.
        rewrite lookup_insert_eq, Ho. by destruct (decide (o ∈ outs)).
      * rewrite lookup_insert_ne by done.
        destruct (decide (o' ∈ outs)).
        -- by rewrite decide_True by set_solver.
        -- by rewrite decide_False by set_solver.
    + constructor.
      * exists o, (oGradeOfFinality md). rewrite Ho. split; [done|]. split; [set_solver|auto].
      * eapply Forall_impl; [exact Hlog|]. cbn.
        intros e (o' & old & -> & Hin & Hold). exists o', old.
        split; [done|]. split; [set_solver|].
        destruct Hold as [->|Hold]; [auto|].
        destruct (decide (o' = o)) as [->|Hne].
        -- rewrite lookup_insert_eq in Hold. left. by injection Hold.
        -- rewrite lookup_insert_ne in Hold by done. auto.
  - destruct (IH st) as (Hm & Ht & Hout & Hlog).
    destruct (setOutputsGoF st outs g) as [st2 log2]. cbn in *.
    split; [done|]. split; [done|]. split.
    + intros o'. rewrite Hout.
      destruct (decide (o' = o)) as [->|Hne].
      * rewrite (decide_True (P := o ∈ o :: outs)) by set_solver.
        rewrite Ho. by destruct (decide (o ∈ outs)).
      * destruct (decide (o' ∈ outs)).
        -- by rewrite decide_True by set_solver.
        -- by rewrite decide_False by set_solver.
    + eapply Forall_impl; [exact Hlog|]. cbn.
      intros e (o' & old & -> & Hin & Hold). exists o', old.
      split; [done|]. split; [set_solver|done].
Qed.

Lemma setOutputsGoF_replay (outs : list OutputID) (g : gof.GradeOfFinality) (st : Storage) :
  replay st (setOutputsGoF st outs g).2 = Some (setOutputsGoF st outs g).1.
Proof.
  revert st. induction outs as [|o outs IH]; intros st; [done|].
  cbn [setOutputsGoF]. unfold setOutputGoF.
  destruct (outputMetadata st !! o) as [md|] eqn:Ho.
  - set (st1 := storeOutputMetadata st o (OutputMetadata_SetGradeOfFinality md g)).
    specialize (IH st1).
    destruct (setOutputsGoF st1 outs g) as [st2 log2]. cbn [fst snd app replay] in *.
    rewrite decide_True by (cbn; by rewrite Ho).
    cbn [setGrade]. by rewrite Ho.
  - specialize (IH st).
    by destruct (setOutputsGoF st outs g) as [st2 log2].
Qed.

(** [adjustOutputsGoF] writes what [setOutputsGoF] writes; it pushes
    consumers besides. *)
Lemma adjustOutputsGoF_set (outs : list OutputID) (g : gof.GradeOfFinality)
    (st : Storage) (c : gset TransactionID) (w : walker.Walker) :
  (adjustOutputsGoF s st outs g c w).1.1.1 = (setOutputsGoF st outs g).1
  ∧ (adjustOutputsGoF s st outs g c w).2 = (setOutputsGoF st outs g).2.
Proof.
  revert st c w. induction outs as [|o outs IH]; intros st c w; [done|].
  cbn [adjustOutputsGoF setOutputsGoF]. unfold adjustOutputGoF, setOutputGoF.
  destruct (outputMetadata st !! o) as [md|].
  - destruct (pushConsumers _ _ _) as [c1 w1].
    set (st1 := storeOutputMetadata st o (OutputMetadata_SetGradeOfFinality md g)).
    destruct (IH st1 c1 w1) as [Hst Hlog].
    destruct (adjustOutputsGoF s st1 outs g c1 w1) as [[[st2 c2] w2] log2].
    destruct (setOutputsGoF st1 outs g) as [st2' log2']. cbn in *. by subst.
  - destruct (IH st c w) as [Hst Hlog].
    destruct (adjustOutputsGoF s st outs g c w) as [[[st2 c2] w2] log2].
    destruct (setOutputsGoF st outs g) as [st2' log2']. cbn in *. by subst.
Qed.

(** Raising a transaction and then writing the new grade to its outputs is
    a step: this is what [setPayloadGoF] and
    [forwardPropagateBranchGoFToTxs] do once the setter reports a change. *)
Lemma raise_transaction_step (st : Storage) (transactionID : TransactionID)
    (md : TransactionMetadata) (g : gof.GradeOfFinality) (outs : list OutputID)
    (evs : list Effect) :
  transactionMetadata st !! transactionID = Some md →
  gof.rank (tGradeOfFinality md) < gof.rank g →
  (outputsOwned (tangle s) → Forall (λ o, oTransactionID o = transactionID) outs) →
  Forall (λ e, e = Trigger (TransactionConfirmed transactionID)) evs →
  Step P (tangle s) st
    (setOutputsGoF
       (storeTransactionMetadata st transactionID (mkTransactionMetadata g (tBranchID md)))
       outs g).1
    (Write (OfTransaction transactionID) (tGradeOfFinality md) g
     :: (setOutputsGoF
           (storeTransactionMetadata st transactionID
              (mkTransactionMetadata g (tBranchID md)))
           outs g).2
     ++ evs).
Proof.
  intros Hmd Hlt Hown Hevs.
  set (st1 := storeTransactionMetadata st transactionID _).
  destruct (setOutputsGoF_spec outs g st1) as (Hm & Ht & Hout & Hlog).
  pose proof (setOutputsGoF_replay outs g st1) as Hreplay.
  destruct (setOutputsGoF st1 outs g) as [st2 log2]. cbn [fst snd] in *.
  assert (transactionMetadata st2 !! transactionID
          = Some (mkTransactionMetadata g (tBranchID md))) as Hnew.
  { rewrite Ht. apply lookup_insert_eq. }
  split.
  - rewrite Hm. apply raised_refl, _.
  - rewrite Ht. eapply raised_insert; [apply _ | done |]. unfold transaction_le. cbn. lia.
  - constructor; [done|]. apply Forall_app. split.
    + eapply Forall_impl; [exact Hlog|]. by intros e (o & old & -> & _).
    + eapply Forall_impl; [exact Hevs|]. intros e ->. cbn. eauto.
  - cbn [replay]. rewrite decide_True by (cbn; by rewrite Hmd).
    cbn [setGrade]. rewrite Hmd. fold st1.
    eapply replay_app; [exact Hreplay|]. apply replay_events.
    eapply Forall_impl; [exact Hevs|]. intros e ->. eauto.
  - intros Hwf Hinv. specialize (Hown Hwf).
    assert (∀ o omd, o ∈ outs → outputMetadata st !! o = Some omd →
                     gof.rank (oGradeOfFinality omd) < gof.rank g) as Hbelow.
    { intros o omd Hin Ho. rewrite Forall_forall in Hown.
      pose proof (Hinv o omd Ho) as Hc. unfold outputBelowCreator in Hc.
      rewrite (Hown o Hin), Hmd in Hc. apply geb_true in Hc. lia. }
    split; [|split].
    + intros o omd Ho. unfold outputBelowCreator. rewrite Hout in Ho. rewrite Ht.
      destruct (decide (oTransactionID o = transactionID)) as [Heq|Hne].
      * rewrite Heq. cbn. rewrite lookup_insert_eq. apply geb_true. cbn.
        destruct (decide (o ∈ outs)) as [Hin|Hnin].
        -- destruct (outputMetadata st1 !! o); [|done]. by injection Ho as <-.
        -- pose proof (Hinv o omd Ho) as Hc. unfold outputBelowCreator in Hc.
           rewrite Heq, Hmd in Hc. apply geb_true in Hc. lia.
      * cbn. rewrite lookup_insert_ne by done.
        destruct (decide (o ∈ outs)) as [Hin|Hnin].
        -- rewrite Forall_forall in Hown. by specialize (Hown o Hin).
        -- exact (Hinv o omd Ho).
    + intros o. rewrite Hout. destruct (decide (o ∈ outs)) as [Hin|Hnin]; [|reflexivity].
      cbn. destruct (outputMetadata st !! o) as [omd|] eqn:Ho; constructor.
      unfold output_le. cbn. specialize (Hbelow o omd Hin Ho). lia.
    + constructor; [cbn; lia|]. apply Forall_app. split.
      * eapply Forall_impl; [exact Hlog|]. intros e (o & old & -> & Hin & Hold). cbn.
        destruct Hold as [->|Hold]; [done|].
        cbn in Hold. destruct (outputMetadata st !! o) as [omd|] eqn:Ho; [|done].
        injection Hold as <-. specialize (Hbelow o omd Hin Ho). lia.
      * eapply Forall_impl; [exact Hevs|]. by intros e ->.
Qed.

Lemma outputsOwned_lookup (transactionID : TransactionID) (transaction : Transaction) :
  transactions (tangle s) !! transactionID = Some transaction →
  outputsOwned (tangle s) →
  Forall (λ o, oTransactionID o = transactionID) (Outputs transaction).
Proof. intros Htx Hwf. exact (Hwf _ _ Htx). Qed.

Lemma TransactionMetadata_SetGradeOfFinality_spec md g :
  (gof.rank (tGradeOfFinality md) < gof.rank g
   ∧ TransactionMetadata_SetGradeOfFinality md g
     = (mkTransactionMetadata g (tBranchID md), true))
  ∨ (gof.rank g ≤ gof.rank (tGradeOfFinality md)
     ∧ TransactionMetadata_SetGradeOfFinality md g = (md, false)).
Proof.
  unfold TransactionMetadata_SetGradeOfFinality.
  destruct (gof.ltb _ _) eqn:E; [left | right]; split; try done.
  - by apply ltb_true. - by apply ltb_false.
Qed.

Lemma MessageMetadata_SetGradeOfFinality_spec md g :
  (gof.rank (mGradeOfFinality md) < gof.rank g
   ∧ MessageMetadata_SetGradeOfFinality md g
     = (mkMessageMetadata g (IsPastMarker md), true))
  ∨ (gof.rank g ≤ gof.rank (mGradeOfFinality md)
     ∧ MessageMetadata_SetGradeOfFinality md g = (md, false)).
Proof.
  unfold MessageMetadata_SetGradeOfFinality.
  destruct (gof.ltb _ _) eqn:E; [left | right]; split; try done.
  - by apply ltb_true. - by apply ltb_false.
Qed.

Lemma setPayloadGoF_messages (st : Storage) (messageID : MessageID)
    (g : gof.GradeOfFinality) :
  messageMetadata (setPayloadGoF s st messageID g).1 = messageMetadata st.
Proof.
  unfold setPayloadGoF.
  destruct (messages (tangle s) !! messageID) as [message|]; [|done].
  destruct (payload message) as [transactionID|]; [|done].
  destruct (transactionMetadata st !! transactionID) as [md|]; [|done].
  destruct (TransactionMetadata_SetGradeOfFinality _ _) as [md' modified].
  destruct modified; [|done]. cbn [negb].
  destruct (transactions (tangle s) !! transactionID) as [transaction|]; [|done].
  set (st1 := storeTransactionMetadata st transactionID md').
  destruct (setOutputsGoF_spec (Outputs transaction)
              (if TransactionConflicting (tangle s) transactionID
               then BranchTransFunc (opts s) (NewBranchID transactionID)
                      (WeightOfBranch (tangle s) (NewBranchID transactionID))
               else g) st1) as (Hm & _).
  by destruct (setOutputsGoF st1 _ _) as [st2 log2].
Qed.

Lemma setPayloadGoF_step (st : Storage) (messageID : MessageID) (g : gof.GradeOfFinality) :
  Step P (tangle s) st (setPayloadGoF s st messageID g).1 (setPayloadGoF s st messageID g).2.
Proof.
  unfold setPayloadGoF.
  destruct (messages (tangle s) !! messageID) as [message|]; [|apply Step_refl].
  destruct (payload message) as [transactionID|]; [|apply Step_refl].
  destruct (transactionMetadata st !! transactionID) as [md|] eqn:Hmd; [|apply Step_refl].
  set (g' := if TransactionConflicting (tangle s) transactionID then _ else g).
  destruct (TransactionMetadata_SetGradeOfFinality_spec md g') as [[Hlt ->]|[Hle ->]];
    [|apply Step_refl].
  cbn [negb].
  set (evs := if gof.geb g' _ then _ else _).
  assert (Forall (λ e, e = Trigger (TransactionConfirmed transactionID)) evs) as Hevs.
  { subst evs. destruct (gof.geb _ _); repeat constructor. }
  destruct (transactions (tangle s) !! transactionID) as [transaction|] eqn:Htx.
  - pose proof (raise_transaction_step st transactionID md g' (Outputs transaction) evs
                  Hmd Hlt (outputsOwned_lookup _ _ Htx) Hevs) as Hstep.
    by destruct (setOutputsGoF _ _ _) as [st2 log2].
  - exact (raise_transaction_step st transactionID md g' [] evs
             Hmd Hlt (λ _, Forall_nil_2 _) Hevs).
Qed.

(** The write of a raised message alone. *)
Lemma raise_message_step (st : Storage) (messageID : MessageID) (md : MessageMetadata)
    (g : gof.GradeOfFinality) :
  messageMetadata st !! messageID = Some md →
  gof.rank (mGradeOfFinality md) < gof.rank g →
  Step P (tangle s) st
       (storeMessageMetadata st messageID (mkMessageMetadata g (IsPastMarker md)))
       [Write (OfMessage messageID) (mGradeOfFinality md) g].
Proof.
  intros Hmd Hlt. split.
  - eapply raised_insert; [apply _ | done |]. unfold message_le. cbn. lia.
  - apply raised_refl, _.
  - by repeat constructor.
  - cbn [replay]. rewrite decide_True by (cbn; by rewrite Hmd).
    cbn [setGrade]. by rewrite Hmd.
  - intros _ Hinv. split; [done|]. split; [apply raised_refl, _|].
    repeat constructor. cbn. lia.
Qed.

Lemma setMessageGoF_step (st : Storage) (messageID : MessageID) (md : MessageMetadata)
    (g : gof.GradeOfFinality) :
  messageMetadata st !! messageID = Some md →
  Step P (tangle s) st (setMessageGoF s st messageID md g).1.1
       (setMessageGoF s st messageID md g).2.
Proof.
  intros Hmd. unfold setMessageGoF.
  destruct (MessageMetadata_SetGradeOfFinality_spec md g) as [[Hlt ->]|[Hle ->]];
    [|apply Step_refl].
  cbn [negb].
  pose proof (raise_message_step st messageID md g Hmd Hlt) as Hraise.
  set (st1 := storeMessageMetadata st messageID _) in *.
  pose proof (setPayloadGoF_step st1 messageID g) as Hpay.
  destruct (setPayloadGoF s st1 messageID g) as [st2 log2]. cbn [fst snd] in *.
  pose proof (Step_trans _ _ _ _ _ _ _ Hraise Hpay) as Hboth.
  replace (Write (OfMessage messageID) (mGradeOfFinality md) g :: log2 ++ _)
    with (([Write (OfMessage messageID) (mGradeOfFinality md) g] ++ log2)
          ++ (if gof.geb g (MessageGoFReachedLevel (opts s))
              then [Trigger (MessageConfirmed messageID)] else []))
    by done.
  destruct Hboth as [Hm Ht He Hr Ho]. split; [done | done | | |].
  - apply Forall_app. split; [done|].
    destruct (gof.geb _ _); repeat constructor. cbn.
    destruct (raised_lookup _ _ _ messageID (mkMessageMetadata g (IsPastMarker md))
                (step_messages _ _ _ _ _ Hpay)) as (b & Hb & Hle).
    { apply lookup_insert_eq. }
    exists md, b. unfold message_le in Hle. cbn in Hle. repeat split; [done..|lia].
  - eapply replay_app; [done|]. apply replay_events.
    destruct (gof.geb _ _); repeat constructor. eauto.
  - intros Hwf Hinv. destruct (Ho Hwf Hinv) as (Hinv' & Hra & Hn).
    split; [done|]. split; [done|]. apply Forall_app. split; [done|].
    destruct (gof.geb _ _); repeat constructor.
Qed.

Lemma propagateGoF_step (g : gof.GradeOfFinality) (st : Storage) (messageID : MessageID)
    (message : Message) (md : MessageMetadata) (w : walker.Walker) :
  messageMetadata st !! messageID = Some md →
  Step P (tangle s) st (propagateGoF s g st messageID message md w).1.1
       (propagateGoF s g st messageID message md w).2.
Proof.
  intros Hmd. unfold propagateGoF.
  destruct (_ && _); [apply Step_refl|].
  pose proof (setMessageGoF_step st messageID md g Hmd) as Hset.
  destruct (setMessageGoF s st messageID md g) as [[st1 modified] log1].
  by destruct modified.
Qed.

Lemma WalkMessageAndMetadata_step (fuel : nat) (g : gof.GradeOfFinality)
    (w : walker.Walker) (st : Storage) :
  Step P (tangle s) st (WalkMessageAndMetadata s fuel g w st).1.1
       (WalkMessageAndMetadata s fuel g w st).2.
Proof.
  revert w st. induction fuel as [|fuel IH]; intros w st; [apply Step_refl|].
  cbn [WalkMessageAndMetadata].
  destruct w as [|messageID w]; [apply Step_refl|].
  assert (∃ st1 w1 log1,
             match messages (tangle s) !! messageID, messageMetadata st !! messageID with
             | Some message, Some md => propagateGoF s g st messageID message md w
             | _, _ => (st, w, [])
             end = (st1, w1, log1) ∧ Step P (tangle s) st st1 log1)
    as (st1 & w1 & log1 & -> & Hstep).
  { destruct (messages (tangle s) !! messageID) as [message|];
      [|eexists _, _, _; split; [done | apply Step_refl]].
    destruct (messageMetadata st !! messageID) as [md|] eqn:Hmd;
      [|eexists _, _, _; split; [done | apply Step_refl]].
    pose proof (propagateGoF_step g st messageID message md w Hmd) as Hstep.
    destruct (propagateGoF s g st messageID message md w) as [[st1 w1] log1].
    eauto 6. }
  specialize (IH w1 st1).
  destruct (WalkMessageAndMetadata s fuel g w1 st1) as [[st2 w2] log2].
  by eapply Step_trans.
Qed.

Lemma HandleMarker_step (st : Storage) (marker : Marker) (aw : Q) :
  Step P (tangle s) st (HandleMarker s st marker aw).1.1 (HandleMarker s st marker aw).1.2.
Proof.
  unfold HandleMarker.
  destruct (gof.eqb _ _); [apply Step_refl|].
  destruct (negb _); [apply Step_refl|].
  pose proof (WalkMessageAndMetadata_step
                (S (markerPotential s (MessageTransFunc (opts s) aw) st))
                (MessageTransFunc (opts s) aw)
                [MarkersManager_MessageID (tangle s) marker] st) as Hwalk.
  by destruct (WalkMessageAndMetadata _ _ _ _ _) as [[st1 w1] log1].
Qed.

Lemma forwardPropagateBranchGoFToTxs_step (st : Storage) (candidateTxID : TransactionID)
    (branchID : BranchID) (g : gof.GradeOfFinality) (w : walker.Walker) :
  Step P (tangle s) st
       (forwardPropagateBranchGoFToTxs s st candidateTxID branchID g w).1.1
       (forwardPropagateBranchGoFToTxs s st candidateTxID branchID g w).2.
Proof.
  unfold forwardPropagateBranchGoFToTxs.
  destruct (transactionMetadata st !! candidateTxID) as [md|] eqn:Hmd; [|apply Step_refl].
  destruct (negb _); [apply Step_refl|].
  destruct (gof.ltb (maxAttachmentGoF _ _ _) _); [apply Step_refl|].
  destruct (TransactionMetadata_SetGradeOfFinality_spec md g) as [[Hlt ->]|[Hle ->]];
    [|apply Step_refl].
  cbn [negb tGradeOfFinality].
  set (evs := if gof.geb g _ then _ else _).
  assert (Forall (λ e, e = Trigger (TransactionConfirmed candidateTxID)) evs) as Hevs.
  { subst evs. destruct (gof.geb _ _); repeat constructor. }
  destruct (transactions (tangle s) !! candidateTxID) as [transaction|] eqn:Htx.
  - pose proof (raise_transaction_step st candidateTxID md g (Outputs transaction) evs
                  Hmd Hlt (outputsOwned_lookup _ _ Htx) Hevs) as Hstep.
    destruct (adjustOutputsGoF_set (Outputs transaction) g
                (storeTransactionMetadata st candidateTxID
                   (mkTransactionMetadata g (tBranchID md))) ∅ w) as [Hst Hlog].
    destruct (adjustOutputsGoF _ _ _ _ _ _) as [[[st2 c2] w2] log2].
    cbn [fst snd] in *. by subst.
  - exact (raise_transaction_step st candidateTxID md g [] evs
             Hmd Hlt (λ _, Forall_nil_2 _) Hevs).
Qed.

Lemma propagateBranch_step (fuel : nat) (branchID : BranchID) (g : gof.GradeOfFinality)
    (w : walker.Walker) (st : Storage) :
  Step P (tangle s) st (propagateBranch s fuel branchID g w st).1.1
       (propagateBranch s fuel branchID g w st).2.
Proof.
  revert w st. induction fuel as [|fuel IH]; intros w st; [apply Step_refl|].
  cbn [propagateBranch].
  destruct w as [|candidateTxID w]; [apply Step_refl|].
  pose proof (forwardPropagateBranchGoFToTxs_step st candidateTxID branchID g w) as Hstep.
  destruct (forwardPropagateBranchGoFToTxs s st candidateTxID branchID g w)
    as [[st1 w1] log1].
  specialize (IH w1 st1).
  destruct (propagateBranch s fuel branchID g w1 st1) as [[st2 w2] log2].
  by eapply Step_trans.
Qed.

Lemma Step_events (st st' : Storage) (log evs : list Effect) :
  Step P (tangle s) st st' log →
  Forall (λ e, ∃ branchID, e = Trigger (BranchConfirmed branchID) ∧ P branchID) evs →
  Step P (tangle s) st st' (log ++ evs).
Proof.
  intros [Hm Ht He Hr Ho] Hevs. split; [done | done | | |].
  - apply Forall_app. split; [done|].
    eapply Forall_impl; [exact Hevs|]. by intros e (b & -> & Hb).
  - eapply replay_app; [done|]. apply replay_events.
    eapply Forall_impl; [exact Hevs|]. intros e (b & -> & _). eauto.
  - intros Hwf Hinv. destruct (Ho Hwf Hinv) as (Hinv' & Hra & Hn).
    split; [done|]. split; [done|]. apply Forall_app. split; [done|].
    eapply Forall_impl; [exact Hevs|]. by intros e (b & -> & Hb).
Qed.

Lemma HandleBranch_step (st : Storage) (branchID : BranchID) (aw : Q) :
  (gof.rank (BranchGoFReachedLevel (opts s))
     ≤ gof.rank (BranchTransFunc (opts s) branchID aw) → P branchID) →
  Step P (tangle s) st (HandleBranch s st branchID aw).1.1 (HandleBranch s st branchID aw).1.2.
Proof.
  intros HP. unfold HandleBranch.
  pose proof (propagateBranch_step
                (S (branchPotential s (BranchTransFunc (opts s) branchID aw) st))
                branchID (BranchTransFunc (opts s) branchID aw)
                (walker.Push (BranchID_TransactionID branchID) walker.New) st) as Hloop.
  destruct (propagateBranch _ _ _ _ _ _) as [[st1 w1] log1]. cbn [fst snd] in *.
  apply Step_events; [done|].
  destruct (gof.geb _ _) eqn:Hge; repeat constructor.
  exists branchID. split; [done|]. by apply HP, geb_true.
Qed.

End Steps.

(** ** Calls and sequences of calls *)

Lemma call_step (s : SimpleFinalityGadget) (st : Storage) (c : Call) :
  Step (ownBranch s c) (tangle s) st (call s st c).1.1 (call s st c).1.2.
Proof.
  destruct c as [marker aw | branchID aw]; cbn [call].
  - apply HandleMarker_step.
  - apply HandleBranch_step. intros Hle. by exists aw.
Qed.

Lemma Step_weaken (P P' : BranchID → Prop) (t : Tangle) (st st' : Storage)
    (log : list Effect) :
  (∀ b, P b → P' b) → Step P t st st' log → Step P' t st st' log.
Proof.
  intros HP [Hm Ht He Hr Ho]. split; [done | done | | done | done].
  eapply Forall_impl; [exact He|]. intros [[id|id|b]|]; cbn; auto.
Qed.

Lemma run_step (s : SimpleFinalityGadget) (cs : list Call) (st : Storage) :
  Step (λ _, True) (tangle s) st (run s st cs).1 (run s st cs).2.
Proof.
  revert st. induction cs as [|c cs IH]; intros st; [apply Step_refl|].
  cbn [run].
  pose proof (call_step s st c) as Hcall.
  destruct (call s st c) as [[st1 log1] err1]. cbn [fst snd] in *.
  specialize (IH st1). destruct (run s st1 cs) as [st2 log2]. cbn [fst snd] in *.
  eapply Step_trans; [|exact IH]. by eapply Step_weaken.
Qed.

(** Messages and transactions never go down, whatever the storage at the
    start. *)
Lemma messages_and_transactions_never_decrease (s : SimpleFinalityGadget) (st : Storage)
    (cs : list Call) :
  raised message_le (messageMetadata st) (messageMetadata (run s st cs).1)
  ∧ raised transaction_le (transactionMetadata st) (transactionMetadata (run s st cs).1).
Proof. by destruct (run_step s cs st) as [Hm Ht _ _ _]. Qed.

(** A storage whose outputs are all at None, as after booking, satisfies the
    invariant of the outputs. *)
Lemma outputsBelowCreator_fresh (st : Storage) :
  map_Forall (λ _ omd, oGradeOfFinality omd = gof.None) (outputMetadata st) →
  outputsBelowCreator st.
Proof.
  intros Hfresh o omd Ho. unfold outputBelowCreator. rewrite (Hfresh o omd Ho).
  by destruct (transactionMetadata st !! oTransactionID o).
Qed.

(** C2: along any sequence of [HandleMarker] and [HandleBranch] calls, started
    in a storage where no output is above the transaction that created it
    (and the outputs a transaction lists are its own), the log is the exact
    sequence of the writes done (each replaces the grade it says it replaces,
    and the writes lead from the storage at the start to the one at the end),
    every write stores a grade at least the one it replaces, the grade of
    every message, transaction and output at the end is at least the one at
    the start, and the storage at the end is again one where no output is
    above its transaction, so that the same holds for the calls that
    follow. *)
Theorem gof_never_decreases (s : SimpleFinalityGadget) (st : Storage) (cs : list Call) :
  outputsOwned (tangle s) →
  outputsBelowCreator st →
  replay st (run s st cs).2 = Some (run s st cs).1
  ∧ Forall nondecreasing (run s st cs).2
  ∧ raised message_le (messageMetadata st) (messageMetadata (run s st cs).1)
  ∧ raised transaction_le (transactionMetadata st) (transactionMetadata (run s st cs).1)
  ∧ raised output_le (outputMetadata st) (outputMetadata (run s st cs).1)
  ∧ outputsBelowCreator (run s st cs).1.
Proof.
  intros Hwf Hinv. destruct (run_step s cs st) as [Hm Ht _ Hreplay Ho].
  destruct (Ho Hwf Hinv) as (Hinv' & Hr & Hn). done.
Qed.

Lemma cascade_outputsOwned : outputsOwned (tangle cascadeGadget).
Proof. unfold outputsOwned. apply (bool_decide_unpack _). vm_compute. exact I. Defined.

Lemma cascade_outputsBelowCreator : outputsBelowCreator cascadeStorage.
Proof. unfold outputsBelowCreator. apply (bool_decide_unpack _). vm_compute. exact I. Defined.

Lemma gof_never_decreases_witness :
  replay cascadeStorage (run cascadeGadget cascadeStorage cascadeCalls).2
  = Some (run cascadeGadget cascadeStorage cascadeCalls).1
  ∧ Forall nondecreasing (run cascadeGadget cascadeStorage cascadeCalls).2
  ∧ raised message_le (messageMetadata cascadeStorage)
      (messageMetadata (run cascadeGadget cascadeStorage cascadeCalls).1)
  ∧ raised transaction_le (transactionMetadata cascadeStorage)
      (transactionMetadata (run cascadeGadget cascadeStorage cascadeCalls).1)
  ∧ raised output_le (outputMetadata cascadeStorage)
      (outputMetadata (run cascadeGadget cascadeStorage cascadeCalls).1)
  ∧ outputsBelowCreator (run cascadeGadget cascadeStorage cascadeCalls).1.
Proof.
  exact (gof_never_decreases cascadeGadget cascadeStorage cascadeCalls
           cascade_outputsOwned cascade_outputsBelowCreator).
Defined.

(** ** Writes and events of one call, counted *)

Lemma countOf_app f x (l1 l2 : list Effect) :
  countOf f x (l1 ++ l2) = countOf f x l1 + countOf f x l2.
Proof. induction l1 as [|e l1 IH]; cbn; [done|]. rewrite IH. lia. Qed.

Lemma occurrences_app e (l1 l2 : list Effect) :
  occurrences e (l1 ++ l2) = occurrences e l1 + occurrences e l2.
Proof. induction l1 as [|e' l1 IH]; cbn; [done|]. rewrite IH. lia. Qed.

Lemma countOf_zero f x (log : list Effect) :
  Forall (λ e, f e ≠ Some x) log → countOf f x log = 0.
Proof.
  induction 1 as [|e log He _ IH]; cbn; [done|]. by rewrite decide_False, IH.
Qed.

Lemma occurrences_zero e (log : list Effect) : e ∉ log → occurrences e log = 0.
Proof.
  induction log as [|e' log IH]; cbn; [done|]. intros Hnin.
  rewrite decide_False by set_solver. rewrite IH; [done|set_solver].
Qed.

Lemma occurrences_message (messageID : MessageID) (log : list Effect) :
  occurrences (Trigger (MessageConfirmed messageID)) log
  = countOf eventOf (OfMessage messageID) log.
Proof.
  induction log as [|e log IH]; cbn; [done|]. rewrite IH. f_equal.
  destruct e as [[id|id|b]|x old new]; cbn; repeat case_decide; congruence.
Qed.

Lemma occurrences_transaction (transactionID : TransactionID) (log : list Effect) :
  occurrences (Trigger (TransactionConfirmed transactionID)) log
  = countOf eventOf (OfTransaction transactionID) log.
Proof.
  induction log as [|e log IH]; cbn; [done|]. rewrite IH. f_equal.
  destruct e as [[id|id|b]|x old new]; cbn; repeat case_decide; congruence.
Qed.

Lemma Once_refl cand (st : Storage) : Once cand st st [].
Proof. intros x _. cbn. split; [lia|]. split; lia. Qed.

Lemma gradeOf_raised (st st' : Storage) (x : Entity) (a : gof.GradeOfFinality) :
  raised message_le (messageMetadata st) (messageMetadata st') →
  raised transaction_le (transactionMetadata st) (transactionMetadata st') →
  tracked x → gradeOf st x = Some a →
  ∃ b, gradeOf st' x = Some b ∧ gof.rank a ≤ gof.rank b.
Proof.
  intros Hm Ht Hx Ha. destruct x as [id|id|o]; [| |done]; cbn in *.
  - destruct (messageMetadata st !! id) as [md|] eqn:Hmd; [|done].
    destruct (raised_lookup _ _ _ _ _ Hm Hmd) as (md' & -> & Hle).
    injection Ha as <-. by exists (mGradeOfFinality md').
  - destruct (transactionMetadata st !! id) as [md|] eqn:Hmd; [|done].
    destruct (raised_lookup _ _ _ _ _ Ht Hmd) as (md' & -> & Hle).
    injection Ha as <-. by exists (tGradeOfFinality md').
Qed.

Lemma gradeOf_raised_inv (st st' : Storage) (x : Entity) (b : gof.GradeOfFinality) :
  raised message_le (messageMetadata st) (messageMetadata st') →
  raised transaction_le (transactionMetadata st) (transactionMetadata st') →
  tracked x → gradeOf st' x = Some b →
  ∃ a, gradeOf st x = Some a ∧ gof.rank a ≤ gof.rank b.
Proof.
  intros Hm Ht Hx Hb. destruct x as [id|id|o]; [| |done]; cbn in *.
  - destruct (messageMetadata st' !! id) as [md'|] eqn:Hmd; [|done].
    destruct (raised_lookup_inv _ _ _ _ _ Hm Hmd) as (md & -> & Hle).
    injection Hb as <-. by exists (mGradeOfFinality md).
  - destruct (transactionMetadata st' !! id) as [md'|] eqn:Hmd; [|done].
    destruct (raised_lookup_inv _ _ _ _ _ Ht Hmd) as (md & -> & Hle).
    injection Hb as <-. by exists (tGradeOfFinality md).
Qed.

Lemma Once_trans cand P t (st0 st1 st2 : Storage) (log1 log2 : list Effect) :
  Step P t st0 st1 log1 → Step P t st1 st2 log2 →
  Once cand st0 st1 log1 → Once cand st1 st2 log2 →
  Once cand st0 st2 (log1 ++ log2).
Proof.
  intros [Hm1 Ht1 _ _ _] [Hm2 Ht2 _ _ _] H1 H2 x Hx.
  destruct (H1 x Hx) as (He1 & Hw1 & Hg1). destruct (H2 x Hx) as (He2 & Hw2 & Hg2).
  rewrite !countOf_app.
  destruct (decide (0 < countOf writeOf x log1)) as [Hpos1|Hzero1];
    destruct (decide (0 < countOf writeOf x log2)) as [Hpos2|Hzero2].
  - destruct (Hg1 Hpos1) as (a & b & _ & Hb & _ & Hge).
    destruct (Hg2 Hpos2) as (a' & b' & Ha' & _ & Hlt & _).
    rewrite Hb in Ha'. injection Ha' as <-. lia.
  - split; [lia|]. split; [lia|]. intros _.
    destruct (Hg1 Hpos1) as (a & b & Ha & Hb & Hlt & Hge).
    destruct (gradeOf_raised _ _ _ _ Hm2 Ht2 Hx Hb) as (b' & Hb' & Hle).
    exists a, b'. repeat split; first [done | lia].
  - split; [lia|]. split; [lia|]. intros _.
    destruct (Hg2 Hpos2) as (a & b & Ha & Hb & Hlt & Hge).
    destruct (gradeOf_raised_inv _ _ _ _ Hm1 Ht1 Hx Ha) as (a' & Ha' & Hle).
    exists a', b. repeat split; first [done | lia].
  - split; [lia|]. split; [lia|]. intros Hpos. lia.
Qed.

(** Events added at the end of a log, as many as the writes leave room for. *)
Lemma Once_events cand (st st' : Storage) (log evs : list Effect) :
  Once cand st st' log →
  Forall (λ e, writeOf e = None) evs →
  (∀ x, tracked x →
        countOf eventOf x log + countOf eventOf x evs ≤ countOf writeOf x log) →
  Once cand st st' (log ++ evs).
Proof.
  intros Hlog Hevs Hroom x Hx. destruct (Hlog x Hx) as (He & Hw & Hg).
  rewrite !countOf_app.
  assert (countOf writeOf x evs = 0) as ->.
  { apply countOf_zero. eapply Forall_impl; [exact Hevs|]. by intros e ->. }
  specialize (Hroom x Hx). rewrite Nat.add_0_r. split; [lia|]. split; [lia|done].
Qed.

Section OnceSteps.

Variable s : SimpleFinalityGadget.

Lemma raise_transaction_once (cand : Entity → gof.GradeOfFinality) (st : Storage)
    (transactionID : TransactionID) (md : TransactionMetadata) (g : gof.GradeOfFinality)
    (outs : list OutputID) (evs : list Effect) :
  transactionMetadata st !! transactionID = Some md →
  gof.rank (tGradeOfFinality md) < gof.rank g →
  cand (OfTransaction transactionID) = g →
  Forall (λ e, e = Trigger (TransactionConfirmed transactionID)) evs →
  length evs ≤ 1 →
  Once cand st
    (setOutputsGoF
       (storeTransactionMetadata st transactionID (mkTransactionMetadata g (tBranchID md)))
       outs g).1
    (Write (OfTransaction transactionID) (tGradeOfFinality md) g
     :: (setOutputsGoF
           (storeTransactionMetadata st transactionID
              (mkTransactionMetadata g (tBranchID md)))
           outs g).2
     ++ evs).
Proof.
  intros Hmd Hlt Hcand Hevs Hlen x Hx.
  set (st1 := storeTransactionMetadata st transactionID _).
  destruct (setOutputsGoF_spec outs g st1) as (Hm & Ht & Hout & Hlog).
  destruct (setOutputsGoF st1 outs g) as [st2 log2]. cbn [fst snd] in *.
  assert (countOf writeOf x log2 = 0) as Hw2.
  { apply countOf_zero. eapply Forall_impl; [exact Hlog|].
    intros e (o & old & -> & _). cbn. intros [= <-]. done. }
  assert (countOf eventOf x log2 = 0) as He2.
  { apply countOf_zero. eapply Forall_impl; [exact Hlog|].
    by intros e (o & old & -> & _). }
  assert (countOf writeOf x evs = 0) as Hw3.
  { apply countOf_zero. eapply Forall_impl; [exact Hevs|]. by intros e ->. }
  assert (countOf eventOf x evs
          ≤ if decide (x = OfTransaction transactionID) then 1 else 0) as He3.
  { destruct evs as [|e [|e' evs]]; [cbn; lia | | cbn in Hlen; lia].
    apply Forall_cons in Hevs as [-> _]. cbn.
    repeat case_decide; try lia; congruence. }
  cbn [countOf writeOf eventOf]. rewrite !countOf_app, Hw2, He2, Hw3.
  rewrite (decide_False (P := None = Some x)) by done.
  destruct (decide (x = OfTransaction transactionID)) as [->|Hne].
  - rewrite decide_True by done. split; [lia|]. split; [lia|]. intros _.
    exists (tGradeOfFinality md), g. cbn [gradeOf]. rewrite Hmd, Ht. subst st1.
    cbn [transactionMetadata storeTransactionMetadata]. rewrite lookup_insert_eq, Hcand.
    cbn. repeat split; first [done | lia].
  - rewrite decide_False by congruence. split; [lia|]. split; [lia|]. lia.
Qed.

Lemma setPayloadGoF_once (st : Storage) (messageID : MessageID) (g : gof.GradeOfFinality) :
  Once (markerCandidate s g) st (setPayloadGoF s st messageID g).1
       (setPayloadGoF s st messageID g).2.
Proof.
  unfold setPayloadGoF.
  destruct (messages (tangle s) !! messageID) as [message|]; [|apply Once_refl].
  destruct (payload message) as [transactionID|]; [|apply Once_refl].
  destruct (transactionMetadata st !! transactionID) as [md|] eqn:Hmd; [|apply Once_refl].
  set (g' := if TransactionConflicting (tangle s) transactionID then _ else g).
  destruct (TransactionMetadata_SetGradeOfFinality_spec md g') as [[Hlt ->]|[Hle ->]];
    [|apply Once_refl].
  cbn [negb].
  set (evs := if gof.geb g' _ then _ else _).
  assert (Forall (λ e, e = Trigger (TransactionConfirmed transactionID)) evs
          ∧ length evs ≤ 1) as [Hevs Hlen].
  { subst evs. destruct (gof.geb _ _); cbn; split; repeat constructor. }
  destruct (transactions (tangle s) !! transactionID) as [transaction|] eqn:Htx.
  - pose proof (raise_transaction_once (markerCandidate s g) st transactionID md g'
                  (Outputs transaction) evs Hmd Hlt eq_refl Hevs Hlen) as Honce.
    by destruct (setOutputsGoF _ _ _) as [st2 log2].
  - exact (raise_transaction_once (markerCandidate s g) st transactionID md g' [] evs
             Hmd Hlt eq_refl Hevs Hlen).
Qed.

(** [setPayloadGoF] emits no confirmation of a message. *)
Lemma setPayloadGoF_no_message_event (st : Storage) (messageID : MessageID)
    (g : gof.GradeOfFinality) (x : MessageID) :
  countOf eventOf (OfMessage x) (setPayloadGoF s st messageID g).2 = 0.
Proof.
  apply countOf_zero.
  pose proof (step_events _ _ _ _ _ (setPayloadGoF_step s (λ _, False) st messageID g)) as He.
  pose proof (setPayloadGoF_messages s st messageID g) as Hm.
  eapply Forall_impl; [exact He|].
  intros [[id|id|b]|y old new]; cbn; try done.
  intros (a & b & Ha & Hb & Hlt) [= ->]. rewrite Hm, Ha in Hb. injection Hb as <-. lia.
Qed.

Lemma setMessageGoF_once (st : Storage) (messageID : MessageID) (md : MessageMetadata)
    (g : gof.GradeOfFinality) :
  messageMetadata st !! messageID = Some md →
  Once (markerCandidate s g) st (setMessageGoF s st messageID md g).1.1
       (setMessageGoF s st messageID md g).2.
Proof.
  intros Hmd. unfold setMessageGoF.
  destruct (MessageMetadata_SetGradeOfFinality_spec md g) as [[Hlt ->]|[Hle ->]];
    [|apply Once_refl].
  cbn [negb].
  set (st1 := storeMessageMetadata st messageID _).
  pose proof (setPayloadGoF_step s (λ _, False) st1 messageID g) as Hpay.
  pose proof (setPayloadGoF_once st1 messageID g) as Honce.
  pose proof (setPayloadGoF_no_message_event st1 messageID g messageID) as Hnone.
  destruct (setPayloadGoF s st1 messageID g) as [st2 log2]. cbn [fst snd] in *.
  pose proof (raise_message_step s (λ _, False) st messageID md g Hmd Hlt) as Hraise.
  fold st1 in Hraise.
  assert (Once (markerCandidate s g) st st1
               [Write (OfMessage messageID) (mGradeOfFinality md) g]) as Hraise1.
  { intros x Hx. cbn [countOf writeOf eventOf].
    rewrite (decide_False (P := None = Some x)) by done.
    destruct (decide (Some (OfMessage messageID) = Some x)) as [[= <-]|Hne].
    - split; [lia|]. split; [lia|]. intros _.
      exists (mGradeOfFinality md), g. cbn. rewrite Hmd, lookup_insert_eq.
      repeat split; first [done | lia].
    - split; [lia|]. split; lia. }
  pose proof (Once_trans _ _ _ _ _ _ _ _ Hraise Hpay Hraise1 Honce) as Hboth.
  replace (Write (OfMessage messageID) (mGradeOfFinality md) g :: log2 ++ _)
    with (([Write (OfMessage messageID) (mGradeOfFinality md) g] ++ log2)
          ++ (if gof.geb g (MessageGoFReachedLevel (opts s))
              then [Trigger (MessageConfirmed messageID)] else []))
    by done.
  apply Once_events; [done | by destruct (gof.geb _ _); repeat constructor |].
  intros x Hx. destruct (Hboth x Hx) as (He & _).
  destruct (decide (x = OfMessage messageID)) as [->|Hne].
  - rewrite !countOf_app, Hnone. cbn [countOf writeOf eventOf].
    rewrite (decide_False (P := None = Some _)) by done.
    rewrite (decide_True (P := Some (OfMessage messageID) = Some _)) by done.
    destruct (gof.geb _ _); cbn; [rewrite decide_True by done|]; lia.
  - assert (countOf eventOf x
              (if gof.geb g (MessageGoFReachedLevel (opts s))
               then [Trigger (MessageConfirmed messageID)] else []) = 0) as ->; [|lia].
    destruct (gof.geb _ _); cbn; [|done]. rewrite decide_False by congruence. done.
Qed.

Lemma propagateGoF_once (g : gof.GradeOfFinality) (st : Storage) (messageID : MessageID)
    (message : Message) (md : MessageMetadata) (w : walker.Walker) :
  messageMetadata st !! messageID = Some md →
  Once (markerCandidate s g) st (propagateGoF s g st messageID message md w).1.1
       (propagateGoF s g st messageID message md w).2.
Proof.
  intros Hmd. unfold propagateGoF.
  destruct (_ && _); [apply Once_refl|].
  pose proof (setMessageGoF_once st messageID md g Hmd) as Hset.
  destruct (setMessageGoF s st messageID md g) as [[st1 modified] log1].
  by destruct modified.
Qed.

Lemma WalkMessageAndMetadata_once (fuel : nat) (g : gof.GradeOfFinality)
    (w : walker.Walker) (st : Storage) :
  Once (markerCandidate s g) st (WalkMessageAndMetadata s fuel g w st).1.1
       (WalkMessageAndMetadata s fuel g w st).2.
Proof.
  revert w st. induction fuel as [|fuel IH]; intros w st; [apply Once_refl|].
  cbn [WalkMessageAndMetadata].
  destruct w as [|messageID w]; [apply Once_refl|].
  assert (∃ st1 w1 log1,
             match messages (tangle s) !! messageID, messageMetadata st !! messageID with
             | Some message, Some md => propagateGoF s g st messageID message md w
             | _, _ => (st, w, [])
             end = (st1, w1, log1)
             ∧ Step (λ _, False) (tangle s) st st1 log1
             ∧ Once (markerCandidate s g) st st1 log1)
    as (st1 & w1 & log1 & -> & Hstep & Honce).
  { destruct (messages (tangle s) !! messageID) as [message|];
      [|eexists _, _, _; split; [done | split; [apply Step_refl | apply Once_refl]]].
    destruct (messageMetadata st !! messageID) as [md|] eqn:Hmd;
      [|eexists _, _, _; split; [done | split; [apply Step_refl | apply Once_refl]]].
    pose proof (propagateGoF_step s (λ _, False) g st messageID message md w Hmd) as Hstep.
    pose proof (propagateGoF_once g st messageID message md w Hmd) as Honce.
    destruct (propagateGoF s g st messageID message md w) as [[st1 w1] log1].
    eauto 8. }
  pose proof (WalkMessageAndMetadata_step s (λ _, False) fuel g w1 st1) as Hrest.
  specialize (IH w1 st1).
  destruct (WalkMessageAndMetadata s fuel g w1 st1) as [[st2 w2] log2].
  by eapply Once_trans.
Qed.

Lemma HandleMarker_once (st : Storage) (marker : Marker) (aw : Q) :
  Once (markerCandidate s (MessageTransFunc (opts s) aw)) st
       (HandleMarker s st marker aw).1.1 (HandleMarker s st marker aw).1.2.
Proof.
  unfold HandleMarker.
  destruct (gof.eqb _ _); [apply Once_refl|].
  destruct (negb _); [apply Once_refl|].
  pose proof (WalkMessageAndMetadata_once
                (S (markerPotential s (MessageTransFunc (opts s) aw) st))
                (MessageTransFunc (opts s) aw)
                [MarkersManager_MessageID (tangle s) marker] st) as Hwalk.
  by destruct (WalkMessageAndMetadata _ _ _ _ _) as [[st1 w1] log1].
Qed.

Lemma forwardPropagateBranchGoFToTxs_once (st : Storage) (candidateTxID : TransactionID)
    (branchID : BranchID) (g : gof.GradeOfFinality) (w : walker.Walker) :
  Once (λ _, g) st
       (forwardPropagateBranchGoFToTxs s st candidateTxID branchID g w).1.1
       (forwardPropagateBranchGoFToTxs s st candidateTxID branchID g w).2.
Proof.
  unfold forwardPropagateBranchGoFToTxs.
  destruct (transactionMetadata st !! candidateTxID) as [md|] eqn:Hmd; [|apply Once_refl].
  destruct (negb _); [apply Once_refl|].
  destruct (gof.ltb (maxAttachmentGoF _ _ _) _); [apply Once_refl|].
  destruct (TransactionMetadata_SetGradeOfFinality_spec md g) as [[Hlt ->]|[Hle ->]];
    [|apply Once_refl].
  cbn [negb tGradeOfFinality].
  set (evs := if gof.geb g _ then _ else _).
  assert (Forall (λ e, e = Trigger (TransactionConfirmed candidateTxID)) evs
          ∧ length evs ≤ 1) as [Hevs Hlen].
  { subst evs. destruct (gof.geb _ _); cbn; split; repeat constructor. }
  destruct (transactions (tangle s) !! candidateTxID) as [transaction|] eqn:Htx.
  - pose proof (raise_transaction_once (λ _, g) st candidateTxID md g (Outputs transaction)
                  evs Hmd Hlt eq_refl Hevs Hlen) as Honce.
    destruct (adjustOutputsGoF_set s (Outputs transaction) g
                (storeTransactionMetadata st candidateTxID
                   (mkTransactionMetadata g (tBranchID md))) ∅ w) as [Hst Hlog].
    destruct (adjustOutputsGoF _ _ _ _ _ _) as [[[st2 c2] w2] log2].
    cbn [fst snd] in *. by subst.
  - exact (raise_transaction_once (λ _, g) st candidateTxID md g [] evs
             Hmd Hlt eq_refl Hevs Hlen).
Qed.

Lemma propagateBranch_once (fuel : nat) (branchID : BranchID) (g : gof.GradeOfFinality)
    (w : walker.Walker) (st : Storage) :
  Once (λ _, g) st (propagateBranch s fuel branchID g w st).1.1
       (propagateBranch s fuel branchID g w st).2.
Proof.
  revert w st. induction fuel as [|fuel IH]; intros w st; [apply Once_refl|].
  cbn [propagateBranch].
  destruct w as [|candidateTxID w]; [apply Once_refl|].
  pose proof (forwardPropagateBranchGoFToTxs_step s (λ _, False) st candidateTxID
                branchID g w) as Hstep.
  pose proof (forwardPropagateBranchGoFToTxs_once st candidateTxID branchID g w) as Honce.
  destruct (forwardPropagateBranchGoFToTxs s st candidateTxID branchID g w)
    as [[st1 w1] log1].
  pose proof (propagateBranch_step s (λ _, False) fuel branchID g w1 st1) as Hrest.
  specialize (IH w1 st1).
  destruct (propagateBranch s fuel branchID g w1 st1) as [[st2 w2] log2].
  by eapply Once_trans.
Qed.

(** The log of the loop of [HandleBranch] holds no [BranchConfirmed]; the one
    event of that kind is added after it. *)
Lemma propagateBranch_no_branch_event (fuel : nat) (branchID : BranchID)
    (g : gof.GradeOfFinality) (w : walker.Walker) (st : Storage) (b : BranchID) :
  occurrences (Trigger (BranchConfirmed b)) (propagateBranch s fuel branchID g w st).2 = 0.
Proof.
  apply occurrences_zero. intros Hin.
  pose proof (step_events _ _ _ _ _
                (propagateBranch_step s (λ _, False) fuel branchID g w st)) as He.
  rewrite Forall_forall in He. exact (He _ Hin).
Qed.

Lemma HandleBranch_once (st : Storage) (branchID : BranchID) (aw : Q) :
  Once (λ _, BranchTransFunc (opts s) branchID aw) st
       (HandleBranch s st branchID aw).1.1 (HandleBranch s st branchID aw).1.2
  ∧ ∀ b, occurrences (Trigger (BranchConfirmed b)) (HandleBranch s st branchID aw).1.2 ≤ 1.
Proof.
  unfold HandleBranch.
  set (g := BranchTransFunc (opts s) branchID aw).
  set (w := walker.Push _ _).
  pose proof (propagateBranch_once (S (branchPotential s g st)) branchID g w st) as Hloop.
  pose proof (propagateBranch_no_branch_event (S (branchPotential s g st)) branchID g w st)
    as Hnone.
  destruct (propagateBranch _ _ _ _ _ _) as [[st1 w1] log1]. cbn [fst snd] in *.
  split.
  - apply Once_events; [done | by destruct (gof.geb _ _); repeat constructor |].
    intros x Hx. destruct (Hloop x Hx) as (He & _).
    assert (countOf eventOf x
              (if gof.geb g (BranchGoFReachedLevel (opts s))
               then [Trigger (BranchConfirmed branchID)] else []) = 0) as ->; [|lia].
    by destruct (gof.geb _ _).
  - intros b. rewrite occurrences_app, Hnone.
    destruct (gof.geb _ _); cbn; [case_decide|]; lia.
Qed.

Lemma HandleMarker_branch_events (st : Storage) (marker : Marker) (aw : Q) (b : BranchID) :
  occurrences (Trigger (BranchConfirmed b)) (HandleMarker s st marker aw).1.2 = 0.
Proof.
  apply occurrences_zero. intros Hin.
  pose proof (step_events _ _ _ _ _ (HandleMarker_step s (λ _, False) st marker aw)) as He.
  rewrite Forall_forall in He. exact (He _ Hin).
Qed.

End OnceSteps.

(** ** Confirmation events *)

Lemma HandleBranch_branch_event (s : SimpleFinalityGadget) (st : Storage)
    (branchID : BranchID) (aw : Q) :
  gof.rank (BranchGoFReachedLevel (opts s))
    ≤ gof.rank (BranchTransFunc (opts s) branchID aw) →
  Trigger (BranchConfirmed branchID) ∈ (HandleBranch s st branchID aw).1.2.
Proof.
  intros Hle. apply geb_true in Hle. unfold HandleBranch.
  destruct (propagateBranch _ _ _ _ _ _) as [[st1 w1] log1]. cbn [fst snd].
  rewrite Hle. set_solver.
Qed.

Lemma call_events_once (s : SimpleFinalityGadget) (st : Storage) (c : Call) (x : Entity) :
  tracked x → countOf eventOf x (call s st c).1.2 ≤ 1.
Proof.
  intros Hx. destruct c as [marker aw | branchID aw]; cbn [call].
  - destruct (HandleMarker_once s st marker aw x Hx) as (He & Hw & _). lia.
  - destruct (HandleBranch_once s st branchID aw) as [Honce _].
    destruct (Honce x Hx) as (He & Hw & _). lia.
Qed.

(** C3, as the code has it: a [MessageConfirmed] or [TransactionConfirmed]
    event is emitted by a call only for an entity whose stored grade is
    higher after the call than before it, and at most once in the call; so a
    call that does not raise an entity emits no such event for it.  A
    [BranchConfirmed] event is emitted, once, by every [HandleBranch] call
    whose candidate reaches the branch level, for the branch of the call and
    for no other, whether or not the call raised anything. *)
Theorem confirmation_events_follow_a_raise (s : SimpleFinalityGadget) (st : Storage)
    (c : Call) :
  (∀ messageID,
     (Trigger (MessageConfirmed messageID) ∈ (call s st c).1.2
      → raisedIn st (call s st c).1.1 (OfMessage messageID))
     ∧ occurrences (Trigger (MessageConfirmed messageID)) (call s st c).1.2 ≤ 1)
  ∧ (∀ transactionID,
       (Trigger (TransactionConfirmed transactionID) ∈ (call s st c).1.2
        → raisedIn st (call s st c).1.1 (OfTransaction transactionID))
       ∧ occurrences (Trigger (TransactionConfirmed transactionID)) (call s st c).1.2 ≤ 1)
  ∧ (∀ branchID,
       (Trigger (BranchConfirmed branchID) ∈ (call s st c).1.2 ↔ ownBranch s c branchID)
       ∧ occurrences (Trigger (BranchConfirmed branchID)) (call s st c).1.2 ≤ 1).
Proof.
  pose proof (step_events _ _ _ _ _ (call_step s st c)) as He.
  rewrite Forall_forall in He.
  split; [|split].
  - intros messageID. split; [intros Hin; exact (He _ Hin)|].
    rewrite occurrences_message. by apply call_events_once.
  - intros transactionID. split; [intros Hin; exact (He _ Hin)|].
    rewrite occurrences_transaction. by apply call_events_once.
  - intros branchID. split.
    + split; [intros Hin; exact (He _ Hin)|].
      intros (aw & -> & Hle). cbn [call]. by apply HandleBranch_branch_event.
    + destruct c as [marker aw | b aw]; cbn [call].
      * rewrite HandleMarker_branch_events. lia.
      * apply HandleBranch_once.
Qed.

(** C3, as stated, fails for branches: once the marker of message 10 has the
    weight 0.6, a first [HandleBranch] of branch 5 with the weight 0.6 raises
    the transaction 5 and its outputs and emits [TransactionConfirmed] and
    [BranchConfirmed]; a second one with the same weight writes nothing,
    leaves the storage as it is, and emits [BranchConfirmed] for the same
    branch again. *)
Lemma BranchConfirmed_again_counterexample :
  let st1 := (HandleMarker conflictGadget cascadeStorage (1, 1) (6 # 10)).1.1 in
  let st2 := (HandleBranch conflictGadget st1 5 (6 # 10)).1.1 in
  (HandleBranch conflictGadget st1 5 (6 # 10)).1.2
  = [ Write (OfTransaction 5) gof.None gof.High;
      Write (OfOutput (mkOutputID 5 0)) gof.None gof.High;
      Write (OfOutput (mkOutputID 5 1)) gof.None gof.High;
      Trigger (TransactionConfirmed 5);
      Trigger (BranchConfirmed 5) ]
  ∧ HandleBranch conflictGadget st2 5 (6 # 10) = (st2, [Trigger (BranchConfirmed 5)], None).
Proof. split; vm_compute; reflexivity. Qed.

(** ** A second call with the same weight *)

(** The first message the walk takes, when it is stored with a grade below
    the candidate, ends at least at the candidate. *)
Lemma WalkMessageAndMetadata_raises_root (s : SimpleFinalityGadget) (fuel : nat)
    (g : gof.GradeOfFinality) (st : Storage) (messageID : MessageID)
    (message : Message) (md : MessageMetadata) :
  messages (tangle s) !! messageID = Some message →
  messageMetadata st !! messageID = Some md →
  gof.rank (mGradeOfFinality md) < gof.rank g →
  ∃ b, messageMetadata (WalkMessageAndMetadata s (S fuel) g [messageID] st).1.1 !! messageID
       = Some b
       ∧ gof.rank g ≤ gof.rank (mGradeOfFinality b).
Proof.
  intros Hmsg Hmd Hlt. cbn [WalkMessageAndMetadata]. rewrite Hmsg, Hmd.
  unfold propagateGoF.
  assert (gof.geb (mGradeOfFinality md) g = false) as ->.
  { apply not_true_iff_false. rewrite geb_true. lia. }
  rewrite andb_false_r. unfold setMessageGoF.
  destruct (MessageMetadata_SetGradeOfFinality_spec md g) as [[_ ->]|[Hle _]]; [|lia].
  cbn [negb].
  set (st1 := storeMessageMetadata st messageID _).
  pose proof (setPayloadGoF_step s (λ _, False) st1 messageID g) as Hpay.
  destruct (setPayloadGoF s st1 messageID g) as [st2 log2]. cbn [fst snd negb] in *.
  set (w1 := walker.PushAll _ _).
  pose proof (WalkMessageAndMetadata_step s (λ _, False) fuel g w1 st2) as Hwalk.
  destruct (WalkMessageAndMetadata s fuel g w1 st2) as [[st3 w3] log3]. cbn [fst snd] in *.
  destruct (raised_lookup _ _ _ messageID (mkMessageMetadata g (IsPastMarker md))
              (step_messages _ _ _ _ _ Hpay)) as (b2 & Hb2 & Hle2).
  { apply lookup_insert_eq. }
  destruct (raised_lookup _ _ _ messageID b2 (step_messages _ _ _ _ _ Hwalk) Hb2)
    as (b3 & Hb3 & Hle3).
  exists b3. split; [done|]. unfold message_le in *. cbn in *. lia.
Qed.

(** C9: a second [HandleMarker] with the marker and the weight of a first one
    returns the storage the first one left, with an empty log (no event, no
    write) and no error; and any [HandleMarker] whose candidate is not above
    the grade stored for the message of the marker returns the storage it got,
    with an empty log and no error. *)
Theorem HandleMarker_idempotent (s : SimpleFinalityGadget) (st : Storage)
    (marker : Marker) (aw : Q) :
  HandleMarker s (HandleMarker s st marker aw).1.1 marker aw
  = ((HandleMarker s st marker aw).1.1, [], None)
  ∧ ∀ md, messageMetadata st !! MarkersManager_MessageID (tangle s) marker = Some md →
          gof.rank (MessageTransFunc (opts s) aw) ≤ gof.rank (mGradeOfFinality md) →
          HandleMarker s st marker aw = (st, [], None).
Proof.
  split; [|intros md Hmd Hle; apply HandleMarker_guard; eauto].
  assert (HandleMarker s st marker aw = (st, [], None) →
          HandleMarker s (HandleMarker s st marker aw).1.1 marker aw
          = ((HandleMarker s st marker aw).1.1, [], None)) as Hnoop.
  { intros Heq. by rewrite Heq. }
  destruct (messages (tangle s) !! MarkersManager_MessageID (tangle s) marker)
    as [message|] eqn:Hmsg; [|by apply Hnoop, HandleMarker_no_message].
  destruct (decide (MessageTransFunc (opts s) aw = gof.None)) as [HNone|HSome].
  { apply Hnoop, HandleMarker_guard. auto. }
  destruct (messageMetadata st !! MarkersManager_MessageID (tangle s) marker)
    as [md|] eqn:Hmd; [|apply Hnoop, HandleMarker_guard; auto].
  destruct (decide (gof.rank (MessageTransFunc (opts s) aw)
                    ≤ gof.rank (mGradeOfFinality md))) as [Hle|Hlt].
  { apply Hnoop, HandleMarker_guard. eauto. }
  clear Hnoop.
  apply HandleMarker_guard. right. right.
  destruct (WalkMessageAndMetadata_raises_root s
              (markerPotential s (MessageTransFunc (opts s) aw) st)
              (MessageTransFunc (opts s) aw) st _ message md Hmsg Hmd) as (b & Hb & Hge);
    [lia|].
  exists b. split; [|done].
  unfold HandleMarker.
  destruct (gof.eqb _ gof.None) eqn:Heqb; [by apply eqb_None_true in Heqb|].
  rewrite Hmd. rewrite (proj2 (ltb_true _ _)) by lia. cbn [negb].
  by destruct (WalkMessageAndMetadata _ _ _ _ _) as [[st1 w1] log1].
Qed.

(** ** A marker the index does not know *)

(** C5: [HandleMarker] does not test whether the marker resolves.  For a
    marker the index does not know, [MarkersManager.MessageID] gives the
    empty message identifier, which [IsMarkerConfirmed] tests for and
    [HandleMarker] does not: when a message and its metadata are stored
    under that identifier with a grade below the candidate, the call is not
    a no-op.  It raises that message to the candidate or above, logs the
    write, and emits [MessageConfirmed] for it when the candidate reaches the
    message level, while [IsMarkerConfirmed] answers false for the marker
    before and after. *)
Theorem HandleMarker_unknown_marker_raises (s : SimpleFinalityGadget) (st : Storage)
    (marker : Marker) (aw : Q) (message : Message) (md : MessageMetadata) :
  markerIndex (tangle s) !! marker = None →
  messages (tangle s) !! EmptyMessageID = Some message →
  messageMetadata st !! EmptyMessageID = Some md →
  gof.rank (mGradeOfFinality md) < gof.rank (MessageTransFunc (opts s) aw) →
  IsMarkerConfirmed s st marker = false
  ∧ IsMarkerConfirmed s (HandleMarker s st marker aw).1.1 marker = false
  ∧ (∃ b, messageMetadata (HandleMarker s st marker aw).1.1 !! EmptyMessageID = Some b
          ∧ gof.rank (MessageTransFunc (opts s) aw) ≤ gof.rank (mGradeOfFinality b))
  ∧ Write (OfMessage EmptyMessageID) (mGradeOfFinality md) (MessageTransFunc (opts s) aw)
    ∈ (HandleMarker s st marker aw).1.2
  ∧ (gof.rank (MessageGoFReachedLevel (opts s)) ≤ gof.rank (MessageTransFunc (opts s) aw) →
     Trigger (MessageConfirmed EmptyMessageID) ∈ (HandleMarker s st marker aw).1.2)
  ∧ HandleMarker s st marker aw ≠ (st, [], None).
Proof.
  set (g := MessageTransFunc (opts s) aw).
  intros Hidx Hmsg Hmd Hlt.
  assert (MarkersManager_MessageID (tangle s) marker = EmptyMessageID) as Hroot.
  { unfold MarkersManager_MessageID. by rewrite Hidx. }
  assert (∀ st', IsMarkerConfirmed s st' marker = false) as Hquery.
  { intros st'. unfold IsMarkerConfirmed. rewrite Hroot. by rewrite decide_True. }
  assert (gof.eqb g gof.None = false) as Heqb.
  { apply not_true_iff_false. rewrite eqb_None_true. intros Hg. rewrite Hg in Hlt.
    cbn in Hlt. lia. }
  assert (Write (OfMessage EmptyMessageID) (mGradeOfFinality md) g
            ∈ (HandleMarker s st marker aw).1.2
          ∧ (gof.rank (MessageGoFReachedLevel (opts s)) ≤ gof.rank g →
             Trigger (MessageConfirmed EmptyMessageID) ∈ (HandleMarker s st marker aw).1.2))
    as [Hwrite Hevent].
  { unfold HandleMarker. fold g. rewrite Heqb, Hroot, Hmd.
    rewrite (proj2 (ltb_true _ _)) by lia. cbn [negb WalkMessageAndMetadata].
    rewrite Hmsg, Hmd. unfold propagateGoF.
    assert (gof.geb (mGradeOfFinality md) g = false) as ->.
    { apply not_true_iff_false. rewrite geb_true. lia. }
    rewrite andb_false_r. unfold setMessageGoF.
    destruct (MessageMetadata_SetGradeOfFinality_spec md g) as [[_ ->]|[Hle _]]; [|lia].
    cbn [negb].
    destruct (setPayloadGoF s _ EmptyMessageID g) as [st2 log2]. cbn [negb].
    destruct (WalkMessageAndMetadata s _ g _ st2) as [[st3 w3] log3]. cbn [fst snd].
    split; [set_solver|].
    intros Hle. apply geb_true in Hle. rewrite Hle. set_solver. }
  split; [done|]. split; [done|]. split; [|split; [done|split; [done|]]].
  - destruct (WalkMessageAndMetadata_raises_root s (markerPotential s g st) g st
                EmptyMessageID message md Hmsg Hmd Hlt) as (b & Hb & Hge).
    exists b. split; [|done].
    unfold HandleMarker. fold g. rewrite Heqb, Hroot, Hmd.
    rewrite (proj2 (ltb_true _ _)) by lia. cbn [negb].
    by destruct (WalkMessageAndMetadata _ _ _ _ _) as [[st1 w1] log1].
  - intros Heq. rewrite Heq in Hwrite. cbn in Hwrite. set_solver.
Qed.

Lemma HandleMarker_unknown_marker_raises_witness :
  IsMarkerConfirmed genesisGadget genesisStorage (7, 7) = false
  ∧ IsMarkerConfirmed genesisGadget
      (HandleMarker genesisGadget genesisStorage (7, 7) (6 # 10)).1.1 (7, 7) = false
  ∧ (∃ b, messageMetadata (HandleMarker genesisGadget genesisStorage (7, 7) (6 # 10)).1.1
            !! EmptyMessageID = Some b
          ∧ gof.rank (MessageTransFunc (opts genesisGadget) (6 # 10))
            ≤ gof.rank (mGradeOfFinality b))
  ∧ Write (OfMessage EmptyMessageID) (mGradeOfFinality (mkMessageMetadata gof.None false))
          (MessageTransFunc (opts genesisGadget) (6 # 10))
    ∈ (HandleMarker genesisGadget genesisStorage (7, 7) (6 # 10)).1.2
  ∧ (gof.rank (MessageGoFReachedLevel (opts genesisGadget))
     ≤ gof.rank (MessageTransFunc (opts genesisGadget) (6 # 10)) →
     Trigger (MessageConfirmed EmptyMessageID)
       ∈ (HandleMarker genesisGadget genesisStorage (7, 7) (6 # 10)).1.2)
  ∧ HandleMarker genesisGadget genesisStorage (7, 7) (6 # 10)
    ≠ (genesisStorage, [], None).
Proof.
  apply (HandleMarker_unknown_marker_raises genesisGadget genesisStorage (7, 7) (6 # 10)
           (mkMessage [] None) (mkMessageMetadata gof.None false)).
  - reflexivity.
  - reflexivity.
  - reflexivity.
  - vm_compute. lia.
Defined.

(** With an empty marker index and the weight 0.6 for the marker (7, 7): the
    message stored under the empty identifier goes to High and is
    announced. *)
Example unknown_marker_run :
  HandleMarker genesisGadget genesisStorage (7, 7) (6 # 10)
  = (mkStorage {[ EmptyMessageID := mkMessageMetadata gof.High false ]} ∅ ∅,
     [ Write (OfMessage EmptyMessageID) gof.None gof.High;
       Trigger (MessageConfirmed EmptyMessageID) ],
     None).
Proof. vm_compute. reflexivity. Qed.

(** ** The payload of a message *)

(** C4: when the payload of a message is a stored conflicting transaction,
    [setPayloadGoF] applies to it the translation of the current weight of its
    branch: the result does not depend on the grade that comes from the
    message; if that translation is not above the stored grade of the
    transaction nothing is written and nothing is emitted; if it is above, the
    transaction gets it, every stored output of the transaction gets it, and
    [TransactionConfirmed] is emitted exactly when it reaches the branch
    level. *)
Theorem setPayloadGoF_conflicting (s : SimpleFinalityGadget) (st : Storage)
    (messageID : MessageID) (message : Message) (transactionID : TransactionID)
    (md : TransactionMetadata) (gradeOfFinality : gof.GradeOfFinality) :
  messages (tangle s) !! messageID = Some message →
  payload message = Some transactionID →
  transactionMetadata st !! transactionID = Some md →
  TransactionConflicting (tangle s) transactionID = true →
  let branchID := NewBranchID transactionID in
  let candidate := BranchTransFunc (opts s) branchID (WeightOfBranch (tangle s) branchID) in
  let result := setPayloadGoF s st messageID gradeOfFinality in
  (∀ g, setPayloadGoF s st messageID g = result)
  ∧ (gof.rank candidate ≤ gof.rank (tGradeOfFinality md) → result = (st, []))
  ∧ (gof.rank (tGradeOfFinality md) < gof.rank candidate →
     transactionMetadata result.1 !! transactionID
     = Some (mkTransactionMetadata candidate (tBranchID md))
     ∧ (∀ transaction o,
          transactions (tangle s) !! transactionID = Some transaction →
          o ∈ Outputs transaction →
          outputMetadata result.1 !! o
          = (λ _, mkOutputMetadata candidate) <$> outputMetadata st !! o)
     ∧ Write (OfTransaction transactionID) (tGradeOfFinality md) candidate ∈ result.2
     ∧ (Trigger (TransactionConfirmed transactionID) ∈ result.2
        ↔ gof.rank (BranchGoFReachedLevel (opts s)) ≤ gof.rank candidate)).
Proof.
  intros Hmsg Hpay Hmd Hconf branchID candidate result.
  subst result. unfold setPayloadGoF. rewrite Hmsg, Hpay, Hmd, Hconf.
  fold branchID. fold candidate.
  split; [done|].
  destruct (TransactionMetadata_SetGradeOfFinality_spec md candidate)
    as [[Hlt ->]|[Hle ->]]; cbn [negb].
  2: { split; [done|]. intros Hlt. lia. }
  split; [intros Hle; lia|]. intros _.
  set (st1 := storeTransactionMetadata st transactionID _).
  destruct (transactions (tangle s) !! transactionID) as [transaction|] eqn:Htx.
  - destruct (setOutputsGoF_spec (Outputs transaction) candidate st1)
      as (Hm & Ht & Hout & Hlog).
    destruct (setOutputsGoF st1 (Outputs transaction) candidate) as [st2 log2].
    cbn [fst snd] in *. split; [|split; [|split]].
    + rewrite Ht. apply lookup_insert_eq.
    + intros transaction' o [= <-] Hin. rewrite Hout. by rewrite decide_True.
    + set_solver.
    + rewrite <- geb_true. destruct (gof.geb _ _); split; try done; [set_solver|].
      rewrite app_nil_r. intros Hin. apply elem_of_cons in Hin as [Heq|Hin]; [done|].
      rewrite Forall_forall in Hlog. by destruct (Hlog _ Hin) as (o & old & Heq & _).
  - cbn [fst snd]. split; [|split; [|split]].
    + apply lookup_insert_eq.
    + by intros transaction' o [=].
    + set_solver.
    + rewrite <- geb_true. destruct (gof.geb _ _); split; try done; set_solver.
Qed.

Lemma setPayloadGoF_conflicting_witness :
  setPayloadGoF weightedGadget cascadeStorage 11 gof.High
  = setPayloadGoF weightedGadget cascadeStorage 11 gof.Low
  ∧ transactionMetadata (setPayloadGoF weightedGadget cascadeStorage 11 gof.Low).1 !! 5
    = Some (mkTransactionMetadata gof.High 5).
Proof.
  destruct (setPayloadGoF_conflicting weightedGadget cascadeStorage 11
              (mkMessage [] (Some 5)) 5 (mkTransactionMetadata gof.None 5) gof.Low
              eq_refl eq_refl eq_refl eq_refl) as (Hind & _ & Hraise).
  split; [apply Hind|]. apply Hraise. vm_compute. lia.
Defined.

(** ** The walks end *)

(** A sum over the entries of a map, and what the replacement of one entry
    does to it. *)
Lemma map_fold_sum_insert `{Countable K} {A} (f : K → A → nat) (m : gmap K A)
    (k : K) (a b : A) :
  m !! k = Some a →
  map_fold (λ k a acc, f k a + acc) 0 (<[k := b]> m) + f k a
  = map_fold (λ k a acc, f k a + acc) 0 m + f k b.
Proof.
  intros Hk.
  rewrite (map_fold_delete_L (λ k a acc, f k a + acc) 0 k a m); [|intros; lia|done].
  rewrite <- (insert_delete_eq m).
  rewrite (map_fold_insert_L (λ k a acc, f k a + acc) 0 k b (delete k m));
    [lia | intros; lia | apply lookup_delete_eq].
Qed.

Lemma Push_length (x : nat) (w : walker.Walker) :
  length (walker.Push x w) ≤ S (length w).
Proof. unfold walker.Push. destruct (decide _); [lia|]. rewrite length_app. cbn. lia. Qed.

Lemma Push_New (x : nat) : walker.Push x walker.New = [x].
Proof. unfold walker.Push, walker.New. by rewrite decide_False by set_solver. Qed.

Lemma PushAll_length (xs : list nat) (w : walker.Walker) :
  length (walker.PushAll xs w) ≤ length w + length xs.
Proof.
  revert w. induction xs as [|x xs IH]; intros w; cbn; [lia|].
  unfold walker.PushAll in IH. etrans; [apply IH|].
  pose proof (Push_length x w). lia.
Qed.

Lemma pushConsumers_length (cs : list TransactionID) (c : gset TransactionID)
    (w : walker.Walker) :
  length (pushConsumers cs c w).2 ≤ length w + length cs.
Proof.
  revert c w. induction cs as [|x cs IH]; intros c w; cbn; [lia|].
  destruct (decide _).
  - etrans; [apply IH|]. lia.
  - etrans; [apply IH|]. pose proof (Push_length x w). lia.
Qed.

Section Termination.

Variable s : SimpleFinalityGadget.

Lemma adjustOutputsGoF_length (outs : list OutputID) (g : gof.GradeOfFinality)
    (st : Storage) (c : gset TransactionID) (w : walker.Walker) :
  length (adjustOutputsGoF s st outs g c w).1.2
  ≤ length w
    + sum_list ((λ output, length (default [] (consumers (tangle s) !! output))) <$> outs).
Proof.
  revert st c w. induction outs as [|o outs IH]; intros st c w; cbn; [lia|].
  unfold adjustOutputGoF.
  destruct (outputMetadata st !! o) as [md|].
  - pose proof (pushConsumers_length (default [] (consumers (tangle s) !! o)) c w) as Hpush.
    destruct (pushConsumers _ c w) as [c1 w1].
    set (st1 := storeOutputMetadata st o _).
    specialize (IH st1 c1 w1).
    destruct (adjustOutputsGoF s st1 outs g c1 w1) as [[[st2 c2] w2] log2].
    cbn [fst snd] in *. lia.
  - specialize (IH st c w).
    destruct (adjustOutputsGoF s st outs g c w) as [[[st2 c2] w2] log2].
    cbn [fst snd] in *. lia.
Qed.

(** One step of the branch loop does not increase the length of the worklist
    plus the potential. *)
Lemma forwardPropagateBranchGoFToTxs_measure (st : Storage) (candidateTxID : TransactionID)
    (branchID : BranchID) (g : gof.GradeOfFinality) (w : walker.Walker) :
  length (forwardPropagateBranchGoFToTxs s st candidateTxID branchID g w).1.2
  + branchPotential s g (forwardPropagateBranchGoFToTxs s st candidateTxID branchID g w).1.1
  ≤ length w + branchPotential s g st.
Proof.
  unfold forwardPropagateBranchGoFToTxs.
  destruct (transactionMetadata st !! candidateTxID) as [md|] eqn:Hmd; [|done].
  destruct (negb _); [done|].
  destruct (gof.ltb (maxAttachmentGoF _ _ _) _); [done|].
  destruct (TransactionMetadata_SetGradeOfFinality_spec md g) as [[Hlt ->]|[Hle ->]];
    [|done].
  cbn [negb].
  set (st1 := storeTransactionMetadata st candidateTxID _).
  assert (branchPotential s g st1 + transactionCost s candidateTxID = branchPotential s g st)
    as Hpot.
  { unfold branchPotential.
    pose proof (map_fold_sum_insert
                  (λ transactionID md, if gof.ltb (tGradeOfFinality md) g
                                       then transactionCost s transactionID else 0)
                  (transactionMetadata st) candidateTxID md
                  (mkTransactionMetadata g (tBranchID md)) Hmd) as Hsum.
    cbv beta in Hsum. cbn [tGradeOfFinality] in Hsum.
    rewrite (proj2 (ltb_true _ _) Hlt) in Hsum.
    rewrite (proj2 (ltb_false g g)) in Hsum by lia.
    subst st1. cbn [transactionMetadata storeTransactionMetadata]. lia. }
  unfold transactionCost in Hpot.
  destruct (transactions (tangle s) !! candidateTxID) as [transaction|].
  - pose proof (adjustOutputsGoF_length (Outputs transaction) g st1 ∅ w) as Hlen.
    destruct (adjustOutputsGoF_set s (Outputs transaction) g st1 ∅ w) as [Hst _].
    destruct (setOutputsGoF_spec (Outputs transaction) g st1) as (_ & Ht & _).
    destruct (adjustOutputsGoF s st1 (Outputs transaction) g ∅ w) as [[[st2 c2] w2] log2].
    cbn [fst snd] in *.
    assert (branchPotential s g st2 = branchPotential s g st1) as ->.
    { unfold branchPotential. by rewrite Hst, Ht. }
    lia.
  - cbn [fst snd]. lia.
Qed.

(** With fuel for the worklist and the potential, the loop of [HandleBranch]
    ends with an empty worklist, and more fuel changes nothing. *)
Lemma propagateBranch_drains (branchID : BranchID) (g : gof.GradeOfFinality)
    (fuel : nat) (w : walker.Walker) (st : Storage) :
  length w + branchPotential s g st ≤ fuel →
  (propagateBranch s fuel branchID g w st).1.2 = []
  ∧ ∀ fuel', fuel ≤ fuel' →
             propagateBranch s fuel' branchID g w st = propagateBranch s fuel branchID g w st.
Proof.
  revert w st. induction fuel as [|fuel IH]; intros w st Hfuel.
  { destruct w; [|cbn in Hfuel; lia]. split; [done|].
    intros fuel' _. by rewrite propagateBranch_nil. }
  destruct w as [|candidateTxID w].
  { split; [done|]. intros fuel' _. by rewrite propagateBranch_nil. }
  cbn [propagateBranch].
  pose proof (forwardPropagateBranchGoFToTxs_measure st candidateTxID branchID g w) as Hstep.
  destruct (forwardPropagateBranchGoFToTxs s st candidateTxID branchID g w)
    as [[st1 w1] log1] eqn:Hfwd.
  cbn [fst snd length] in *.
  destruct (IH w1 st1) as [Hnil Hmore]; [lia|].
  split.
  - by destruct (propagateBranch s fuel branchID g w1 st1) as [[st2 w2] log2].
  - intros [|fuel'] Hle; [lia|]. cbn [propagateBranch]. rewrite Hfwd.
    rewrite (Hmore fuel') by lia. done.
Qed.

(** One step of the marker walk does not increase the length of the worklist
    plus the potential. *)
Lemma propagateGoF_measure (g : gof.GradeOfFinality) (st : Storage) (messageID : MessageID)
    (message : Message) (md : MessageMetadata) (w : walker.Walker) :
  messages (tangle s) !! messageID = Some message →
  messageMetadata st !! messageID = Some md →
  length (propagateGoF s g st messageID message md w).1.2
  + markerPotential s g (propagateGoF s g st messageID message md w).1.1
  ≤ length w + markerPotential s g st.
Proof.
  intros Hmsg Hmd. unfold propagateGoF.
  destruct (_ && _); [done|]. unfold setMessageGoF.
  destruct (MessageMetadata_SetGradeOfFinality_spec md g) as [[Hlt ->]|[Hle ->]];
    [|done].
  cbn [negb].
  set (st1 := storeMessageMetadata st messageID _).
  assert (markerPotential s g st1 + messageCost s messageID = markerPotential s g st)
    as Hpot.
  { unfold markerPotential.
    pose proof (map_fold_sum_insert
                  (λ messageID md, if gof.ltb (mGradeOfFinality md) g
                                   then messageCost s messageID else 0)
                  (messageMetadata st) messageID md
                  (mkMessageMetadata g (IsPastMarker md)) Hmd) as Hsum.
    cbv beta in Hsum. cbn [mGradeOfFinality] in Hsum.
    rewrite (proj2 (ltb_true _ _) Hlt) in Hsum.
    rewrite (proj2 (ltb_false g g)) in Hsum by lia.
    subst st1. cbn [messageMetadata storeMessageMetadata]. lia. }
  unfold messageCost in Hpot. rewrite Hmsg in Hpot.
  pose proof (setPayloadGoF_messages s st1 messageID g) as Hm.
  destruct (setPayloadGoF s st1 messageID g) as [st2 log2]. cbn [fst snd negb] in *.
  assert (markerPotential s g st2 = markerPotential s g st1) as ->.
  { unfold markerPotential. by rewrite Hm. }
  pose proof (PushAll_length (strongParents message) w). lia.
Qed.

(** With fuel for the worklist and the potential, the walk of [HandleMarker]
    ends with an empty worklist, and more fuel changes nothing. *)
Lemma WalkMessageAndMetadata_drains (g : gof.GradeOfFinality) (fuel : nat)
    (w : walker.Walker) (st : Storage) :
  length w + markerPotential s g st ≤ fuel →
  (WalkMessageAndMetadata s fuel g w st).1.2 = []
  ∧ ∀ fuel', fuel ≤ fuel' →
             WalkMessageAndMetadata s fuel' g w st = WalkMessageAndMetadata s fuel g w st.
Proof.
  revert w st. induction fuel as [|fuel IH]; intros w st Hfuel.
  { destruct w; [|cbn in Hfuel; lia]. split; [done|].
    intros fuel' _. by rewrite WalkMessageAndMetadata_nil. }
  destruct w as [|messageID w].
  { split; [done|]. intros fuel' _. by rewrite WalkMessageAndMetadata_nil. }
  cbn [WalkMessageAndMetadata].
  assert (∃ st1 w1 log1,
             match messages (tangle s) !! messageID, messageMetadata st !! messageID with
             | Some message, Some md => propagateGoF s g st messageID message md w
             | _, _ => (st, w, [])
             end = (st1, w1, log1)
             ∧ length w1 + markerPotential s g st1 ≤ length w + markerPotential s g st)
    as (st1 & w1 & log1 & Hstep & Hmeasure).
  { destruct (messages (tangle s) !! messageID) as [message|] eqn:Hmsg;
      [|by eexists _, _, _].
    destruct (messageMetadata st !! messageID) as [md|] eqn:Hmd; [|by eexists _, _, _].
    pose proof (propagateGoF_measure g st messageID message md w Hmsg Hmd) as Hm.
    destruct (propagateGoF s g st messageID message md w) as [[st1 w1] log1].
    by eexists _, _, _. }
  cbn [length] in Hfuel.
  destruct (IH w1 st1) as [Hnil Hmore]; [lia|].
  split.
  - rewrite Hstep.
    by destruct (WalkMessageAndMetadata s fuel g w1 st1) as [[st2 w2] log2].
  - intros [|fuel'] Hle; [lia|]. cbn [WalkMessageAndMetadata]. rewrite Hstep.
    rewrite (Hmore fuel') by lia. done.
Qed.

(** The loop of [HandleBranch] runs until its worklist is empty: the fuel it
    is given is enough, and any larger amount gives the same result. *)
Lemma HandleBranch_terminates (st : Storage) (branchID : BranchID) (aw : Q) :
  let g := BranchTransFunc (opts s) branchID aw in
  let w := walker.Push (BranchID_TransactionID branchID) walker.New in
  (propagateBranch s (S (branchPotential s g st)) branchID g w st).1.2 = []
  ∧ ∀ fuel, S (branchPotential s g st) ≤ fuel →
            propagateBranch s fuel branchID g w st
            = propagateBranch s (S (branchPotential s g st)) branchID g w st.
Proof. intros g w. apply propagateBranch_drains. subst w. rewrite Push_New. cbn. lia. Qed.

(** The walk of [HandleMarker] runs until its worklist is empty. *)
Lemma HandleMarker_terminates (st : Storage) (marker : Marker) (aw : Q) :
  let g := MessageTransFunc (opts s) aw in
  let w := [MarkersManager_MessageID (tangle s) marker] in
  (WalkMessageAndMetadata s (S (markerPotential s g st)) g w st).1.2 = []
  ∧ ∀ fuel, S (markerPotential s g st) ≤ fuel →
            WalkMessageAndMetadata s fuel g w st
            = WalkMessageAndMetadata s (S (markerPotential s g st)) g w st.
Proof. intros g w. apply WalkMessageAndMetadata_drains. cbn. lia. Qed.

End Termination.

(** ** Two runs *)

(** The marker of message 10 gets the weight 0.6 and nothing conflicts: the
    marker message and its strong parent 11 go to High, the payload
    transaction 5 of message 11 and its two outputs go to High, and there is
    one [TransactionConfirmed] for 5. *)
Example cascade_run :
  HandleMarker cascadeGadget cascadeStorage (1, 1) (6 # 10)
  = (mkStorage
       {[ 10 := mkMessageMetadata gof.High true; 11 := mkMessageMetadata gof.High false ]}
       {[ 5 := mkTransactionMetadata gof.High 5; 6 := mkTransactionMetadata gof.None 7 ]}
       {[ mkOutputID 5 0 := mkOutputMetadata gof.High;
          mkOutputID 5 1 := mkOutputMetadata gof.High;
          mkOutputID 6 0 := mkOutputMetadata gof.None ]},
     [ Write (OfMessage 10) gof.None gof.High;
       Trigger (MessageConfirmed 10);
       Write (OfMessage 11) gof.None gof.High;
       Write (OfTransaction 5) gof.None gof.High;
       Write (OfOutput (mkOutputID 5 0)) gof.None gof.High;
       Write (OfOutput (mkOutputID 5 1)) gof.None gof.High;
       Trigger (TransactionConfirmed 5);
       Trigger (MessageConfirmed 11) ],
     None).
Proof. vm_compute. reflexivity. Qed.

(** The transaction 5 conflicts and its attachment is at High; the branch 5
    gets the weight 0.6: the transaction 5 and its outputs go to High, and the
    transaction 6, which spends an output of 5 and belongs to the branch 7,
    stays at None. *)
Example branch_boundary_run :
  (HandleBranch conflictGadget
     (HandleMarker conflictGadget cascadeStorage (1, 1) (6 # 10)).1.1 5 (6 # 10)).1.1
  = mkStorage
      {[ 10 := mkMessageMetadata gof.High true; 11 := mkMessageMetadata gof.High false ]}
      {[ 5 := mkTransactionMetadata gof.High 5; 6 := mkTransactionMetadata gof.None 7 ]}
      {[ mkOutputID 5 0 := mkOutputMetadata gof.High;
         mkOutputID 5 1 := mkOutputMetadata gof.High;
         mkOutputID 6 0 := mkOutputMetadata gof.None ]}.
Proof. vm_compute. reflexivity. Qed.

(** The attachment of the transaction 5 is at Medium; the branch 5 gets the
    weight 0.6: nothing is written, only [BranchConfirmed] is emitted. *)
Example attachment_cap_run :
  HandleBranch conflictGadget mediumMessages 5 (6 # 10)
  = (mediumMessages, [Trigger (BranchConfirmed 5)], None).
Proof. vm_compute. reflexivity. Qed.

(** * Further properties *)

(** ** The default translations and the options *)

Lemma DefaultMessageGoFTranslation_cases (w : Q) :
  ((w < lowLowerBound)%Q ∧ DefaultMessageGoFTranslation w = gof.None)
  ∨ ((lowLowerBound <= w)%Q ∧ (w < mediumLowerBound)%Q
     ∧ DefaultMessageGoFTranslation w = gof.Low)
  ∨ ((mediumLowerBound <= w)%Q ∧ (w < highLowerBound)%Q
     ∧ DefaultMessageGoFTranslation w = gof.Medium)
  ∨ ((highLowerBound <= w)%Q ∧ DefaultMessageGoFTranslation w = gof.High).
Proof.
  destruct (Qlt_le_dec w lowLowerBound) as [H1|H1].
  { left. split; [done|]. by apply DefaultMessageGoFTranslation_None. }
  destruct (Qlt_le_dec w mediumLowerBound) as [H2|H2].
  { right; left. split; [done|]. split; [done|].
    by apply DefaultMessageGoFTranslation_Low. }
  destruct (Qlt_le_dec w highLowerBound) as [H3|H3].
  { right; right; left. split; [done|]. split; [done|].
    by apply DefaultMessageGoFTranslation_Medium. }
  right; right; right. split; [done|]. by apply DefaultMessageGoFTranslation_High.
Qed.

(** X1: the default translations are monotone in the approval weight: a
    greater weight never translates to a lower grade, for a message and for
    a branch, whatever the branches are. *)
Theorem default_translations_monotone (b1 b2 : BranchID) (w1 w2 : Q) :
  (w1 <= w2)%Q →
  gof.rank (DefaultMessageGoFTranslation w1) ≤ gof.rank (DefaultMessageGoFTranslation w2)
  ∧ gof.rank (DefaultBranchGoFTranslation b1 w1)
    ≤ gof.rank (DefaultBranchGoFTranslation b2 w2).
Proof.
  intros Hw.
  change (DefaultBranchGoFTranslation b1 w1) with (DefaultMessageGoFTranslation w1).
  change (DefaultBranchGoFTranslation b2 w2) with (DefaultMessageGoFTranslation w2).
  unfold lowLowerBound, mediumLowerBound, highLowerBound in *.
  destruct (DefaultMessageGoFTranslation_cases w1)
    as [[? ->]|[(? & ? & ->)|[(? & ? & ->)|[? ->]]]];
  destruct (DefaultMessageGoFTranslation_cases w2)
    as [[? ->]|[(? & ? & ->)|[(? & ? & ->)|[? ->]]]];
  unfold lowLowerBound, mediumLowerBound, highLowerBound in *;
  cbn [gof.rank]; first [lia | exfalso; lra].
Qed.

Lemma default_translations_monotone_witness :
  gof.rank (DefaultMessageGoFTranslation (25 # 100))
  ≤ gof.rank (DefaultMessageGoFTranslation (4 # 10))
  ∧ gof.rank (DefaultBranchGoFTranslation 1 (25 # 100))
    ≤ gof.rank (DefaultBranchGoFTranslation 2 (4 # 10)).
Proof. apply (default_translations_monotone 1 2 (25 # 100) (4 # 10)). done. Defined.

(** X2: the options of a gadget are the defaults (the default translations
    and the level High for messages and branches) overridden by the options
    of the caller: each of the four settings is the one of the last option of
    its kind in the list, or the default when the list has none. *)
Theorem NewSimpleFinalityGadget_options (t : Tangle) (xs : list Setting) :
  tangle (NewSimpleFinalityGadget t (optionOf <$> xs)) = t
  ∧ opts (NewSimpleFinalityGadget t (optionOf <$> xs))
    = mkOptions (lastOr DefaultBranchGoFTranslation branchTranslationOf xs)
                (lastOr DefaultMessageGoFTranslation messageTranslationOf xs)
                (lastOr gof.High branchLevelOf xs)
                (lastOr gof.High messageLevelOf xs).
Proof.
  split; [done|]. unfold NewSimpleFinalityGadget, lastOr. cbn [opts].
  induction xs as [|x xs IH] using rev_ind; [done|].
  rewrite fmap_app, foldl_app, IH, !omap_app.
  destruct x; cbn [fmap list_fmap foldl optionOf omap list_omap branchTranslationOf
                   messageTranslationOf branchLevelOf messageLevelOf];
    rewrite ?app_nil_r, ?last_snoc; reflexivity.
Qed.

(** ** What a call of [HandleBranch] logs and changes *)

Lemma maxAttachmentGoF_ext (s : SimpleFinalityGadget) (st st' : Storage)
    (transactionID : TransactionID) :
  messageMetadata st' = messageMetadata st →
  maxAttachmentGoF s st' transactionID = maxAttachmentGoF s st transactionID.
Proof.
  intros Heq. unfold maxAttachmentGoF.
  assert (maxAttachmentStep st' = maxAttachmentStep st) as ->; [|done].
  unfold maxAttachmentStep. by rewrite Heq.
Qed.

Section Frames.

Variable t : Tangle.
Variable g : gof.GradeOfFinality.
Variable cand : TransactionID → gof.GradeOfFinality.
Variable M : MessageID → Prop.
Variable Tok : TransactionID → TransactionMetadata → Prop.

Lemma Frame_refl (st : Storage) : Frame t g cand M Tok st st.
Proof. split; intros; by left. Qed.

(** A message found below [g] is raised. *)
Lemma Frame_raise_message (st0 st : Storage) (messageID : MessageID) (md : MessageMetadata) :
  Frame t g cand M Tok st0 st →
  messageMetadata st !! messageID = Some md →
  gof.rank (mGradeOfFinality md) < gof.rank g →
  M messageID →
  Frame t g cand M Tok st0
        (storeMessageMetadata st messageID (mkMessageMetadata g (IsPastMarker md))).
Proof.
  intros [Hm Ht Ho] Hmd Hlt HM.
  assert (messageMetadata st0 !! messageID = Some md) as Hmd0.
  { destruct (Hm messageID) as [Heq|(md0 & _ & _ & _ & Heq)]; [by rewrite <- Heq|].
    rewrite Hmd in Heq. injection Heq as ->. cbn in Hlt. lia. }
  split; [|done|done].
  intros m. cbn [messageMetadata storeMessageMetadata].
  destruct (decide (m = messageID)) as [->|Hne].
  - right. exists md. by rewrite lookup_insert_eq.
  - rewrite lookup_insert_ne by done. apply Hm.
Qed.

(** A transaction found below its candidate is raised, and the candidate is
    written to the outputs it lists. *)
Lemma Frame_raise_transaction (st0 st : Storage) (transactionID : TransactionID)
    (md : TransactionMetadata) (outs : list OutputID) :
  Frame t g cand M Tok st0 st →
  transactionMetadata st !! transactionID = Some md →
  gof.rank (tGradeOfFinality md) < gof.rank (cand transactionID) →
  Tok transactionID md →
  (outs = [] ∨ ∃ transaction, transactions t !! transactionID = Some transaction
                              ∧ outs = Outputs transaction) →
  Frame t g cand M Tok st0
        (setOutputsGoF
           (storeTransactionMetadata st transactionID
              (mkTransactionMetadata (cand transactionID) (tBranchID md)))
           outs (cand transactionID)).1.
Proof.
  intros [Hm Ht Ho] Hmd Hlt Htok Houts.
  assert (transactionMetadata st0 !! transactionID = Some md) as Hmd0.
  { destruct (Ht transactionID) as [Heq|(md0 & _ & _ & _ & Heq)]; [by rewrite <- Heq|].
    rewrite Hmd in Heq. injection Heq as ->. cbn in Hlt. lia. }
  destruct (setOutputsGoF_spec outs (cand transactionID)
              (storeTransactionMetadata st transactionID
                 (mkTransactionMetadata (cand transactionID) (tBranchID md))))
    as (Hm' & Ht' & Ho' & _).
  split.
  - intros m. rewrite Hm'. apply Hm.
  - intros T'. rewrite Ht'. cbn [transactionMetadata storeTransactionMetadata].
    destruct (decide (T' = transactionID)) as [->|Hne].
    + right. exists md. by rewrite lookup_insert_eq.
    + rewrite lookup_insert_ne by done. apply Ht.
  - intros o. rewrite Ho', Ht'.
    cbn [outputMetadata transactionMetadata storeTransactionMetadata].
    destruct (decide (o ∈ outs)) as [Hin|Hnin].
    + right. destruct Houts as [->|(tx & Htx & ->)]; [set_solver|].
      exists transactionID, tx, md. rewrite lookup_insert_eq.
      do 5 (split; [done|]).
      destruct (Ho o) as [->|(T1 & tx1 & md1 & _ & _ & _ & _ & _ & ->)]; [done|].
      by destruct (outputMetadata st0 !! o).
    + destruct (Ho o) as [Heq|(T1 & tx1 & md1 & Htx1 & Hin1 & Hmd1 & Hlt1 & Hnew1 & Heq)];
        [by left|].
      right. exists T1, tx1, md1.
      assert (T1 ≠ transactionID) as Hne.
      { intros ->. rewrite Hmd in Hnew1. injection Hnew1 as ->. cbn in Hlt. lia. }
      by rewrite lookup_insert_ne by done.
Qed.

End Frames.

Section BranchFrames.

Variable s : SimpleFinalityGadget.
Variable branchID : BranchID.
Variable g : gof.GradeOfFinality.
Variable st0 : Storage.

#[local] Abbreviation BranchFrame :=
  (Frame (tangle s) g (λ _, g) (λ _, False)
         (λ transactionID md,
            tBranchID md = branchID
            ∧ gof.rank g ≤ gof.rank (maxAttachmentGoF s st0 transactionID))).

Lemma BranchFrame_messages (st : Storage) :
  BranchFrame st0 st → messageMetadata st = messageMetadata st0.
Proof.
  intros [Hm _ _]. apply map_eq. intros m.
  by destruct (Hm m) as [Heq|(? & _ & _ & [] & _)].
Qed.

Lemma forwardPropagateBranchGoFToTxs_frame (st : Storage) (candidateTxID : TransactionID)
    (w : walker.Walker) :
  BranchFrame st0 st →
  BranchFrame st0 (forwardPropagateBranchGoFToTxs s st candidateTxID branchID g w).1.1.
Proof.
  intros HF. unfold forwardPropagateBranchGoFToTxs.
  destruct (transactionMetadata st !! candidateTxID) as [md|] eqn:Hmd; [|done].
  destruct (negb _) eqn:Hb; [done|].
  destruct (gof.ltb (maxAttachmentGoF _ _ _) _) eqn:Hcap; [done|].
  destruct (TransactionMetadata_SetGradeOfFinality_spec md g) as [[Hlt ->]|[Hle ->]];
    [|done].
  cbn [negb].
  apply negb_false_iff, bool_decide_eq_true in Hb.
  apply ltb_false in Hcap.
  rewrite (maxAttachmentGoF_ext s st0 st) in Hcap by by apply BranchFrame_messages.
  destruct (transactions (tangle s) !! candidateTxID) as [transaction|] eqn:Htx.
  - pose proof (Frame_raise_transaction _ _ _ _ _ st0 st candidateTxID md
                  (Outputs transaction) HF Hmd Hlt (conj Hb Hcap)
                  (or_intror (ex_intro _ transaction (conj Htx eq_refl)))) as Hstep.
    destruct (adjustOutputsGoF_set s (Outputs transaction) g
                (storeTransactionMetadata st candidateTxID
                   (mkTransactionMetadata g (tBranchID md))) ∅ w) as [Hst Hlog].
    destruct (adjustOutputsGoF _ _ _ _ _ _) as [[[st2 c2] w2] log2].
    cbn [fst snd] in *. by subst.
  - exact (Frame_raise_transaction _ _ _ _ _ st0 st candidateTxID md []
             HF Hmd Hlt (conj Hb Hcap) (or_introl eq_refl)).
Qed.

Lemma propagateBranch_frame (fuel : nat) (w : walker.Walker) (st : Storage) :
  BranchFrame st0 st →
  BranchFrame st0 (propagateBranch s fuel branchID g w st).1.1.
Proof.
  revert w st. induction fuel as [|fuel IH]; intros w st HF; [done|].
  cbn [propagateBranch].
  destruct w as [|candidateTxID w]; [done|].
  pose proof (forwardPropagateBranchGoFToTxs_frame st candidateTxID w HF) as Hstep.
  destruct (forwardPropagateBranchGoFToTxs s st candidateTxID branchID g w)
    as [[st1 w1] log1].
  specialize (IH w1 st1 Hstep).
  by destruct (propagateBranch s fuel branchID g w1 st1) as [[st2 w2] log2].
Qed.

Lemma forwardPropagateBranchGoFToTxs_effects (st : Storage) (candidateTxID : TransactionID)
    (w : walker.Walker) :
  Forall (handleBranchEffect s branchID g)
         (forwardPropagateBranchGoFToTxs s st candidateTxID branchID g w).2.
Proof.
  unfold forwardPropagateBranchGoFToTxs.
  destruct (transactionMetadata st !! candidateTxID) as [md|]; [|constructor].
  destruct (negb _); [constructor|].
  destruct (gof.ltb (maxAttachmentGoF _ _ _) _); [constructor|].
  destruct (TransactionMetadata_SetGradeOfFinality_spec md g) as [[Hlt ->]|[Hle ->]];
    [|constructor].
  cbn [negb tGradeOfFinality].
  assert (∀ outs st1,
            Forall (handleBranchEffect s branchID g)
                   (adjustOutputsGoF s st1 outs g ∅ w).2) as Houts.
  { intros outs st1. destruct (adjustOutputsGoF_set s outs g st1 ∅ w) as [_ ->].
    destruct (setOutputsGoF_spec outs g st1) as (_ & _ & _ & Hlog).
    eapply Forall_impl; [exact Hlog|]. by intros e (o & old & -> & _). }
  set (st1 := storeTransactionMetadata _ _ _).
  assert (Forall (handleBranchEffect s branchID g)
            (if gof.geb g (BranchGoFReachedLevel (opts s))
             then [Trigger (TransactionConfirmed candidateTxID)] else [])) as Hevs.
  { destruct (gof.geb _ _) eqn:Hge; repeat constructor. by apply geb_true. }
  destruct (transactions (tangle s) !! candidateTxID) as [transaction|].
  - specialize (Houts (Outputs transaction) st1).
    destruct (adjustOutputsGoF _ _ _ _ _ _) as [[[st2 c2] w2] log2]. cbn [fst snd] in *.
    constructor; [done|]. by apply Forall_app.
  - cbn [snd app]. by constructor.
Qed.

Lemma propagateBranch_effects (fuel : nat) (w : walker.Walker) (st : Storage) :
  Forall (handleBranchEffect s branchID g) (propagateBranch s fuel branchID g w st).2.
Proof.
  revert w st. induction fuel as [|fuel IH]; intros w st; [constructor|].
  cbn [propagateBranch].
  destruct w as [|candidateTxID w]; [constructor|].
  pose proof (forwardPropagateBranchGoFToTxs_effects st candidateTxID w) as Hstep.
  destruct (forwardPropagateBranchGoFToTxs s st candidateTxID branchID g w)
    as [[st1 w1] log1].
  specialize (IH w1 st1).
  destruct (propagateBranch s fuel branchID g w1 st1) as [[st2 w2] log2].
  by apply Forall_app.
Qed.

End BranchFrames.

(** X3: [HandleBranch] logs nothing about a message; every grade it writes,
    to a transaction or to an output, is the candidate of the call; it
    emits [TransactionConfirmed], and [BranchConfirmed] for its own branch
    only, when the candidate reaches the branch level and never below it. *)
Theorem HandleBranch_effects (s : SimpleFinalityGadget) (st : Storage)
    (branchID : BranchID) (aw : Q) :
  Forall (handleBranchEffect s branchID (BranchTransFunc (opts s) branchID aw))
         (HandleBranch s st branchID aw).1.2.
Proof.
  unfold HandleBranch.
  pose proof (propagateBranch_effects s branchID (BranchTransFunc (opts s) branchID aw)
                (S (branchPotential s (BranchTransFunc (opts s) branchID aw) st))
                (walker.Push (BranchID_TransactionID branchID) walker.New) st) as Hloop.
  destruct (propagateBranch _ _ _ _ _ _) as [[st1 w1] log1]. cbn [fst snd] in *.
  apply Forall_app. split; [done|].
  destruct (gof.geb _ _) eqn:Hge; repeat constructor. by apply geb_true.
Qed.

(** X4: [HandleBranch] leaves the metadata of every message as it was.  A
    transaction whose metadata it changed was recorded under the branch of
    the call, had a grade below the candidate and an attachment at the
    candidate or above, and ends at the candidate, in the same branch.  An
    output whose metadata it changed is listed by such a transaction and
    ends at the candidate. *)
Theorem HandleBranch_frame (s : SimpleFinalityGadget) (st : Storage)
    (branchID : BranchID) (aw : Q) :
  branchFrame s branchID (BranchTransFunc (opts s) branchID aw) st
              (HandleBranch s st branchID aw).1.1.
Proof.
  unfold HandleBranch.
  set (g := BranchTransFunc (opts s) branchID aw).
  pose proof (propagateBranch_frame s branchID g st
                (S (branchPotential s g st))
                (walker.Push (BranchID_TransactionID branchID) walker.New) st
                (Frame_refl _ _ _ _ _ st)) as HF.
  destruct (propagateBranch _ _ _ _ _ _) as [[st1 w1] log1]. cbn [fst snd] in *.
  pose proof (BranchFrame_messages s branchID g st st1 HF) as Hmsg.
  destruct HF as [Hm Ht Ho].
  split; [done|]. split.
  - intros T. destruct (Ht T) as [Heq|(md & Hmd & Hlt & [Hb Hcap] & Hnew)]; [by left|].
    right. exists md. by rewrite <- Hb at 2.
  - intros o.
    destruct (Ho o) as [Heq|(T & tx & md & Htx & Hin & Hmd & Hlt & Hnew & Heq)]; [by left|].
    destruct (Ht T) as [Hsame|(md' & Hmd' & _ & [Hb _] & _)].
    { rewrite Hnew, Hmd in Hsame.
      apply (f_equal (fmap tGradeOfFinality)) in Hsame. cbn in Hsame.
      injection Hsame as Hg. rewrite <- Hg in Hlt. lia. }
    rewrite Hmd in Hmd'. injection Hmd' as <-.
    right. exists T, tx, md.
    do 4 (split; [done|]). split; [done|]. split; [by rewrite <- Hb|done].
Qed.

(** The transaction that defines the branch is not raised when it has no
    metadata, when it is recorded under another branch, when none of its
    attachments reaches the candidate, or when its grade is already at the
    candidate or above. *)
Lemma forwardPropagateBranchGoFToTxs_blocked (s : SimpleFinalityGadget) (st : Storage)
    (candidateTxID : TransactionID) (branchID : BranchID) (g : gof.GradeOfFinality)
    (w : walker.Walker) :
  match transactionMetadata st !! candidateTxID with
  | Some md =>
      tBranchID md ≠ branchID
      ∨ gof.rank (maxAttachmentGoF s st candidateTxID) < gof.rank g
      ∨ gof.rank g ≤ gof.rank (tGradeOfFinality md)
  | None => True
  end →
  forwardPropagateBranchGoFToTxs s st candidateTxID branchID g w = (st, w, []).
Proof.
  intros Hroot. unfold forwardPropagateBranchGoFToTxs.
  destruct (transactionMetadata st !! candidateTxID) as [md|]; [|done].
  destruct Hroot as [Hb|[Hcap|Hle]].
  - by rewrite bool_decide_eq_false_2.
  - apply ltb_true in Hcap. rewrite Hcap. by destruct (negb _).
  - destruct (negb _); [done|]. destruct (gof.ltb (maxAttachmentGoF _ _ _) _); [done|].
    by destruct (TransactionMetadata_SetGradeOfFinality_spec md g)
      as [[Hlt ->]|[_ ->]]; [lia|].
Qed.

(** X5: when the transaction that defines the branch cannot be raised (no
    metadata is stored for it, it is recorded under another branch, no
    attachment of it reaches the candidate, or its grade is already at the
    candidate or above), [HandleBranch] changes nothing and visits no other
    transaction; it still emits [BranchConfirmed] when the candidate
    reaches the branch level, and emits nothing otherwise. *)
Theorem HandleBranch_blocked_root (s : SimpleFinalityGadget) (st : Storage)
    (branchID : BranchID) (aw : Q) :
  match transactionMetadata st !! BranchID_TransactionID branchID with
  | Some md =>
      tBranchID md ≠ branchID
      ∨ gof.rank (maxAttachmentGoF s st (BranchID_TransactionID branchID))
        < gof.rank (BranchTransFunc (opts s) branchID aw)
      ∨ gof.rank (BranchTransFunc (opts s) branchID aw) ≤ gof.rank (tGradeOfFinality md)
  | None => True
  end →
  HandleBranch s st branchID aw
  = (st,
     if gof.geb (BranchTransFunc (opts s) branchID aw) (BranchGoFReachedLevel (opts s))
     then [Trigger (BranchConfirmed branchID)] else [],
     None).
Proof.
  intros Hroot. unfold HandleBranch. rewrite Push_New. cbn [propagateBranch].
  rewrite forwardPropagateBranchGoFToTxs_blocked by done.
  by rewrite propagateBranch_nil.
Qed.

Lemma HandleBranch_blocked_root_witness :
  HandleBranch conflictGadget mediumMessages 5 (6 # 10)
  = (mediumMessages, [Trigger (BranchConfirmed 5)], None).
Proof.
  apply (HandleBranch_blocked_root conflictGadget mediumMessages 5 (6 # 10)).
  vm_compute. right. left. lia.
Defined.

(** X6: a gadget with the default options ignores an approval weight below
    0.2: [HandleMarker] and [HandleBranch] change nothing and emit nothing,
    whatever the marker, the branch and the storage are. *)
Theorem default_gadget_ignores_low_weight (t : Tangle) (st : Storage)
    (marker : Marker) (branchID : BranchID) (aw : Q) :
  (aw < 2 # 10)%Q →
  HandleMarker (NewSimpleFinalityGadget t []) st marker aw = (st, [], None)
  ∧ HandleBranch (NewSimpleFinalityGadget t []) st branchID aw = (st, [], None).
Proof.
  intros Haw. split.
  - apply HandleMarker_guard. left. cbn. by apply DefaultMessageGoFTranslation_None.
  - unfold HandleBranch. rewrite Push_New. cbn [propagateBranch].
    rewrite forwardPropagateBranchGoFToTxs_blocked.
    + rewrite propagateBranch_nil.
      cbn [opts NewSimpleFinalityGadget foldl defaultOpts zeroOptions
           WithBranchThresholdTranslation WithMessageThresholdTranslation
           WithBranchGoFReachedLevel WithMessageGoFReachedLevel
           BranchTransFunc BranchGoFReachedLevel].
      change (DefaultBranchGoFTranslation branchID aw)
        with (DefaultMessageGoFTranslation aw).
      by rewrite DefaultMessageGoFTranslation_None.
    + destruct (transactionMetadata st !! _) as [md|]; [|done].
      right. right. cbn.
      change (DefaultBranchGoFTranslation branchID aw)
        with (DefaultMessageGoFTranslation aw).
      rewrite DefaultMessageGoFTranslation_None by done. cbn. lia.
Qed.

Lemma default_gadget_ignores_low_weight_witness :
  HandleMarker (NewSimpleFinalityGadget (tangle cascadeGadget) []) cascadeStorage
               (1, 1) (1 # 10)
  = (cascadeStorage, [], None)
  ∧ HandleBranch (NewSimpleFinalityGadget (tangle cascadeGadget) []) cascadeStorage
                 5 (1 # 10)
    = (cascadeStorage, [], None).
Proof.
  apply (default_gadget_ignores_low_weight (tangle cascadeGadget) cascadeStorage
           (1, 1) 5 (1 # 10)).
  done.
Defined.

(** ** What a call of [HandleMarker] logs and changes *)

Lemma Push_elem_of (x y : nat) (w : walker.Walker) :
  x ∈ walker.Push y w → x = y ∨ x ∈ w.
Proof. unfold walker.Push. destruct (decide (y ∈ w)); set_solver. Qed.

Lemma PushAll_elem_of (x : nat) (xs : list nat) (w : walker.Walker) :
  x ∈ walker.PushAll xs w → x ∈ xs ∨ x ∈ w.
Proof.
  unfold walker.PushAll. revert w. induction xs as [|y xs IH]; intros w; cbn [foldl].
  - auto.
  - intros Hin. destruct (IH _ Hin) as [Hxs|Hw]; [set_solver|].
    destruct (Push_elem_of _ _ _ Hw); set_solver.
Qed.

Section MarkerFrames.

Variable s : SimpleFinalityGadget.
Variable g : gof.GradeOfFinality.
Variable root : MessageID.
Variable st0 : Storage.

#[local] Abbreviation walked := (rtc (belowParent s g st0) root).

#[local] Abbreviation MarkerFrame :=
  (Frame (tangle s) g (λ transactionID, markerCandidate s g (OfTransaction transactionID))
         (λ messageID, walked messageID)
         (λ transactionID _,
            ∃ messageID message mmd,
              messages (tangle s) !! messageID = Some message
              ∧ payload message = Some transactionID
              ∧ messageMetadata st0 !! messageID = Some mmd
              ∧ gof.rank (mGradeOfFinality mmd) < gof.rank g
              ∧ walked messageID)).

(** A message that is below [g] now was below [g] at the start. *)
Lemma MarkerFrame_below (st : Storage) (messageID : MessageID) (md : MessageMetadata) :
  MarkerFrame st0 st →
  messageMetadata st !! messageID = Some md →
  gof.rank (mGradeOfFinality md) < gof.rank g →
  messageMetadata st0 !! messageID = Some md.
Proof.
  intros [Hm _ _] Hmd Hlt.
  destruct (Hm messageID) as [Heq|(md0 & _ & _ & _ & Heq)]; [by rewrite <- Heq|].
  rewrite Hmd in Heq. injection Heq as ->. cbn in Hlt. lia.
Qed.

Lemma setPayloadGoF_frame (st : Storage) (messageID : MessageID) (mmd : MessageMetadata) :
  MarkerFrame st0 st →
  messageMetadata st0 !! messageID = Some mmd →
  gof.rank (mGradeOfFinality mmd) < gof.rank g →
  walked messageID →
  MarkerFrame st0 (setPayloadGoF s st messageID g).1.
Proof.
  intros HF Hmmd Hbelow Hwalked. unfold setPayloadGoF.
  destruct (messages (tangle s) !! messageID) as [message|] eqn:Hmsg; [|done].
  destruct (payload message) as [transactionID|] eqn:Hpay; [|done].
  destruct (transactionMetadata st !! transactionID) as [md|] eqn:Hmd; [|done].
  change (if TransactionConflicting (tangle s) transactionID then _ else g)
    with (markerCandidate s g (OfTransaction transactionID)).
  set (g' := markerCandidate s g (OfTransaction transactionID)).
  destruct (TransactionMetadata_SetGradeOfFinality_spec md g') as [[Hlt ->]|[Hle ->]];
    [|done].
  cbn [negb].
  assert (∃ messageID message mmd,
            messages (tangle s) !! messageID = Some message
            ∧ payload message = Some transactionID
            ∧ messageMetadata st0 !! messageID = Some mmd
            ∧ gof.rank (mGradeOfFinality mmd) < gof.rank g
            ∧ walked messageID) as Htok by eauto 10.
  destruct (transactions (tangle s) !! transactionID) as [transaction|] eqn:Htx.
  - pose proof (Frame_raise_transaction _ _ _ _ _ st0 st transactionID md
                  (Outputs transaction) HF Hmd Hlt Htok
                  (or_intror (ex_intro _ transaction (conj Htx eq_refl)))) as Hstep.
    by destruct (setOutputsGoF _ _ _) as [st2 log2].
  - exact (Frame_raise_transaction _ _ _ _ _ st0 st transactionID md []
             HF Hmd Hlt Htok (or_introl eq_refl)).
Qed.

Lemma propagateGoF_frame (st : Storage) (messageID : MessageID) (message : Message)
    (md : MessageMetadata) (w : walker.Walker) :
  MarkerFrame st0 st →
  messages (tangle s) !! messageID = Some message →
  messageMetadata st !! messageID = Some md →
  walked messageID →
  (∀ x, x ∈ w → walked x) →
  MarkerFrame st0 (propagateGoF s g st messageID message md w).1.1
  ∧ ∀ x, x ∈ (propagateGoF s g st messageID message md w).1.2 → walked x.
Proof.
  intros HF Hmsg Hmd Hwalked Hw. unfold propagateGoF.
  destruct (IsPastMarker md && _); [done|].
  unfold setMessageGoF.
  destruct (MessageMetadata_SetGradeOfFinality_spec md g) as [[Hlt ->]|[Hle ->]];
    [|done].
  cbn [negb].
  pose proof (MarkerFrame_below st messageID md HF Hmd Hlt) as Hmd0.
  pose proof (Frame_raise_message _ _ _ _ _ st0 st messageID md HF Hmd Hlt Hwalked) as HF1.
  pose proof (setPayloadGoF_frame _ messageID md HF1 Hmd0 Hlt Hwalked) as HF2.
  destruct (setPayloadGoF s _ messageID g) as [st2 log2]. cbn [fst snd negb] in *.
  split; [done|].
  intros x Hx. destruct (PushAll_elem_of _ _ _ Hx) as [Hp|Hin]; [|by apply Hw].
  eapply rtc_r; [exact Hwalked|]. by exists message, md.
Qed.

Lemma WalkMessageAndMetadata_frame (fuel : nat) (w : walker.Walker) (st : Storage) :
  MarkerFrame st0 st →
  (∀ x, x ∈ w → walked x) →
  MarkerFrame st0 (WalkMessageAndMetadata s fuel g w st).1.1.
Proof.
  revert w st. induction fuel as [|fuel IH]; intros w st HF Hw; [done|].
  cbn [WalkMessageAndMetadata].
  destruct w as [|messageID w]; [done|].
  assert (walked messageID) as Hwalked by (apply Hw; set_solver).
  assert (∀ x, x ∈ w → walked x) as Hw' by (intros x Hx; apply Hw; set_solver).
  destruct (messages (tangle s) !! messageID) as [message|] eqn:Hmsg.
  - destruct (messageMetadata st !! messageID) as [md|] eqn:Hmd.
    + destruct (propagateGoF_frame st messageID message md w HF Hmsg Hmd Hwalked Hw')
        as [HF1 Hw1].
      destruct (propagateGoF s g st messageID message md w) as [[st1 w1] log1].
      specialize (IH w1 st1 HF1 Hw1).
      by destruct (WalkMessageAndMetadata s fuel g w1 st1) as [[st2 w2] log2].
    + specialize (IH w st HF Hw').
      by destruct (WalkMessageAndMetadata s fuel g w st) as [[st2 w2] log2].
  - specialize (IH w st HF Hw').
    by destruct (WalkMessageAndMetadata s fuel g w st) as [[st2 w2] log2].
Qed.

End MarkerFrames.

Section MarkerEffects.

Variable s : SimpleFinalityGadget.
Variable g : gof.GradeOfFinality.

Lemma setPayloadGoF_effects (st : Storage) (messageID : MessageID) :
  Forall (handleMarkerEffect s g) (setPayloadGoF s st messageID g).2.
Proof.
  unfold setPayloadGoF.
  destruct (messages (tangle s) !! messageID) as [message|]; [|constructor].
  destruct (payload message) as [transactionID|]; [|constructor].
  destruct (transactionMetadata st !! transactionID) as [md|]; [|constructor].
  change (if TransactionConflicting (tangle s) transactionID then _ else g)
    with (markerCandidate s g (OfTransaction transactionID)).
  set (g' := markerCandidate s g (OfTransaction transactionID)).
  destruct (TransactionMetadata_SetGradeOfFinality_spec md g') as [[Hlt ->]|[Hle ->]];
    [|constructor].
  cbn [negb].
  assert (Forall (handleMarkerEffect s g)
            (if gof.geb g' (BranchGoFReachedLevel (opts s))
             then [Trigger (TransactionConfirmed transactionID)] else [])) as Hevs.
  { destruct (gof.geb _ _) eqn:Hge; repeat constructor. by apply geb_true. }
  destruct (transactions (tangle s) !! transactionID) as [transaction|] eqn:Htx.
  - destruct (setOutputsGoF_spec (Outputs transaction) g'
                (storeTransactionMetadata st transactionID
                   (mkTransactionMetadata g' (tBranchID md)))) as (_ & _ & _ & Hlog).
    destruct (setOutputsGoF _ _ _) as [st2 log2]. cbn [fst snd] in *.
    constructor; [done|]. apply Forall_app. split; [|done].
    eapply Forall_impl; [exact Hlog|].
    intros e (o & old & -> & Hin & _). by exists transactionID, transaction.
  - cbn [snd app]. by constructor.
Qed.

Lemma propagateGoF_effects (st : Storage) (messageID : MessageID) (message : Message)
    (md : MessageMetadata) (w : walker.Walker) :
  Forall (handleMarkerEffect s g) (propagateGoF s g st messageID message md w).2.
Proof.
  unfold propagateGoF.
  destruct (IsPastMarker md && _); [constructor|].
  unfold setMessageGoF.
  destruct (MessageMetadata_SetGradeOfFinality_spec md g) as [[Hlt ->]|[Hle ->]];
    [|constructor].
  cbn [negb].
  pose proof (setPayloadGoF_effects
                (storeMessageMetadata st messageID (mkMessageMetadata g (IsPastMarker md)))
                messageID) as Hpay.
  destruct (setPayloadGoF s _ messageID g) as [st2 log2]. cbn [fst snd negb] in *.
  constructor; [done|]. apply Forall_app. split; [done|].
  destruct (gof.geb _ _) eqn:Hge; repeat constructor. by apply geb_true.
Qed.

Lemma WalkMessageAndMetadata_effects (fuel : nat) (w : walker.Walker) (st : Storage) :
  Forall (handleMarkerEffect s g) (WalkMessageAndMetadata s fuel g w st).2.
Proof.
  revert w st. induction fuel as [|fuel IH]; intros w st; [constructor|].
  cbn [WalkMessageAndMetadata].
  destruct w as [|messageID w]; [constructor|].
  destruct (messages (tangle s) !! messageID) as [message|].
  - destruct (messageMetadata st !! messageID) as [md|].
    + pose proof (propagateGoF_effects st messageID message md w) as Hstep.
      destruct (propagateGoF s g st messageID message md w) as [[st1 w1] log1].
      specialize (IH w1 st1).
      destruct (WalkMessageAndMetadata s fuel g w1 st1) as [[st2 w2] log2].
      by apply Forall_app.
    + specialize (IH w st).
      by destruct (WalkMessageAndMetadata s fuel g w st) as [[st2 w2] log2].
  - specialize (IH w st).
    by destruct (WalkMessageAndMetadata s fuel g w st) as [[st2 w2] log2].
Qed.

End MarkerEffects.

(** X7: [HandleMarker] never emits [BranchConfirmed]; every grade it writes
    to a message is the candidate of the call, and every grade it writes to
    a transaction or to an output that the transaction lists is the
    candidate of that transaction (the translation of the weight of its
    branch when it conflicts); it emits [MessageConfirmed] only when the
    candidate reaches the message level, and [TransactionConfirmed] only when
    the candidate of the transaction reaches the branch level. *)
Theorem HandleMarker_effects (s : SimpleFinalityGadget) (st : Storage)
    (marker : Marker) (aw : Q) :
  Forall (handleMarkerEffect s (MessageTransFunc (opts s) aw))
         (HandleMarker s st marker aw).1.2.
Proof.
  unfold HandleMarker.
  destruct (gof.eqb _ _); [constructor|].
  destruct (negb _); [constructor|].
  pose proof (WalkMessageAndMetadata_effects s (MessageTransFunc (opts s) aw)
                (S (markerPotential s (MessageTransFunc (opts s) aw) st))
                [MarkersManager_MessageID (tangle s) marker] st) as Hloop.
  by destruct (WalkMessageAndMetadata _ _ _ _ _) as [[st1 w1] log1].
Qed.

(** X8: [HandleMarker] changes the metadata of a message only when the message
    was below the candidate and is reached from the message of the marker
    through strong parents of messages that were below the candidate; such a
    message ends at the candidate and keeps its past-marker flag.  It
    changes a transaction only when the transaction was below its own
    candidate and is the payload of such a message; the transaction ends at
    its candidate, in the same branch.  It changes an output only when a
    transaction it raised lists the output, which ends at the candidate of
    that transaction. *)
Theorem HandleMarker_frame (s : SimpleFinalityGadget) (st : Storage)
    (marker : Marker) (aw : Q) :
  markerFrame s (MessageTransFunc (opts s) aw)
              (MarkersManager_MessageID (tangle s) marker)
              st (HandleMarker s st marker aw).1.1.
Proof.
  set (g := MessageTransFunc (opts s) aw).
  set (root := MarkersManager_MessageID (tangle s) marker).
  assert (Frame (tangle s) g
            (λ transactionID, markerCandidate s g (OfTransaction transactionID))
            (λ messageID, rtc (belowParent s g st) root messageID)
            (λ transactionID _,
               ∃ messageID message mmd,
                 messages (tangle s) !! messageID = Some message
                 ∧ payload message = Some transactionID
                 ∧ messageMetadata st !! messageID = Some mmd
                 ∧ gof.rank (mGradeOfFinality mmd) < gof.rank g
                 ∧ rtc (belowParent s g st) root messageID)
            st (HandleMarker s st marker aw).1.1) as [Hm Ht Ho].
  { unfold HandleMarker. fold g root.
    destruct (gof.eqb _ _); [apply Frame_refl|].
    destruct (negb _); [apply Frame_refl|].
    pose proof (WalkMessageAndMetadata_frame s g root st
                  (S (markerPotential s g st)) [root] st (Frame_refl _ _ _ _ _ st)) as Hloop.
    destruct (WalkMessageAndMetadata _ _ _ _ _) as [[st1 w1] log1]. cbn [fst snd] in *.
    apply Hloop. intros x Hx. apply list_elem_of_singleton in Hx as ->. done. }
  split; [done|]. split; [|done].
  intros T. destruct (Ht T) as [Heq|(md & Hmd & Hlt & (m & message & mmd & Htok) & Hnew)];
    [by left|].
  right. exists md, m, message, mmd. naive_solver.
Qed.

(** ** Confirmations and events *)

Lemma gradeOf_setGrade (st : Storage) (x y : Entity) (new : gof.GradeOfFinality) :
  gradeOf (setGrade st y new) x
  = if decide (x = y) then (λ _, new) <$> gradeOf st x else gradeOf st x.
Proof.
  destruct (decide (x = y)) as [->|Hne].
  - destruct y as [k|k|k]; cbn [gradeOf setGrade];
      [destruct (messageMetadata st !! k) eqn:E
      |destruct (transactionMetadata st !! k) eqn:E
      |destruct (outputMetadata st !! k) eqn:E];
      cbn [messageMetadata transactionMetadata outputMetadata storeMessageMetadata
           storeTransactionMetadata storeOutputMetadata];
      rewrite ?lookup_insert_eq, ?E; done.
  - destruct y as [k|k|k];
      [destruct (messageMetadata st !! k) eqn:E
      |destruct (transactionMetadata st !! k) eqn:E
      |destruct (outputMetadata st !! k) eqn:E];
      cbn [setGrade]; rewrite E; try done;
      destruct x as [j|j|j];
      cbn [gradeOf messageMetadata transactionMetadata outputMetadata
           storeMessageMetadata storeTransactionMetadata storeOutputMetadata];
      try done; rewrite lookup_insert_ne by congruence; done.
Qed.

(** The grade an entity has after the writes of a log is the one it had
    before them, or the one some write of the log stored for it. *)
Lemma replay_last_write (log : list Effect) (st st' : Storage) (x : Entity)
    (b : gof.GradeOfFinality) :
  replay st log = Some st' →
  gradeOf st' x = Some b →
  gradeOf st x = Some b ∨ ∃ old, Write x old b ∈ log.
Proof.
  revert st. induction log as [|e log IH]; intros st Hreplay Hb.
  { injection Hreplay as <-. by left. }
  destruct e as [ev|y old new]; cbn [replay] in Hreplay.
  { destruct (IH st Hreplay Hb) as [?|[old' ?]]; [by left|]. right. exists old'. set_solver. }
  destruct (decide (gradeOf st y = Some old)) as [Hold|]; [|done].
  destruct (IH _ Hreplay Hb) as [Hset|[old' ?]]; [|right; exists old'; set_solver].
  rewrite gradeOf_setGrade in Hset.
  destruct (decide (x = y)) as [->|Hne]; [|by left].
  rewrite Hold in Hset. injection Hset as ->. right. exists old. set_solver.
Qed.

Lemma announced_app (s : SimpleFinalityGadget) (log1 log2 : list Effect) :
  announced s log1 → announced s log2 → announced s (log1 ++ log2).
Proof.
  intros H1 H2 e Hin. apply elem_of_app in Hin as [Hin|Hin].
  - specialize (H1 e Hin). destruct e as [|[]]; try done; set_solver.
  - specialize (H2 e Hin). destruct e as [|[]]; try done; set_solver.
Qed.

Lemma announced_events (s : SimpleFinalityGadget) (evs : list Effect) :
  Forall (λ e, ∃ ev, e = Trigger ev) evs → announced s evs.
Proof.
  intros Hevs e Hin. rewrite Forall_forall in Hevs.
  by destruct (Hevs e Hin) as [ev ->].
Qed.

(** A write followed by the writes to the outputs and by the event of
    the entity written, when the grade reaches its level. *)
Lemma announced_raise (s : SimpleFinalityGadget) (x : Entity)
    (old new : gof.GradeOfFinality) (log2 evs : list Effect) :
  announced s log2 →
  Forall (λ e, ∃ ev, e = Trigger ev) evs →
  match x with
  | OfMessage messageID =>
      gof.rank (MessageGoFReachedLevel (opts s)) ≤ gof.rank new →
      Trigger (MessageConfirmed messageID) ∈ evs
  | OfTransaction transactionID =>
      gof.rank (BranchGoFReachedLevel (opts s)) ≤ gof.rank new →
      Trigger (TransactionConfirmed transactionID) ∈ evs
  | OfOutput _ => True
  end →
  announced s (Write x old new :: log2 ++ evs).
Proof.
  intros H2 Hevs Hx.
  change (announced s ([Write x old new] ++ log2 ++ evs)).
  intros e Hin. apply elem_of_app in Hin as [Hin|Hin].
  - apply list_elem_of_singleton in Hin as ->.
    destruct x; [| |done]; intros Hle; specialize (Hx Hle); set_solver.
  - pose proof (announced_app s log2 evs H2 (announced_events s evs Hevs) e Hin) as He.
    destruct e as [|[]]; try done; set_solver.
Qed.

Lemma announced_outputs (s : SimpleFinalityGadget) (outs : list OutputID)
    (g : gof.GradeOfFinality) (st : Storage) :
  announced s (setOutputsGoF st outs g).2.
Proof.
  destruct (setOutputsGoF_spec outs g st) as (_ & _ & _ & Hlog).
  rewrite Forall_forall in Hlog. intros e Hin.
  by destruct (Hlog e Hin) as (o & old & -> & _).
Qed.

Section Announced.

Variable s : SimpleFinalityGadget.

Lemma confirmation_event (g level : gof.GradeOfFinality) (ev : Event) :
  Forall (λ e, ∃ ev, e = Trigger ev) (if gof.geb g level then [Trigger ev] else [])
  ∧ (gof.rank level ≤ gof.rank g →
     Trigger ev ∈ (if gof.geb g level then [Trigger ev] else [])).
Proof.
  split.
  - destruct (gof.geb _ _); repeat constructor. by exists ev.
  - intros Hle. apply geb_true in Hle. rewrite Hle. set_solver.
Qed.

Lemma setPayloadGoF_announced (st : Storage) (messageID : MessageID)
    (g : gof.GradeOfFinality) :
  announced s (setPayloadGoF s st messageID g).2.
Proof.
  unfold setPayloadGoF.
  destruct (messages (tangle s) !! messageID) as [message|]; [|by intros e Hin; set_solver].
  destruct (payload message) as [transactionID|]; [|by intros e Hin; set_solver].
  destruct (transactionMetadata st !! transactionID) as [md|];
    [|by intros e Hin; set_solver].
  set (g' := if TransactionConflicting (tangle s) transactionID then _ else g).
  destruct (TransactionMetadata_SetGradeOfFinality_spec md g') as [[Hlt ->]|[Hle ->]];
    [|by intros e Hin; set_solver].
  cbn [negb].
  destruct (confirmation_event g' (BranchGoFReachedLevel (opts s))
              (TransactionConfirmed transactionID)) as [Hevs Hin].
  destruct (transactions (tangle s) !! transactionID) as [transaction|].
  - pose proof (announced_outputs s (Outputs transaction) g'
                  (storeTransactionMetadata st transactionID
                     (mkTransactionMetadata g' (tBranchID md)))) as Houts.
    destruct (setOutputsGoF _ _ _) as [st2 log2]. cbn [fst snd] in *.
    by apply announced_raise.
  - cbn [snd]. apply announced_raise; [by intros e He; set_solver|done|done].
Qed.

Lemma propagateGoF_announced (g : gof.GradeOfFinality) (st : Storage)
    (messageID : MessageID) (message : Message) (md : MessageMetadata) (w : walker.Walker) :
  announced s (propagateGoF s g st messageID message md w).2.
Proof.
  unfold propagateGoF.
  destruct (IsPastMarker md && _); [by intros e Hin; set_solver|].
  unfold setMessageGoF.
  destruct (MessageMetadata_SetGradeOfFinality_spec md g) as [[Hlt ->]|[Hle ->]];
    [|by intros e Hin; set_solver].
  cbn [negb].
  pose proof (setPayloadGoF_announced
                (storeMessageMetadata st messageID (mkMessageMetadata g (IsPastMarker md)))
                messageID g) as Hpay.
  destruct (setPayloadGoF s _ messageID g) as [st2 log2]. cbn [fst snd negb] in *.
  destruct (confirmation_event g (MessageGoFReachedLevel (opts s))
              (MessageConfirmed messageID)) as [Hevs Hin].
  by apply announced_raise.
Qed.

Lemma WalkMessageAndMetadata_announced (fuel : nat) (g : gof.GradeOfFinality)
    (w : walker.Walker) (st : Storage) :
  announced s (WalkMessageAndMetadata s fuel g w st).2.
Proof.
  revert w st. induction fuel as [|fuel IH]; intros w st; [by intros e Hin; set_solver|].
  cbn [WalkMessageAndMetadata].
  destruct w as [|messageID w]; [by intros e Hin; set_solver|].
  destruct (messages (tangle s) !! messageID) as [message|].
  - destruct (messageMetadata st !! messageID) as [md|].
    + pose proof (propagateGoF_announced g st messageID message md w) as Hstep.
      destruct (propagateGoF s g st messageID message md w) as [[st1 w1] log1].
      specialize (IH w1 st1).
      destruct (WalkMessageAndMetadata s fuel g w1 st1) as [[st2 w2] log2].
      by apply announced_app.
    + specialize (IH w st).
      by destruct (WalkMessageAndMetadata s fuel g w st) as [[st2 w2] log2].
  - specialize (IH w st).
    by destruct (WalkMessageAndMetadata s fuel g w st) as [[st2 w2] log2].
Qed.

Lemma forwardPropagateBranchGoFToTxs_announced (st : Storage)
    (candidateTxID : TransactionID) (branchID : BranchID) (g : gof.GradeOfFinality)
    (w : walker.Walker) :
  announced s (forwardPropagateBranchGoFToTxs s st candidateTxID branchID g w).2.
Proof.
  unfold forwardPropagateBranchGoFToTxs.
  destruct (transactionMetadata st !! candidateTxID) as [md|];
    [|by intros e Hin; set_solver].
  destruct (negb _); [by intros e Hin; set_solver|].
  destruct (gof.ltb (maxAttachmentGoF _ _ _) _); [by intros e Hin; set_solver|].
  destruct (TransactionMetadata_SetGradeOfFinality_spec md g) as [[Hlt ->]|[Hle ->]];
    [|by intros e Hin; set_solver].
  cbn [negb tGradeOfFinality].
  destruct (confirmation_event g (BranchGoFReachedLevel (opts s))
              (TransactionConfirmed candidateTxID)) as [Hevs Hin].
  set (st1 := storeTransactionMetadata _ _ _).
  destruct (transactions (tangle s) !! candidateTxID) as [transaction|].
  - pose proof (announced_outputs s (Outputs transaction) g st1) as Houts.
    destruct (adjustOutputsGoF_set s (Outputs transaction) g st1 ∅ w) as [_ Hlog].
    destruct (adjustOutputsGoF _ _ _ _ _ _) as [[[st2 c2] w2] log2].
    cbn [fst snd] in *. subst log2. by apply announced_raise.
  - cbn [snd]. apply announced_raise; [by intros e He; set_solver|done|done].
Qed.

Lemma propagateBranch_announced (fuel : nat) (branchID : BranchID)
    (g : gof.GradeOfFinality) (w : walker.Walker) (st : Storage) :
  announced s (propagateBranch s fuel branchID g w st).2.
Proof.
  revert w st. induction fuel as [|fuel IH]; intros w st; [by intros e Hin; set_solver|].
  cbn [propagateBranch].
  destruct w as [|candidateTxID w]; [by intros e Hin; set_solver|].
  pose proof (forwardPropagateBranchGoFToTxs_announced st candidateTxID branchID g w)
    as Hstep.
  destruct (forwardPropagateBranchGoFToTxs s st candidateTxID branchID g w)
    as [[st1 w1] log1].
  specialize (IH w1 st1).
  destruct (propagateBranch s fuel branchID g w1 st1) as [[st2 w2] log2].
  by apply announced_app.
Qed.

Lemma call_announced (st : Storage) (c : Call) : announced s (call s st c).1.2.
Proof.
  destruct c as [marker aw|branchID aw]; cbn [call].
  - unfold HandleMarker.
    destruct (gof.eqb _ _); [by intros e Hin; set_solver|].
    destruct (negb _); [by intros e Hin; set_solver|].
    pose proof (WalkMessageAndMetadata_announced
                  (S (markerPotential s (MessageTransFunc (opts s) aw) st))
                  (MessageTransFunc (opts s) aw)
                  [MarkersManager_MessageID (tangle s) marker] st) as Hloop.
    by destruct (WalkMessageAndMetadata _ _ _ _ _) as [[st1 w1] log1].
  - unfold HandleBranch.
    pose proof (propagateBranch_announced
                  (S (branchPotential s (BranchTransFunc (opts s) branchID aw) st))
                  branchID (BranchTransFunc (opts s) branchID aw)
                  (walker.Push (BranchID_TransactionID branchID) walker.New) st) as Hloop.
    destruct (propagateBranch _ _ _ _ _ _) as [[st1 w1] log1]. cbn [fst snd] in *.
    apply announced_app; [done|]. apply announced_events.
    destruct (gof.geb _ _); repeat constructor. eauto.
Qed.

Lemma run_announced (cs : list Call) (st : Storage) : announced s (run s st cs).2.
Proof.
  revert st. induction cs as [|c cs IH]; intros st; [by intros e Hin; set_solver|].
  cbn [run].
  pose proof (call_announced st c) as Hcall.
  destruct (call s st c) as [[st1 log1] err1]. cbn [fst snd] in *.
  specialize (IH st1). destruct (run s st1 cs) as [st2 log2]. cbn [fst snd] in *.
  by apply announced_app.
Qed.

End Announced.

(** X9: no confirmation is missed.  When a message is not confirmed before a
    sequence of calls and is confirmed after it, the calls emitted
    [MessageConfirmed] for it; when the grade of a transaction is below the
    branch level before the calls and at the branch level or above after
    them, the calls emitted [TransactionConfirmed] for it. *)
Theorem confirmations_are_announced (s : SimpleFinalityGadget) (st : Storage)
    (cs : list Call) :
  (∀ messageID,
     IsMessageConfirmed s st messageID = false →
     IsMessageConfirmed s (run s st cs).1 messageID = true →
     Trigger (MessageConfirmed messageID) ∈ (run s st cs).2)
  ∧ (∀ transactionID a b,
       transactionMetadata st !! transactionID = Some a →
       transactionMetadata (run s st cs).1 !! transactionID = Some b →
       gof.rank (tGradeOfFinality a) < gof.rank (BranchGoFReachedLevel (opts s)) →
       gof.rank (BranchGoFReachedLevel (opts s)) ≤ gof.rank (tGradeOfFinality b) →
       Trigger (TransactionConfirmed transactionID) ∈ (run s st cs).2).
Proof.
  pose proof (step_replay _ _ _ _ _ (run_step s cs st)) as Hreplay.
  pose proof (run_announced s cs st) as Hann.
  split.
  - intros m Hbefore Hafter. unfold IsMessageConfirmed in *.
    destruct (messageMetadata (run s st cs).1 !! m) as [b|] eqn:Hb; [|done].
    apply geb_true in Hafter.
    destruct (replay_last_write _ _ _ (OfMessage m) (mGradeOfFinality b) Hreplay)
      as [Hsame|[old Hin]].
    { cbn. by rewrite Hb. }
    + cbn in Hsame. destruct (messageMetadata st !! m) as [a|]; [|done].
      injection Hsame as Hsame. rewrite Hsame in Hbefore.
      apply geb_true in Hafter. congruence.
    + exact (Hann _ Hin Hafter).
  - intros T a b Ha Hb Hlt Hle.
    destruct (replay_last_write _ _ _ (OfTransaction T) (tGradeOfFinality b) Hreplay)
      as [Hsame|[old Hin]].
    { cbn. by rewrite Hb. }
    + cbn in Hsame. rewrite Ha in Hsame. injection Hsame as Hsame. rewrite Hsame in Hlt. lia.
    + exact (Hann _ Hin Hle).
Qed.

Lemma countOf_pos f x (log : list Effect) (e : Effect) :
  e ∈ log → f e = Some x → 0 < countOf f x log.
Proof.
  intros Hin He. induction log as [|e' log IH]; [set_solver|].
  cbn [countOf]. apply elem_of_cons in Hin as [<-|Hin].
  - rewrite decide_True by done. lia.
  - specialize (IH Hin). lia.
Qed.

(** An event of a call is about an entity that the call leaves at the
    level of the event or above. *)
Lemma call_event_confirmed (s : SimpleFinalityGadget) (st : Storage) (c : Call) :
  (∀ messageID,
     Trigger (MessageConfirmed messageID) ∈ (call s st c).1.2 →
     ∃ b, messageMetadata (call s st c).1.1 !! messageID = Some b
          ∧ gof.rank (MessageGoFReachedLevel (opts s)) ≤ gof.rank (mGradeOfFinality b))
  ∧ (∀ transactionID,
       Trigger (TransactionConfirmed transactionID) ∈ (call s st c).1.2 →
       ∃ b, transactionMetadata (call s st c).1.1 !! transactionID = Some b
            ∧ gof.rank (BranchGoFReachedLevel (opts s)) ≤ gof.rank (tGradeOfFinality b)).
Proof.
  assert (∃ cand,
            Once cand st (call s st c).1.1 (call s st c).1.2
            ∧ ∀ e, e ∈ (call s st c).1.2 →
                   match e with
                   | Trigger (MessageConfirmed messageID) =>
                       gof.rank (MessageGoFReachedLevel (opts s))
                       ≤ gof.rank (cand (OfMessage messageID))
                   | Trigger (TransactionConfirmed transactionID) =>
                       gof.rank (BranchGoFReachedLevel (opts s))
                       ≤ gof.rank (cand (OfTransaction transactionID))
                   | _ => True
                   end) as (cand & Honce & Hshape).
  { destruct c as [marker aw|branchID aw]; cbn [call].
    - exists (markerCandidate s (MessageTransFunc (opts s) aw)).
      split; [apply HandleMarker_once|].
      assert (Forall (handleMarkerEffect s (MessageTransFunc (opts s) aw))
                     (HandleMarker s st marker aw).1.2) as Hlog.
      { unfold HandleMarker.
        destruct (gof.eqb _ _); [constructor|].
        destruct (negb _); [constructor|].
        pose proof (WalkMessageAndMetadata_effects s (MessageTransFunc (opts s) aw)
                      (S (markerPotential s (MessageTransFunc (opts s) aw) st))
                      [MarkersManager_MessageID (tangle s) marker] st) as Hloop.
        by destruct (WalkMessageAndMetadata _ _ _ _ _) as [[st1 w1] log1]. }
      rewrite Forall_forall in Hlog. intros e Hin. specialize (Hlog e Hin).
      by destruct e as [[]|].
    - exists (λ _, BranchTransFunc (opts s) branchID aw).
      split; [apply HandleBranch_once|].
      assert (Forall (handleBranchEffect s branchID (BranchTransFunc (opts s) branchID aw))
                     (HandleBranch s st branchID aw).1.2) as Hlog.
      { unfold HandleBranch.
        pose proof (propagateBranch_effects s branchID
                      (BranchTransFunc (opts s) branchID aw)
                      (S (branchPotential s (BranchTransFunc (opts s) branchID aw) st))
                      (walker.Push (BranchID_TransactionID branchID) walker.New) st)
          as Hloop.
        destruct (propagateBranch _ _ _ _ _ _) as [[st1 w1] log1]. cbn [fst snd] in *.
        apply Forall_app. split; [done|].
        destruct (gof.geb _ _) eqn:Hge; repeat constructor. by apply geb_true. }
      rewrite Forall_forall in Hlog. intros e Hin. specialize (Hlog e Hin).
      by destruct e as [[]|]. }
  split.
  - intros m Hin. specialize (Hshape _ Hin). cbn in Hshape.
    destruct (Honce (OfMessage m) I) as (He & _ & Hw).
    pose proof (countOf_pos eventOf (OfMessage m) _ _ Hin eq_refl) as Hpos.
    destruct Hw as (a & b & _ & Hb & _ & Hle); [lia|].
    cbn in Hb. destruct (messageMetadata (call s st c).1.1 !! m) as [mb|]; [|done].
    injection Hb as <-. exists mb. split; [done|lia].
  - intros T Hin. specialize (Hshape _ Hin). cbn in Hshape.
    destruct (Honce (OfTransaction T) I) as (He & _ & Hw).
    pose proof (countOf_pos eventOf (OfTransaction T) _ _ Hin eq_refl) as Hpos.
    destruct Hw as (a & b & _ & Hb & _ & Hle); [lia|].
    cbn in Hb. destruct (transactionMetadata (call s st c).1.1 !! T) as [mb|]; [|done].
    injection Hb as <-. exists mb. split; [done|lia].
Qed.

(** X10: what is announced is confirmed.  A message for which a sequence of
    calls emitted [MessageConfirmed] is confirmed at the end of the
    sequence; a transaction for which it emitted [TransactionConfirmed] has,
    at the end, a grade at the branch level or above. *)
Theorem announced_are_confirmed (s : SimpleFinalityGadget) (cs : list Call) (st : Storage) :
  (∀ messageID,
     Trigger (MessageConfirmed messageID) ∈ (run s st cs).2 →
     IsMessageConfirmed s (run s st cs).1 messageID = true)
  ∧ (∀ transactionID,
       Trigger (TransactionConfirmed transactionID) ∈ (run s st cs).2 →
       ∃ b, transactionMetadata (run s st cs).1 !! transactionID = Some b
            ∧ gof.rank (BranchGoFReachedLevel (opts s)) ≤ gof.rank (tGradeOfFinality b)).
Proof.
  revert st. induction cs as [|c cs IH]; intros st; [split; intros ?; set_solver|].
  cbn [run].
  destruct (call_event_confirmed s st c) as [Hm1 Ht1].
  destruct (call s st c) as [[st1 log1] err1]. cbn [fst snd] in *.
  destruct (IH st1) as [Hm2 Ht2].
  pose proof (run_step s cs st1) as [Hrm Hrt _ _ _].
  destruct (run s st1 cs) as [st2 log2]. cbn [fst snd] in *.
  split.
  - intros m Hin. apply elem_of_app in Hin as [Hin|Hin]; [|by apply Hm2].
    destruct (Hm1 m Hin) as (b1 & Hb1 & Hle1).
    destruct (raised_lookup _ _ _ _ _ Hrm Hb1) as (b2 & Hb2 & Hle2).
    unfold IsMessageConfirmed. rewrite Hb2. apply geb_true.
    unfold message_le in Hle2. lia.
  - intros T Hin. apply elem_of_app in Hin as [Hin|Hin]; [|by apply Ht2].
    destruct (Ht1 T Hin) as (b1 & Hb1 & Hle1).
    destruct (raised_lookup _ _ _ _ _ Hrt Hb1) as (b2 & Hb2 & Hle2).
    exists b2. split; [done|]. unfold transaction_le in Hle2. lia.
Qed.

(** X11: a confirmation is final.  A message, a marker or a transaction that
    is confirmed stays confirmed through any sequence of calls; so does an
    output, when the transactions list outputs of their own and no output
    starts above the transaction that created it. *)
Theorem confirmed_stays_confirmed (s : SimpleFinalityGadget) (st : Storage)
    (cs : list Call) :
  (∀ messageID,
     IsMessageConfirmed s st messageID = true →
     IsMessageConfirmed s (run s st cs).1 messageID = true)
  ∧ (∀ marker,
       IsMarkerConfirmed s st marker = true →
       IsMarkerConfirmed s (run s st cs).1 marker = true)
  ∧ (∀ transactionID,
       IsTransactionConfirmed s st transactionID = true →
       IsTransactionConfirmed s (run s st cs).1 transactionID = true)
  ∧ (outputsOwned (tangle s) → outputsBelowCreator st →
     ∀ outputID,
       IsOutputConfirmed s st outputID = true →
       IsOutputConfirmed s (run s st cs).1 outputID = true).
Proof.
  pose proof (run_step s cs st) as [Hrm Hrt _ _ Hro].
  assert (∀ messageID,
            IsMessageConfirmed s st messageID = true →
            IsMessageConfirmed s (run s st cs).1 messageID = true) as Hmsg.
  { intros m. unfold IsMessageConfirmed.
    destruct (messageMetadata st !! m) as [a|] eqn:Ha; [|done].
    destruct (raised_lookup _ _ _ _ _ Hrm Ha) as (b & -> & Hle).
    rewrite !geb_true. unfold message_le in Hle. lia. }
  split; [done|]. split; [|split].
  - intros marker. unfold IsMarkerConfirmed. destruct (decide _); [done|]. apply Hmsg.
  - intros T. unfold IsTransactionConfirmed.
    destruct (transactionMetadata st !! T) as [a|] eqn:Ha; [|done].
    destruct (raised_lookup _ _ _ _ _ Hrt Ha) as (b & -> & Hle).
    rewrite !geb_true. unfold transaction_le in Hle. lia.
  - intros Hwf Hinv o. destruct (Hro Hwf Hinv) as (_ & Hr & _).
    unfold IsOutputConfirmed.
    destruct (outputMetadata st !! o) as [a|] eqn:Ha; [|done].
    destruct (raised_lookup _ _ _ _ _ Hr Ha) as (b & -> & Hle).
    rewrite !geb_true. unfold output_le in Hle. lia.
Qed.

(** ** What a call of [HandleMarker] reaches *)

Lemma Push_elem_of_2 (x y : nat) (w : walker.Walker) :
  x = y ∨ x ∈ w → x ∈ walker.Push y w.
Proof. unfold walker.Push. destruct (decide (y ∈ w)); set_solver. Qed.

Lemma PushAll_elem_of_2 (x : nat) (xs : list nat) (w : walker.Walker) :
  x ∈ xs ∨ x ∈ w → x ∈ walker.PushAll xs w.
Proof.
  unfold walker.PushAll. revert w. induction xs as [|y xs IH]; intros w; cbn [foldl].
  - set_solver.
  - intros [Hin|Hin]; apply IH.
    + apply elem_of_cons in Hin as [->|Hin]; [|by left].
      right. apply Push_elem_of_2. by left.
    + right. apply Push_elem_of_2. by right.
Qed.

Section MarkerReach.

Variable s : SimpleFinalityGadget.
Variable g : gof.GradeOfFinality.
Variable root : MessageID.
Variable st0 : Storage.

(** What the callback does to the metadata of the messages and to the
    worklist. *)
Lemma propagateGoF_messages (st : Storage) (messageID : MessageID) (message : Message)
    (md : MessageMetadata) (w : walker.Walker) :
  (gof.rank g ≤ gof.rank (mGradeOfFinality md)
   ∧ messageMetadata (propagateGoF s g st messageID message md w).1.1 = messageMetadata st
   ∧ (propagateGoF s g st messageID message md w).1.2 = w)
  ∨ (gof.rank (mGradeOfFinality md) < gof.rank g
     ∧ messageMetadata (propagateGoF s g st messageID message md w).1.1
       = <[messageID := mkMessageMetadata g (IsPastMarker md)]> (messageMetadata st)
     ∧ (propagateGoF s g st messageID message md w).1.2
       = walker.PushAll (strongParents message) w).
Proof.
  unfold propagateGoF.
  destruct (IsPastMarker md && _) eqn:Hprune.
  { left. apply andb_true_iff in Hprune as [_ Hge]. by apply geb_true in Hge. }
  unfold setMessageGoF.
  destruct (MessageMetadata_SetGradeOfFinality_spec md g) as [[Hlt ->]|[Hle ->]];
    [|by left].
  cbn [negb]. right.
  pose proof (setPayloadGoF_messages s
                (storeMessageMetadata st messageID (mkMessageMetadata g (IsPastMarker md)))
                messageID g) as Hpay.
  by destruct (setPayloadGoF s _ messageID g) as [st2 log2].
Qed.

#[local] Abbreviation pending st w :=
  (∀ y, target s g root st0 st y → y ∈ w ∨ settled s g st y).

Lemma settled_ext (st st' : Storage) (y : MessageID) :
  messageMetadata st' = messageMetadata st → settled s g st y → settled s g st' y.
Proof. unfold settled. by intros ->. Qed.

Lemma target_ext (st st' : Storage) (y : MessageID) :
  messageMetadata st' = messageMetadata st →
  target s g root st0 st' y → target s g root st0 st y.
Proof. unfold target. by intros ->. Qed.

Lemma WalkMessageAndMetadata_pending (fuel : nat) (w : walker.Walker) (st : Storage) :
  pending st w →
  pending (WalkMessageAndMetadata s fuel g w st).1.1
          (WalkMessageAndMetadata s fuel g w st).1.2.
Proof.
  revert w st. induction fuel as [|fuel IH]; intros w st Hinv; [done|].
  cbn [WalkMessageAndMetadata].
  destruct w as [|messageID w]; [done|].
  assert (settled s g st messageID → pending st w) as Hskip.
  { intros Hset y Hy. destruct (Hinv y Hy) as [Hin|?]; [|by right].
    apply elem_of_cons in Hin as [->|Hin]; auto. }
  destruct (messages (tangle s) !! messageID) as [message|] eqn:Hmsg; cycle 1.
  { specialize (IH w st). 
    destruct (WalkMessageAndMetadata s fuel g w st) as [[st2 w2] log2].
    apply IH, Hskip. unfold settled. by rewrite Hmsg. }
  destruct (messageMetadata st !! messageID) as [md|] eqn:Hmd; cycle 1.
  { specialize (IH w st).
    destruct (WalkMessageAndMetadata s fuel g w st) as [[st2 w2] log2].
    apply IH, Hskip. unfold settled. by rewrite Hmsg, Hmd. }
  pose proof (propagateGoF_messages st messageID message md w) as Hstep.
  destruct (propagateGoF s g st messageID message md w) as [[st1 w1] log1].
  cbn [fst snd] in Hstep.
  specialize (IH w1 st1).
  destruct (WalkMessageAndMetadata s fuel g w1 st1) as [[st2 w2] log2].
  apply IH. clear IH.
  destruct Hstep as [(Hge & Hsame & ->)|(Hlt & Hnew & ->)].
  - intros y Hy. apply (target_ext st) in Hy; [|done].
    destruct (Hskip ltac:(unfold settled; by rewrite Hmsg, Hmd) y Hy) as [?|Hset];
      [by left|].
    right. by apply (settled_ext st).
  - assert (settled s g st1 messageID) as Hz.
    { unfold settled. by rewrite Hmsg, Hnew, lookup_insert_eq. }
    assert (∀ y, settled s g st y → settled s g st1 y) as Hmono.
    { intros y. destruct (decide (y = messageID)) as [->|Hne]; [done|].
      unfold settled. by rewrite Hnew, lookup_insert_ne. }
    assert (∀ y, target s g root st0 st y → y ∈ walker.PushAll (strongParents message) w
                                            ∨ settled s g st1 y) as Hold.
    { intros y Hy. destruct (Hinv y Hy) as [Hin|Hset]; [|auto].
      apply elem_of_cons in Hin as [->|Hin]; [auto|].
      left. apply PushAll_elem_of_2. auto. }
    intros y [->|(x & xmd & Hxy & Hx & Hxge)]; [apply Hold; by left|].
    destruct (decide (x = messageID)) as [->|Hne].
    + destruct Hxy as (message' & md' & Hmsg' & _ & _ & Hin).
      rewrite Hmsg in Hmsg'. injection Hmsg' as <-.
      left. apply PushAll_elem_of_2. auto.
    + rewrite Hnew, lookup_insert_ne in Hx by done.
      apply Hold. right. eauto.
Qed.

End MarkerReach.

(** The messages reached from the message of the marker through strong
    parents of messages below the candidate are settled by [HandleMarker]. *)
Lemma HandleMarker_settles (s : SimpleFinalityGadget) (st : Storage) (marker : Marker)
    (aw : Q) (messageID : MessageID) :
  rtc (belowParent s (MessageTransFunc (opts s) aw) st)
      (MarkersManager_MessageID (tangle s) marker) messageID →
  gof.rank (MessageTransFunc (opts s) aw) = 0
  ∨ settled s (MessageTransFunc (opts s) aw) (HandleMarker s st marker aw).1.1 messageID.
Proof.
  set (g := MessageTransFunc (opts s) aw).
  set (root := MarkersManager_MessageID (tangle s) marker).
  intros Hreach.
  destruct (decide (gof.rank g = 0)) as [?|Hpos]; [by left|]. right.
  pose proof (step_messages _ _ _ _ _ (HandleMarker_step s (λ _, False) st marker aw))
    as Hraised.
  assert (∀ y, target s g root st (HandleMarker s st marker aw).1.1 y →
               settled s g (HandleMarker s st marker aw).1.1 y) as Hdone.
  { unfold HandleMarker. fold g root.
    assert (∀ y, messageMetadata st !! root = None
                 ∨ (∃ md, messageMetadata st !! root = Some md
                          ∧ gof.rank g ≤ gof.rank (mGradeOfFinality md)) →
                 target s g root st st y → settled s g st y) as Hguard.
    { intros y Hroot [->|(x & xmd & (m & md & _ & Hmd & Hlt & _) & Hx & Hge)].
      - unfold settled. destruct (messages (tangle s) !! root); [|done].
        by destruct Hroot as [->|(md & -> & Hge)].
      - rewrite Hmd in Hx. injection Hx as ->. lia. }
    destruct (gof.eqb g gof.None) eqn:Heqb.
    { apply eqb_None_true in Heqb. rewrite Heqb in Hpos. done. }
    destruct (messageMetadata st !! root) as [md|] eqn:Hmd; cycle 1.
    { cbn [negb fst]. intros y. apply Hguard. auto. }
    destruct (gof.ltb (mGradeOfFinality md) g) eqn:Hlt; cycle 1.
    { cbn [negb fst]. intros y. apply Hguard. right. exists md.
      by apply ltb_false in Hlt. }
    cbn [negb].
    pose proof (WalkMessageAndMetadata_pending s g root st
                  (S (markerPotential s g st)) [root] st) as Hloop.
    destruct (WalkMessageAndMetadata_drains s g (S (markerPotential s g st)) [root] st)
      as [Hnil _]; [cbn; lia|].
    destruct (WalkMessageAndMetadata _ _ _ _ _) as [[st1 w1] log1]. cbn [fst snd] in *.
    subst w1. intros y Hy. destruct (Hloop) with (y := y) as [Hin|?]; [| |set_solver|done].
    - intros y' [->|(x & xmd & (m & md' & _ & Hmd' & Hlt' & _) & Hx & Hge)]; [set_solver|].
      rewrite Hmd' in Hx. injection Hx as ->. lia.
    - done. }
  revert messageID Hreach.
  apply (rtc_ind_r (λ m, settled s g (HandleMarker s st marker aw).1.1 m));
    [apply Hdone; by left|].
  intros x y Hx Hxy IH. apply Hdone. right.
  destruct Hxy as (message & md & Hmsg & Hmd & Hlt & Hin).
  destruct (raised_lookup _ _ _ _ _ Hraised Hmd) as (b & Hb & _).
  exists x, b. split; [by exists message, md|]. split; [done|].
  unfold settled in IH. by rewrite Hmsg, Hb in IH.
Qed.

(** X12: [HandleMarker] reaches the whole past cone it is meant for: every
    stored message that is reached from the message of the marker through
    strong parents of stored messages that were below the candidate has,
    after the call, a grade at the candidate or above. *)
Theorem HandleMarker_raises_past_cone (s : SimpleFinalityGadget) (st : Storage)
    (marker : Marker) (aw : Q) (messageID : MessageID) (message : Message)
    (md : MessageMetadata) :
  rtc (belowParent s (MessageTransFunc (opts s) aw) st)
      (MarkersManager_MessageID (tangle s) marker) messageID →
  messages (tangle s) !! messageID = Some message →
  messageMetadata st !! messageID = Some md →
  ∃ b, messageMetadata (HandleMarker s st marker aw).1.1 !! messageID = Some b
       ∧ gof.rank (MessageTransFunc (opts s) aw) ≤ gof.rank (mGradeOfFinality b).
Proof.
  intros Hreach Hmsg Hmd.
  pose proof (step_messages _ _ _ _ _ (HandleMarker_step s (λ _, False) st marker aw))
    as Hraised.
  destruct (raised_lookup _ _ _ _ _ Hraised Hmd) as (b & Hb & _).
  exists b. split; [done|].
  destruct (HandleMarker_settles s st marker aw messageID Hreach) as [->|Hset]; [lia|].
  unfold settled in Hset. by rewrite Hmsg, Hb in Hset.
Qed.

Lemma HandleMarker_raises_past_cone_witness :
  ∃ b, messageMetadata (HandleMarker cascadeGadget cascadeStorage (1, 1) (6 # 10)).1.1 !! 11
       = Some b
       ∧ gof.rank (MessageTransFunc (opts cascadeGadget) (6 # 10))
         ≤ gof.rank (mGradeOfFinality b).
Proof.
  apply (HandleMarker_raises_past_cone cascadeGadget cascadeStorage (1, 1) (6 # 10) 11
           (mkMessage [] (Some 5)) (mkMessageMetadata gof.None false)).
  - apply rtc_once. exists (mkMessage [11] None), (mkMessageMetadata gof.None true).
    split; [reflexivity|]. split; [reflexivity|]. split; [vm_compute; lia|].
    cbn. apply list_elem_of_singleton. reflexivity.
  - reflexivity.
  - reflexivity.
Defined.

(** ** The loops end *)

(** X13: the loops of [HandleBranch] and of [HandleMarker] end.  The loop
    of [HandleBranch] empties its worklist after at most one step more than
    the cost of the transactions below the candidate (a transaction costs
    one step and one for every consumer of its outputs); the walk of
    [HandleMarker] after at most one step more than the cost of the
    messages below the candidate (a message costs one step and one for
    every strong parent).  More steps change nothing. *)
Theorem handlers_run_to_completion (s : SimpleFinalityGadget) (st : Storage) :
  (∀ branchID aw,
     let g := BranchTransFunc (opts s) branchID aw in
     let w := walker.Push (BranchID_TransactionID branchID) walker.New in
     (propagateBranch s (S (branchPotential s g st)) branchID g w st).1.2 = []
     ∧ ∀ fuel, S (branchPotential s g st) ≤ fuel →
               propagateBranch s fuel branchID g w st
               = propagateBranch s (S (branchPotential s g st)) branchID g w st)
  ∧ (∀ marker aw,
       let g := MessageTransFunc (opts s) aw in
       let w := [MarkersManager_MessageID (tangle s) marker] in
       (WalkMessageAndMetadata s (S (markerPotential s g st)) g w st).1.2 = []
       ∧ ∀ fuel, S (markerPotential s g st) ≤ fuel →
                 WalkMessageAndMetadata s fuel g w st
                 = WalkMessageAndMetadata s (S (markerPotential s g st)) g w st).
Proof.
  split.
  - intros branchID aw g w. apply propagateBranch_drains. subst w.
    rewrite Push_New. cbn. lia.
  - intros marker aw g w. apply WalkMessageAndMetadata_drains. cbn. lia.
Qed.

(** ** The configuration of the ledger state *)

(** X14: [Configure] never leaves the options nil and never touches the
    embedded parts of the ledger state.  Configuring twice is configuring
    once with the options of the first call followed by those of the
    second: the second call keeps what the first one set, and creates no
    new store.  The default store, a new map database, is used only when the
    options were nil. *)
Theorem Configure_composes (KVStore CacheTimeProviderT UTXODAG BranchDAG
    ConfirmationOracle : Type) (NewMapDB : KVStore)
    (l : ledgerstate.Ledgerstate KVStore CacheTimeProviderT UTXODAG BranchDAG
           ConfirmationOracle)
    (options1 options2 : list (ledgerstate.Option KVStore CacheTimeProviderT)) :
  ledgerstate.Configure _ _ _ _ _ NewMapDB
    (ledgerstate.Configure _ _ _ _ _ NewMapDB l options1) options2
  = ledgerstate.Configure _ _ _ _ _ NewMapDB l (options1 ++ options2)
  ∧ ledgerstate.Ledgerstate_Options _ _ _ _ _
      (ledgerstate.Configure _ _ _ _ _ NewMapDB l options1) ≠ None
  ∧ ledgerstate.Ledgerstate_UTXODAG _ _ _ _ _
      (ledgerstate.Configure _ _ _ _ _ NewMapDB l options1)
    = ledgerstate.Ledgerstate_UTXODAG _ _ _ _ _ l
  ∧ ledgerstate.Ledgerstate_BranchDAG _ _ _ _ _
      (ledgerstate.Configure _ _ _ _ _ NewMapDB l options1)
    = ledgerstate.Ledgerstate_BranchDAG _ _ _ _ _ l
  ∧ ledgerstate.Ledgerstate_ConfirmationOracle _ _ _ _ _
      (ledgerstate.Configure _ _ _ _ _ NewMapDB l options1)
    = ledgerstate.Ledgerstate_ConfirmationOracle _ _ _ _ _ l
  ∧ ledgerstate.Configure _ _ _ _ _ NewMapDB l []
    = ledgerstate.mkLedgerstate _ _ _ _ _
        (Some (default (ledgerstate.mkOptions _ _ NewMapDB None)
                       (ledgerstate.Ledgerstate_Options _ _ _ _ _ l)))
        (ledgerstate.Ledgerstate_UTXODAG _ _ _ _ _ l)
        (ledgerstate.Ledgerstate_BranchDAG _ _ _ _ _ l)
        (ledgerstate.Ledgerstate_ConfirmationOracle _ _ _ _ _ l)
  ∧ (∀ store,
       ledgerstate.Options_Store _ _
       <$> ledgerstate.Ledgerstate_Options _ _ _ _ _
             (ledgerstate.Configure _ _ _ _ _ NewMapDB l
                (options1 ++ [ledgerstate.Store _ _ store]))
       = Some store).
Proof.
  unfold ledgerstate.Configure. cbn.
  split; [by rewrite foldl_app|]. do 4 (split; [done|]). split.
  - by destruct (ledgerstate.Ledgerstate_Options _ _ _ _ _ l).
  - intros store. by rewrite foldl_app.
Qed.

(** ** The mocked transactions of the test framework *)

Lemma Uint64_PutUint64 (b b' : list Z) (v : Z) :
  (0 ≤ v < 2 ^ 64)%Z → ledger.PutUint64 b v = Some b' → ledger.Uint64 b' = v.
Proof.
  intros Hv. unfold ledger.PutUint64. destruct (decide _); [done|].
  intros [= <-]. unfold ledger.Uint64, ledger.byte. cbn [app].
  rewrite !Z.shiftr_div_pow2 by lia.
  change (2 ^ 56)%Z with 72057594037927936%Z.
  change (2 ^ 48)%Z with 281474976710656%Z.
  change (2 ^ 40)%Z with 1099511627776%Z.
  change (2 ^ 32)%Z with 4294967296%Z.
  change (2 ^ 24)%Z with 16777216%Z.
  change (2 ^ 16)%Z with 65536%Z.
  change (2 ^ 8)%Z with 256%Z.
  change (2 ^ 64)%Z with 18446744073709551616%Z in Hv.
  Z.to_euclidean_division_equations. lia.
Qed.

Lemma NewMockedTransaction_Uint64 (inputs : list ledger.MockedInput) (outputCount : nat)
    (counter : Z) :
  ledger.Uint64 (ledger.MockedTransaction_ID
                   (ledger.NewMockedTransaction inputs outputCount counter).1)
  = ((counter + 1) `mod` 2 ^ 64)%Z
  ∧ (ledger.NewMockedTransaction inputs outputCount counter).2
    = ((counter + 1) `mod` 2 ^ 64)%Z.
Proof.
  split; [|done]. unfold ledger.NewMockedTransaction. cbn [fst ledger.MockedTransaction_ID].
  destruct (ledger.PutUint64 ledger.zeroIdentifier _) as [b|] eqn:Hb; [|done].
  cbn [default]. eapply Uint64_PutUint64; [|exact Hb].
  apply Z.mod_pos_bound. lia.
Qed.

Lemma NewMockedTransactions_lookup (requests : list (list ledger.MockedInput * nat))
    (counter : Z) (k : nat) (tx : ledger.MockedTransaction) :
  ledger.NewMockedTransactions requests counter !! k = Some tx →
  ledger.Uint64 (ledger.MockedTransaction_ID tx)
  = ((counter + Z.of_nat k + 1) `mod` 2 ^ 64)%Z.
Proof.
  revert counter k. induction requests as [|[inputs n] requests IH]; intros counter k; [done|].
  cbn [ledger.NewMockedTransactions].
  destruct (NewMockedTransaction_Uint64 inputs n counter) as [Hid Hc].
  destruct (ledger.NewMockedTransaction inputs n counter) as [tx1 c1]. cbn [fst snd] in *.
  destruct k as [|k]; cbn [lookup list_lookup].
  - intros [= <-]. rewrite Hid. f_equal. lia.
  - intros Hk. rewrite (IH _ _ Hk), Hc.
    rewrite <- Z.add_assoc, Z.add_mod_idemp_l by lia. f_equal. lia.
Qed.

(** X15: fewer than 2^64 successive calls of [NewMockedTransaction] give
    transactions with pairwise different identifiers, whatever the counter
    of the unique essences is at the start; and the identifier of a mocked
    transaction is the empty transaction identifier, the one of the genesis,
    only for the call on which the counter wraps around to zero. *)
Theorem NewMockedTransaction_unique_IDs (requests : list (list ledger.MockedInput * nat))
    (counter : Z) :
  (Z.of_nat (length requests) ≤ 2 ^ 64)%Z →
  NoDup (ledger.MockedTransaction_ID <$> ledger.NewMockedTransactions requests counter)
  ∧ ∀ inputs outputCount,
      ledger.MockedTransaction_ID (ledger.NewMockedTransaction inputs outputCount counter).1
      = ledger.EmptyTransactionID
      ↔ ((counter + 1) `mod` 2 ^ 64 = 0)%Z.
Proof.
  intros Hlen. split.
  - apply NoDup_alt. intros i j id Hi Hj.
    apply list_lookup_fmap_Some in Hi as (txi & Hidi & Hi).
    apply list_lookup_fmap_Some in Hj as (txj & Hidj & Hj).
    pose proof (lookup_lt_Some _ _ _ Hi) as Hli.
    pose proof (lookup_lt_Some _ _ _ Hj) as Hlj.
    assert (length (ledger.NewMockedTransactions requests counter) = length requests)
      as Hsame.
    { clear. revert counter. induction requests as [|[inputs n] requests IH];
        intros counter; [done|].
      cbn [ledger.NewMockedTransactions].
      destruct (ledger.NewMockedTransaction inputs n counter) as [tx1 c1].
      cbn [length]. by rewrite IH. }
    apply NewMockedTransactions_lookup in Hi, Hj.
    rewrite <- Hidi, <- Hidj in *. rewrite Hi in Hj.
    change (2 ^ 64)%Z with 18446744073709551616%Z in *.
    Z.to_euclidean_division_equations. lia.
  - intros inputs n.
    destruct (NewMockedTransaction_Uint64 inputs n counter) as [Hid _].
    split.
    + intros Hempty. by rewrite Hempty in Hid.
    + intros Hzero. unfold ledger.NewMockedTransaction.
      cbn [fst ledger.MockedTransaction_ID]. by rewrite Hzero.
Qed.

Lemma NewMockedTransaction_unique_IDs_witness :
  NoDup (ledger.MockedTransaction_ID
         <$> ledger.NewMockedTransactions [([], 1); ([], 2)] 0)
  ∧ ∀ inputs outputCount,
      ledger.MockedTransaction_ID (ledger.NewMockedTransaction inputs outputCount 0).1
      = ledger.EmptyTransactionID
      ↔ ((0 + 1) `mod` 2 ^ 64 = 0)%Z.
Proof. apply (NewMockedTransaction_unique_IDs [([], 1); ([], 2)] 0). cbn. lia. Defined.

#[global] Instance outputAlias_inj (txAlias : string) : Inj (=) (=) (ledger.outputAlias txAlias).
Proof.
  intros i j Heq. unfold ledger.outputAlias in Heq.
  apply (inj (String.app txAlias)) in Heq.
  apply (inj (String.app ".")) in Heq.
  by apply (inj pretty) in Heq.
Qed.

Lemma foldl_insert_seq_lookup {A} (key : nat → string) `{!Inj (=) (=) key}
    (f : nat → A) (m : gmap string A) (n i : nat) :
  i < n →
  foldl (λ m i, <[key i := f i]> m) m (seq 0 n) !! key i = Some (f i).
Proof.
  induction n as [|n IH]; [lia|]. intros Hi.
  rewrite seq_S, foldl_app. cbn [foldl Nat.add].
  destruct (decide (i = n)) as [->|Hne]; [by rewrite lookup_insert_eq|].
  rewrite lookup_insert_ne; [apply IH; lia|].
  intros Heq. by apply (inj key) in Heq.
Qed.

(** X16: [CreateTransaction] panics exactly when an input alias is not
    registered.  Otherwise the alias of the transaction resolves to a
    transaction with the output count asked for, whose inputs are the
    outputs that the input aliases resolve to; executing it in the mocked
    VM gives that many outputs and no error; and the alias of its output
    [i], the alias of the transaction followed by a dot and [i] in decimal,
    resolves to the identifier of the output [i] that the execution
    gives. *)
Theorem CreateTransaction_registers (NewOutputID : ledger.TransactionID → nat → ledger.OutputID)
    (TransactionMetadata : Type) (t : ledger.TestFramework TransactionMetadata)
    (txAlias : string) (outputCount : nat) (inputAliases : list string) (counter : Z) :
  match ledger.CreateTransaction NewOutputID _ t txAlias outputCount inputAliases counter with
  | None => ∃ alias, alias ∈ inputAliases ∧ ledger.TestFramework_OutputID _ t alias = None
  | Some (t', counter') =>
      Forall (λ alias, is_Some (ledger.TestFramework_OutputID _ t alias)) inputAliases
      ∧ ∃ tx,
          ledger.Transaction _ t' txAlias = Some tx
          ∧ ledger.OutputCount tx = outputCount
          ∧ Some <$> (ledger.ResolveInput <$> ledger.Inputs tx)
            = ledger.TestFramework_OutputID _ t <$> inputAliases
          ∧ (ledger.ExecuteTransaction NewOutputID tx).2 = None
          ∧ length (ledger.ExecuteTransaction NewOutputID tx).1 = outputCount
          ∧ ∀ i, i < outputCount →
                 ledger.TestFramework_OutputID _ t' (ledger.outputAlias txAlias i)
                 = ledger.MockedOutput_ID <$> (ledger.ExecuteTransaction NewOutputID tx).1 !! i
  end.
Proof.
  unfold ledger.CreateTransaction.
  destruct (mapM _ inputAliases) as [mockedInputs|] eqn:Hm; cbn [mbind option_bind].
  - apply mapM_Some in Hm.
    split.
    { clear -Hm. induction Hm as [|a x l k Ha _ IH]; constructor; [|done].
      destruct (ledger.TestFramework_OutputID _ t a); [by eexists|done]. }
    eexists. cbn [fst snd ledger.NewMockedTransaction].
    unfold ledger.Transaction, ledger.TestFramework_OutputID.
    cbn [ledger.transactionsByAlias ledger.outputIDsByAlias].
    split; [apply lookup_insert_eq|].
    cbn [ledger.OutputCount ledger.Inputs ledger.ExecuteTransaction fst snd].
    split; [done|]. split.
    { clear -Hm. induction Hm as [|a x l k Ha _ IH]; [done|].
      rewrite !fmap_cons, IH. f_equal.
      unfold ledger.TestFramework_OutputID in Ha.
      destruct (ledger.outputIDsByAlias _ t !! a); [|done].
      cbn in Ha. by injection Ha as <-. }
    split; [done|]. split; [by rewrite length_fmap, length_seq|].
    intros i Hi.
    rewrite (foldl_insert_seq_lookup (ledger.outputAlias txAlias)
               (λ i, ledger.MockOutputFromTx NewOutputID _ i)) by done.
    rewrite list_lookup_fmap, lookup_seq_lt by done. done.
  - apply mapM_None in Hm. apply Exists_exists in Hm as (a & Hin & Ha).
    exists a. split; [done|].
    by destruct (ledger.TestFramework_OutputID _ t a).
Qed.

Lemma AllBooked_loop_true (TransactionMetadata : Type) (IsBooked : TransactionMetadata → bool)
    (t : ledger.TestFramework TransactionMetadata) (failed : list ledger.TransactionID)
    (txAliases : list string) :
  fst <$> ledger.AllBooked_loop _ IsBooked t true failed txAliases = Some true
  ↔ Forall (λ txAlias,
              ∃ tx, ledger.Transaction _ t txAlias = Some tx
                    ∧ match ledger.transactionMetadataStorage _ t
                            !! ledger.MockedTransaction_ID tx with
                      | Some txMetadata => IsBooked txMetadata = true
                      | None => True
                      end) txAliases.
Proof.
  revert failed. induction txAliases as [|a rest IH]; intros failed.
  { split; [constructor|done]. }
  cbn [ledger.AllBooked_loop]. rewrite Forall_cons.
  destruct (ledger.Transaction _ t a) as [tx|]; cbn [mbind option_bind]; cycle 1.
  { split; [done|]. by intros [(tx & ? & _) _]. }
  destruct (ledger.transactionMetadataStorage _ t !! ledger.MockedTransaction_ID tx)
    as [md|] eqn:Hmd.
  - destruct (IsBooked md) eqn:Hb; cbn [negb].
    + rewrite IH. split; [|by intros [_ ?]].
      intros Hrest. split; [|done]. exists tx. by rewrite Hmd.
    + split; [done|]. intros [(tx' & [= <-] & Hb') _]. rewrite Hmd in Hb'. congruence.
  - cbn [negb]. rewrite IH. split; [|by intros [_ ?]].
    intros Hrest. split; [|done]. exists tx. by rewrite Hmd.
Qed.

Lemma AllBooked_loop_None (TransactionMetadata : Type) (IsBooked : TransactionMetadata → bool)
    (t : ledger.TestFramework TransactionMetadata) (failed : list ledger.TransactionID)
    (txAliases : list string) :
  ledger.AllBooked_loop _ IsBooked t true failed txAliases = None
  ↔ ∃ before txAlias rest,
      txAliases = before ++ txAlias :: rest
      ∧ ledger.Transaction _ t txAlias = None
      ∧ Forall (λ txAlias,
                  ∃ tx, ledger.Transaction _ t txAlias = Some tx
                        ∧ match ledger.transactionMetadataStorage _ t
                                !! ledger.MockedTransaction_ID tx with
                          | Some txMetadata => IsBooked txMetadata = true
                          | None => True
                          end) before.
Proof.
  revert failed. induction txAliases as [|a l IH]; intros failed.
  { split; [done|]. intros (before & a & rest & Heq & _). by destruct before. }
  cbn [ledger.AllBooked_loop].
  destruct (ledger.Transaction _ t a) as [tx|] eqn:Ha; cbn [mbind option_bind]; cycle 1.
  { split; [|done]. intros _. by exists [], a, l. }
  assert (∀ P : Prop,
            (P ↔ ∃ before txAlias rest,
                   l = before ++ txAlias :: rest
                   ∧ ledger.Transaction _ t txAlias = None
                   ∧ Forall (λ txAlias,
                               ∃ tx, ledger.Transaction _ t txAlias = Some tx
                                     ∧ match ledger.transactionMetadataStorage _ t
                                             !! ledger.MockedTransaction_ID tx with
                                       | Some txMetadata => IsBooked txMetadata = true
                                       | None => True
                                       end) before) →
            match ledger.transactionMetadataStorage _ t !! ledger.MockedTransaction_ID tx with
            | Some txMetadata => IsBooked txMetadata = true
            | None => True
            end →
            (P ↔ ∃ before txAlias rest,
                   a :: l = before ++ txAlias :: rest
                   ∧ ledger.Transaction _ t txAlias = None
                   ∧ Forall (λ txAlias,
                               ∃ tx, ledger.Transaction _ t txAlias = Some tx
                                     ∧ match ledger.transactionMetadataStorage _ t
                                             !! ledger.MockedTransaction_ID tx with
                                       | Some txMetadata => IsBooked txMetadata = true
                                       | None => True
                                       end) before)) as Hcons.
  { intros P HP Hcont. rewrite HP. split.
    - intros (before & b & rest & -> & Hb & Hall).
      exists (a :: before), b, rest. split; [done|]. split; [done|].
      constructor; [|done]. by exists tx.
    - intros (before & b & rest & Heq & Hb & Hall).
      destruct before as [|a' before]; cbn in Heq.
      { injection Heq as <- <-. congruence. }
      injection Heq as <- ->. apply Forall_cons in Hall as [_ Hall].
      by exists before, b, rest. }
  destruct (ledger.transactionMetadataStorage _ t !! ledger.MockedTransaction_ID tx)
    as [md|] eqn:Hmd.
  - destruct (IsBooked md) eqn:Hbk; cbn [negb].
    + apply Hcons; [apply IH|done].
    + split; [done|]. intros (before & b & rest & Heq & Hb & Hall).
      destruct before as [|a' before]; cbn in Heq.
      { injection Heq as <- <-. congruence. }
      injection Heq as <- ->. apply Forall_cons in Hall as [(tx' & Ha' & Hc) _].
      rewrite Ha in Ha'. injection Ha' as <-. rewrite Hmd in Hc. congruence.
  - cbn [negb]. apply Hcons; [apply IH|done].
Qed.

(** X17: [AllBooked] of no alias is false.  It returns true exactly when
    there is a first alias, the metadata of its transaction is stored and
    booked, and every alias after it names a transaction whose metadata is
    booked or is not stored at all: a transaction without metadata after
    the first one keeps the answer true.  It panics exactly when it comes to
    an alias that is not registered: when such an alias is the first, or
    comes right after aliases for which the answer is true.  In every other
    case it returns false. *)
Theorem AllBooked_true (TransactionMetadata : Type) (IsBooked : TransactionMetadata → bool)
    (t : ledger.TestFramework TransactionMetadata) (txAliases : list string) :
  ledger.AllBooked _ IsBooked t [] = Some (false, [])
  ∧ (fst <$> ledger.AllBooked _ IsBooked t txAliases = Some true
     ↔ ∃ txAlias rest tx txMetadata,
         txAliases = txAlias :: rest
         ∧ ledger.Transaction _ t txAlias = Some tx
         ∧ ledger.transactionMetadataStorage _ t !! ledger.MockedTransaction_ID tx
           = Some txMetadata
         ∧ IsBooked txMetadata = true
         ∧ Forall (λ txAlias,
                     ∃ tx, ledger.Transaction _ t txAlias = Some tx
                           ∧ match ledger.transactionMetadataStorage _ t
                                   !! ledger.MockedTransaction_ID tx with
                             | Some txMetadata => IsBooked txMetadata = true
                             | None => True
                             end) rest)
  ∧ (∀ txAlias rest,
       ledger.Transaction _ t txAlias = None →
       ledger.AllBooked _ IsBooked t (txAlias :: rest) = None)
  ∧ (ledger.AllBooked _ IsBooked t txAliases = None
     ↔ ∃ before txAlias rest,
         txAliases = before ++ txAlias :: rest
         ∧ ledger.Transaction _ t txAlias = None
         ∧ (before = [] ∨ fst <$> ledger.AllBooked _ IsBooked t before = Some true))
  ∧ (fst <$> ledger.AllBooked _ IsBooked t txAliases = Some false
     ↔ ledger.AllBooked _ IsBooked t txAliases ≠ None
       ∧ fst <$> ledger.AllBooked _ IsBooked t txAliases ≠ Some true).
Proof.
  split; [done|]. split; cycle 1.
  { split.
    { intros a rest Ha. unfold ledger.AllBooked. cbn [ledger.AllBooked_loop].
      by rewrite Ha. }
    split; cycle 1.
    { destruct (ledger.AllBooked _ IsBooked t txAliases) as [[[] failed]|]; cbn;
        split; try done; try (by intros [? ?]). }
    unfold ledger.AllBooked. destruct txAliases as [|a l].
    { split; [done|]. intros (before & a & rest & Heq & _). by destruct before. }
    cbn [ledger.AllBooked_loop].
    destruct (ledger.Transaction _ t a) as [tx|] eqn:Ha; cbn [mbind option_bind]; cycle 1.
    { split; [|done]. intros _. exists [], a, l. auto. }
    assert (∀ before b rest,
              a :: l = before ++ b :: rest →
              ledger.Transaction _ t b = None →
              ∃ before', before = a :: before' ∧ l = before' ++ b :: rest) as Hsplit.
    { intros before b rest Heq Hb. destruct before as [|a' before]; cbn in Heq.
      - injection Heq as <- <-. congruence.
      - injection Heq as <- ->. by exists before. }
    assert (∀ before',
              fst <$> ledger.AllBooked_loop _ IsBooked t false [] (a :: before') = Some true →
              ∃ md, ledger.transactionMetadataStorage _ t !! ledger.MockedTransaction_ID tx
                    = Some md
                    ∧ IsBooked md = true
                    ∧ fst <$> ledger.AllBooked_loop _ IsBooked t true [] before' = Some true)
      as Hfirst.
    { intros before'. cbn [ledger.AllBooked_loop]. rewrite Ha. cbn [mbind option_bind].
      destruct (ledger.transactionMetadataStorage _ t !! ledger.MockedTransaction_ID tx)
        as [md|]; [|done].
      destruct (IsBooked md) eqn:Hbk; [|done]. cbn [negb]. intros Hrest. by exists md. }
    destruct (ledger.transactionMetadataStorage _ t !! ledger.MockedTransaction_ID tx)
      as [md|] eqn:Hmd; cycle 1.
    { cbn [negb]. split; [done|]. intros (before & b & rest & Heq & Hb & Hpre).
      destruct (Hsplit _ _ _ Heq Hb) as (before' & -> & _).
      destruct Hpre as [?|Hpre]; [done|].
      by destruct (Hfirst _ Hpre) as (md & ? & _). }
    destruct (IsBooked md) eqn:Hbk; cbn [negb]; cycle 1.
    { split; [done|]. intros (before & b & rest & Heq & Hb & Hpre).
      destruct (Hsplit _ _ _ Heq Hb) as (before' & -> & _).
      destruct Hpre as [?|Hpre]; [done|].
      destruct (Hfirst _ Hpre) as (md' & [= <-] & ? & _). congruence. }
    rewrite AllBooked_loop_None. split.
    - intros (before & b & rest & -> & Hb & Hall).
      exists (a :: before), b, rest. split; [done|]. split; [done|]. right.
      cbn [ledger.AllBooked_loop]. rewrite Ha. cbn [mbind option_bind].
      rewrite Hmd, Hbk. cbn [negb]. by apply AllBooked_loop_true.
    - intros (before & b & rest & Heq & Hb & Hpre).
      destruct (Hsplit _ _ _ Heq Hb) as (before' & -> & ->).
      destruct Hpre as [?|Hpre]; [done|].
      destruct (Hfirst _ Hpre) as (_ & _ & _ & Hrest).
      exists before', b, rest. split; [done|]. split; [done|].
      by apply AllBooked_loop_true in Hrest. }
  unfold ledger.AllBooked. destruct txAliases as [|a rest].
  { split; [done|]. by intros (? & ? & ? & ? & ? & _). }
  cbn [ledger.AllBooked_loop].
  destruct (ledger.Transaction _ t a) as [tx|] eqn:Ha; cbn [mbind option_bind]; cycle 1.
  { split; [done|]. intros (? & ? & ? & ? & [= <- <-] & Ha' & _). congruence. }
  destruct (ledger.transactionMetadataStorage _ t !! ledger.MockedTransaction_ID tx)
    as [md|] eqn:Hmd; cycle 1.
  { cbn [negb]. split; [done|].
    intros (? & ? & ? & ? & [= <- <-] & Ha' & Hmd' & _). congruence. }
  destruct (IsBooked md) eqn:Hb; cbn [negb].
  - rewrite AllBooked_loop_true. split.
    + intros Hrest. by exists a, rest, tx, md.
    + by intros (? & ? & ? & ? & [= <- <-] & _ & _ & _ & Hrest).
  - split; [done|].
    intros (? & ? & ? & ? & [= <- <-] & Ha' & Hmd' & Hb' & _). congruence.
Qed.

(** ** The outputs of an address in the web API *)

Section WebAPI.

Variable Address : Type.
Variable error : Type.
Variable AddressFromBase58EncodedString : string → Address + error.
Variable Output : Type.
Variable OutputID : Type.
Variable ID : Output → OutputID.
Variable OutputMetadataT : Type.
Variable ConsumerCount : OutputMetadataT → Z.
Variable JSONOutput : Type.
Variable NewOutput : option Output → option JSONOutput.
Variable OutputsOnAddress_of : Address → list (option Output).
Variable OutputMetadata : OutputID → option OutputMetadataT.

Lemma mapOutputs_length (outputs : webapi.Outputs Output)
    (mappedOutputs r : list JSONOutput) :
  webapi.mapOutputs _ _ NewOutput outputs mappedOutputs = Some r →
  length r = length mappedOutputs + length (omap id outputs).
Proof.
  revert mappedOutputs. induction outputs as [|[output|] outputs IH]; intros acc.
  - intros [= <-]. cbn. lia.
  - cbn [webapi.mapOutputs omap list_omap id].
    destruct (NewOutput (Some output)) as [j|]; [|done]. cbn [mbind option_bind].
    intros Hr. rewrite (IH _ Hr), length_app. cbn. lia.
  - cbn [webapi.mapOutputs omap list_omap]. apply IH.
Qed.

Lemma mapOutputs_None (outputs : webapi.Outputs Output) (mappedOutputs : list JSONOutput) :
  webapi.mapOutputs _ _ NewOutput outputs mappedOutputs = None →
  ∃ output, Some output ∈ outputs ∧ NewOutput (Some output) = None.
Proof.
  revert mappedOutputs. induction outputs as [|[output|] outputs IH]; intros acc; [done| |].
  - cbn [webapi.mapOutputs].
    destruct (NewOutput (Some output)) as [j|] eqn:Hj; cbn [mbind option_bind].
    + intros Hr. destruct (IH _ Hr) as (o & Hin & Ho). exists o. set_solver.
    + intros _. exists output. set_solver.
  - cbn [webapi.mapOutputs]. intros Hr.
    destruct (IH _ Hr) as (o & Hin & Ho). exists o. set_solver.
Qed.

(** X18: [NewOutputsOnAddress] panics only when the model of an output it
    was given cannot be built.  Otherwise the count it reports is the
    length of the slice it was given, nil entries included, while the list
    of outputs leaves the nil entries out: the list is never longer than
    the count, and is as long exactly when no entry is nil. *)
Theorem NewOutputsOnAddress_count (outputs : webapi.Outputs Output) :
  match webapi.NewOutputsOnAddress _ _ NewOutput outputs with
  | Some r =>
      webapi.OutputCount _ r = length outputs
      ∧ length (webapi.OutputsOnAddress_Outputs _ r) = length (omap id outputs)
      ∧ length (webapi.OutputsOnAddress_Outputs _ r) ≤ webapi.OutputCount _ r
      ∧ (length (webapi.OutputsOnAddress_Outputs _ r) = webapi.OutputCount _ r
         ↔ None ∉ outputs)
  | None => ∃ output, Some output ∈ outputs ∧ NewOutput (Some output) = None
  end.
Proof.
  unfold webapi.NewOutputsOnAddress.
  destruct (webapi.mapOutputs _ _ NewOutput outputs []) as [r|] eqn:Hr;
    cbn [mbind option_bind]; [|by eapply mapOutputs_None].
  apply mapOutputs_length in Hr. cbn [length Nat.add] in Hr.
  cbn [webapi.OutputCount webapi.OutputsOnAddress_Outputs].
  assert (length (omap id outputs) ≤ length outputs
          ∧ (length (omap id outputs) = length outputs ↔ None ∉ outputs)) as [Hle Hiff].
  { clear. induction outputs as [|[o|] outputs [IHle IHiff]]; cbn [omap list_omap id length].
    - split; [lia|]. set_solver.
    - split; [lia|]. rewrite not_elem_of_cons. split.
      + intros Heq. split; [done|]. apply IHiff. cbn in Heq. lia.
      + intros [_ Hnin]. cbn. f_equal. by apply IHiff.
    - split; [lia|]. split; [lia|]. set_solver. }
  rewrite Hr. done.
Qed.

Lemma collectUnspent_nil (outputs unspentOutputs : webapi.Outputs Output) :
  None ∈ outputs →
  webapi.collectUnspent _ _ ID _ ConsumerCount OutputMetadata outputs unspentOutputs = None.
Proof.
  revert unspentOutputs. induction outputs as [|[o|] outputs IH]; intros acc Hin.
  - set_solver.
  - cbn [webapi.collectUnspent]. apply IH. set_solver.
  - done.
Qed.

Lemma collectUnspent_all (outputs : list Output) (unspentOutputs : webapi.Outputs Output) :
  webapi.collectUnspent _ _ ID _ ConsumerCount OutputMetadata (Some <$> outputs) unspentOutputs
  = Some (unspentOutputs
          ++ (Some <$> filter (λ output,
                                 webapi.unspent _ _ ID _ ConsumerCount OutputMetadata output
                                 = true) outputs)).
Proof.
  revert unspentOutputs. induction outputs as [|o outputs IH]; intros acc.
  { cbn. by rewrite app_nil_r. }
  rewrite fmap_cons. cbn [webapi.collectUnspent]. rewrite IH, filter_cons.
  destruct (decide (webapi.unspent _ _ ID _ ConsumerCount OutputMetadata o = true))
    as [Hu|Hu]; unfold webapi.unspent in Hu;
    destruct (OutputMetadata (ID o)) as [md|]; try done.
  - apply bool_decide_eq_true in Hu. rewrite decide_True by done.
    by rewrite fmap_cons, <- app_assoc.
  - rewrite decide_False; [done|]. intros Hz. apply Hu. by apply bool_decide_eq_true.
Qed.

(** X19: [GetAddressUnspentOutputsEndPoint] never answers "not found": it
    answers "bad request" when the address does not parse, it panics when an
    output of the address is nil, and otherwise, unless the model of an
    output cannot be built, it answers "OK" with the outputs whose metadata
    is stored and counts no consumer, in their order, and with their
    number as the count; an output without stored metadata is left out. *)
Theorem GetAddressUnspentOutputsEndPoint_answers (address : string) :
  (∀ r, webapi.GetAddressUnspentOutputsEndPoint _ _ AddressFromBase58EncodedString
          _ _ ID _ ConsumerCount _ NewOutput OutputsOnAddress_of OutputMetadata address
        = Some r →
        webapi.status _ _ r ≠ webapi.StatusNotFound)
  ∧ (∀ err, AddressFromBase58EncodedString address = inr err →
            webapi.GetAddressUnspentOutputsEndPoint _ _ AddressFromBase58EncodedString
              _ _ ID _ ConsumerCount _ NewOutput OutputsOnAddress_of OutputMetadata address
            = Some (webapi.JSON _ _ webapi.StatusBadRequest (webapi.ErrorResponse _ _ err)))
  ∧ (∀ a, AddressFromBase58EncodedString address = inl a →
          None ∈ OutputsOnAddress_of a →
          webapi.GetAddressUnspentOutputsEndPoint _ _ AddressFromBase58EncodedString
            _ _ ID _ ConsumerCount _ NewOutput OutputsOnAddress_of OutputMetadata address
          = None)
  ∧ (∀ a outputs,
       AddressFromBase58EncodedString address = inl a →
       OutputsOnAddress_of a = Some <$> outputs →
       let unspentOutputs :=
         filter (λ output,
                   webapi.unspent _ _ ID _ ConsumerCount OutputMetadata output = true)
                outputs in
       webapi.GetAddressUnspentOutputsEndPoint _ _ AddressFromBase58EncodedString
         _ _ ID _ ConsumerCount _ NewOutput OutputsOnAddress_of OutputMetadata address
       = (λ jsonOutputs,
            webapi.JSON _ _ webapi.StatusOK
              (webapi.UnspentOutputsBody _ _
                 (webapi.mkUnspentOutputsOnAddress _ (length unspentOutputs) jsonOutputs)))
         <$> mapM NewOutput (Some <$> unspentOutputs)).
Proof.
  unfold webapi.GetAddressUnspentOutputsEndPoint.
  split; [|split; [|split]].
  - intros r. destruct (AddressFromBase58EncodedString address) as [a|err].
    + destruct (webapi.collectUnspent _ _ _ _ _ _ _ _) as [u|]; [|done].
      cbn [mbind option_bind]. unfold webapi.NewUnspentOutputsOnAddress.
      destruct (mapM NewOutput u); [|done]. by intros [= <-].
    + by intros [= <-].
  - by intros err ->.
  - intros a -> Hnil. by rewrite collectUnspent_nil.
  - intros a outputs -> ->. rewrite collectUnspent_all.
    cbn [mbind option_bind app]. unfold webapi.NewUnspentOutputsOnAddress.
    rewrite length_fmap. by destruct (mapM NewOutput _).
Qed.

End WebAPI.

(** ** The outputs of a raised transaction *)

Section Covers.

Variable t : Tangle.
Variable cand : TransactionID → gof.GradeOfFinality.
Hypothesis Howned : outputsOwned t.

Lemma Cover_refl (st : Storage) : Cover t cand st st.
Proof.
  split; [by left|done|].
  intros T md tx o Hmd Hlt Hnew. rewrite Hmd in Hnew. injection Hnew as Hnew.
  rewrite Hnew in Hlt. cbn in Hlt. lia.
Qed.

Lemma Cover_raise_message (st0 st : Storage) (messageID : MessageID) (md : MessageMetadata) :
  Cover t cand st0 st → Cover t cand st0 (storeMessageMetadata st messageID md).
Proof. by intros [Ht Hk Ho]. Qed.

Lemma Cover_raise_transaction (st0 st : Storage) (transactionID : TransactionID)
    (md : TransactionMetadata) (outs : list OutputID) :
  Cover t cand st0 st →
  transactionMetadata st !! transactionID = Some md →
  gof.rank (tGradeOfFinality md) < gof.rank (cand transactionID) →
  match transactions t !! transactionID with
  | Some transaction => outs = Outputs transaction
  | None => outs = []
  end →
  Cover t cand st0
        (setOutputsGoF
           (storeTransactionMetadata st transactionID
              (mkTransactionMetadata (cand transactionID) (tBranchID md)))
           outs (cand transactionID)).1.
Proof.
  intros [Ht Hk Ho] Hmd Hlt Houts.
  assert (transactionMetadata st0 !! transactionID = Some md) as Hmd0.
  { destruct (Ht transactionID) as [Heq|(md0 & _ & _ & Heq)]; [by rewrite <- Heq|].
    rewrite Hmd in Heq. injection Heq as ->. cbn in Hlt. lia. }
  destruct (setOutputsGoF_spec outs (cand transactionID)
              (storeTransactionMetadata st transactionID
                 (mkTransactionMetadata (cand transactionID) (tBranchID md))))
    as (_ & Ht' & Ho' & _).
  split.
  - intros T'. rewrite Ht'. cbn [transactionMetadata storeTransactionMetadata].
    destruct (decide (T' = transactionID)) as [->|Hne].
    + right. exists md. by rewrite lookup_insert_eq.
    + rewrite lookup_insert_ne by done. apply Ht.
  - intros o. rewrite Ho'. cbn [outputMetadata storeTransactionMetadata].
    rewrite <- Hk. destruct (decide (o ∈ outs)); [|done].
    by destruct (outputMetadata st !! o).
  - intros T md1 tx o Hmd1 Hlt1 Hnew Htx Hin.
    rewrite Ho'. rewrite Ht' in Hnew.
    cbn [outputMetadata transactionMetadata storeTransactionMetadata] in *.
    destruct (decide (T = transactionID)) as [->|Hne].
    + rewrite Htx in Houts. subst outs. rewrite decide_True by done.
      specialize (Hk o).
      destruct (outputMetadata st !! o), (outputMetadata st0 !! o); try done;
        first [discriminate (proj1 Hk eq_refl) | discriminate (proj2 Hk eq_refl)].
    + rewrite lookup_insert_ne in Hnew by done.
      rewrite decide_False; [by eapply Ho|].
      intros Hin'. apply Hne.
      destruct (transactions t !! transactionID) as [tx'|] eqn:Htx'; [|set_solver].
      subst outs.
      pose proof (Howned _ _ Htx) as Hown. pose proof (Howned _ _ Htx') as Hown'.
      rewrite Forall_forall in Hown, Hown'.
      by rewrite <- (Hown o Hin), <- (Hown' o Hin').
Qed.

End Covers.

Section CallCovers.

Variable s : SimpleFinalityGadget.
Hypothesis Howned : outputsOwned (tangle s).

Lemma setPayloadGoF_cover (g : gof.GradeOfFinality) (st0 st : Storage)
    (messageID : MessageID) :
  Cover (tangle s) (λ T, markerCandidate s g (OfTransaction T)) st0 st →
  Cover (tangle s) (λ T, markerCandidate s g (OfTransaction T)) st0
        (setPayloadGoF s st messageID g).1.
Proof.
  intros HC. unfold setPayloadGoF.
  destruct (messages (tangle s) !! messageID) as [message|]; [|done].
  destruct (payload message) as [transactionID|]; [|done].
  destruct (transactionMetadata st !! transactionID) as [md|] eqn:Hmd; [|done].
  change (if TransactionConflicting (tangle s) transactionID then _ else g)
    with (markerCandidate s g (OfTransaction transactionID)).
  set (g' := markerCandidate s g (OfTransaction transactionID)).
  destruct (TransactionMetadata_SetGradeOfFinality_spec md g') as [[Hlt ->]|[Hle ->]];
    [|done].
  cbn [negb].
  destruct (transactions (tangle s) !! transactionID) as [transaction|] eqn:Htx.
  - pose proof (Cover_raise_transaction _ _ Howned st0 st transactionID md
                  (Outputs transaction) HC Hmd Hlt) as Hstep.
    rewrite Htx in Hstep. specialize (Hstep eq_refl).
    by destruct (setOutputsGoF _ _ _) as [st2 log2].
  - pose proof (Cover_raise_transaction _ _ Howned st0 st transactionID md [] HC Hmd Hlt)
      as Hstep.
    rewrite Htx in Hstep. exact (Hstep eq_refl).
Qed.

Lemma WalkMessageAndMetadata_cover (g : gof.GradeOfFinality) (st0 : Storage) (fuel : nat)
    (w : walker.Walker) (st : Storage) :
  Cover (tangle s) (λ T, markerCandidate s g (OfTransaction T)) st0 st →
  Cover (tangle s) (λ T, markerCandidate s g (OfTransaction T)) st0
        (WalkMessageAndMetadata s fuel g w st).1.1.
Proof.
  revert w st. induction fuel as [|fuel IH]; intros w st HC; [done|].
  cbn [WalkMessageAndMetadata].
  destruct w as [|messageID w]; [done|].
  assert (∀ message md,
            Cover (tangle s) (λ T, markerCandidate s g (OfTransaction T)) st0
                  (propagateGoF s g st messageID message md w).1.1) as Hstep.
  { intros message md. unfold propagateGoF.
    destruct (IsPastMarker md && _); [done|].
    unfold setMessageGoF.
    destruct (MessageMetadata_SetGradeOfFinality_spec md g) as [[Hlt ->]|[Hle ->]];
      [|done].
    cbn [negb].
    pose proof (setPayloadGoF_cover g st0 _ messageID
                  (Cover_raise_message _ _ st0 st messageID
                     (mkMessageMetadata g (IsPastMarker md)) HC)) as Hpay.
    by destruct (setPayloadGoF s _ messageID g) as [st2 log2]. }
  destruct (messages (tangle s) !! messageID) as [message|].
  - destruct (messageMetadata st !! messageID) as [md|].
    + specialize (Hstep message md).
      destruct (propagateGoF s g st messageID message md w) as [[st1 w1] log1].
      specialize (IH w1 st1 Hstep).
      by destruct (WalkMessageAndMetadata s fuel g w1 st1) as [[st2 w2] log2].
    + specialize (IH w st HC).
      by destruct (WalkMessageAndMetadata s fuel g w st) as [[st2 w2] log2].
  - specialize (IH w st HC).
    by destruct (WalkMessageAndMetadata s fuel g w st) as [[st2 w2] log2].
Qed.

Lemma propagateBranch_cover (branchID : BranchID) (g : gof.GradeOfFinality)
    (st0 : Storage) (fuel : nat) (w : walker.Walker) (st : Storage) :
  Cover (tangle s) (λ _, g) st0 st →
  Cover (tangle s) (λ _, g) st0 (propagateBranch s fuel branchID g w st).1.1.
Proof.
  revert w st. induction fuel as [|fuel IH]; intros w st HC; [done|].
  cbn [propagateBranch].
  destruct w as [|candidateTxID w]; [done|].
  assert (Cover (tangle s) (λ _, g) st0
                (forwardPropagateBranchGoFToTxs s st candidateTxID branchID g w).1.1)
    as Hstep.
  { unfold forwardPropagateBranchGoFToTxs.
    destruct (transactionMetadata st !! candidateTxID) as [md|] eqn:Hmd; [|done].
    destruct (negb _); [done|].
    destruct (gof.ltb (maxAttachmentGoF _ _ _) _); [done|].
    destruct (TransactionMetadata_SetGradeOfFinality_spec md g) as [[Hlt ->]|[Hle ->]];
      [|done].
    cbn [negb].
    destruct (transactions (tangle s) !! candidateTxID) as [transaction|] eqn:Htx.
    - pose proof (Cover_raise_transaction _ (λ _, g) Howned st0 st candidateTxID md
                    (Outputs transaction) HC Hmd Hlt) as Hraise.
      rewrite Htx in Hraise. specialize (Hraise eq_refl).
      destruct (adjustOutputsGoF_set s (Outputs transaction) g
                  (storeTransactionMetadata st candidateTxID
                     (mkTransactionMetadata g (tBranchID md))) ∅ w) as [Hst Hlog].
      destruct (adjustOutputsGoF _ _ _ _ _ _) as [[[st2 c2] w2] log2].
      cbn [fst snd] in *. by subst.
    - pose proof (Cover_raise_transaction _ (λ _, g) Howned st0 st candidateTxID md []
                    HC Hmd Hlt) as Hraise.
      rewrite Htx in Hraise. exact (Hraise eq_refl). }
  destruct (forwardPropagateBranchGoFToTxs s st candidateTxID branchID g w)
    as [[st1 w1] log1].
  specialize (IH w1 st1 Hstep).
  by destruct (propagateBranch s fuel branchID g w1 st1) as [[st2 w2] log2].
Qed.

Lemma call_cover (st : Storage) (c : Call) :
  ∃ cand, Cover (tangle s) cand st (call s st c).1.1.
Proof.
  destruct c as [marker aw|branchID aw]; cbn [call].
  - exists (λ T, markerCandidate s (MessageTransFunc (opts s) aw) (OfTransaction T)).
    unfold HandleMarker.
    destruct (gof.eqb _ _); [by apply Cover_refl|].
    destruct (negb _); [by apply Cover_refl|].
    pose proof (WalkMessageAndMetadata_cover (MessageTransFunc (opts s) aw) st
                  (S (markerPotential s (MessageTransFunc (opts s) aw) st))
                  [MarkersManager_MessageID (tangle s) marker] st
                  (Cover_refl _ _ st)) as Hloop.
    by destruct (WalkMessageAndMetadata _ _ _ _ _) as [[st1 w1] log1].
  - exists (λ _, BranchTransFunc (opts s) branchID aw).
    unfold HandleBranch.
    pose proof (propagateBranch_cover branchID (BranchTransFunc (opts s) branchID aw) st
                  (S (branchPotential s (BranchTransFunc (opts s) branchID aw) st))
                  (walker.Push (BranchID_TransactionID branchID) walker.New) st
                  (Cover_refl _ _ st)) as Hloop.
    by destruct (propagateBranch _ _ _ _ _ _) as [[st1 w1] log1].
Qed.

End CallCovers.

(** X20: the outputs follow their transaction.  When the transactions list
    outputs of their own and a call of [HandleMarker] or [HandleBranch]
    raises a transaction, every stored output the transaction lists has,
    after the call, the grade the transaction has; so when the call emits
    [TransactionConfirmed] for the transaction, every stored output it lists
    is confirmed. *)
Theorem raised_transaction_outputs (s : SimpleFinalityGadget) (st : Storage) (c : Call)
    (transactionID : TransactionID) (a b : TransactionMetadata)
    (transaction : Transaction) (o : OutputID) :
  outputsOwned (tangle s) →
  transactionMetadata st !! transactionID = Some a →
  transactionMetadata (call s st c).1.1 !! transactionID = Some b →
  gof.rank (tGradeOfFinality a) < gof.rank (tGradeOfFinality b) →
  transactions (tangle s) !! transactionID = Some transaction →
  o ∈ Outputs transaction →
  outputMetadata (call s st c).1.1 !! o
  = (λ _, mkOutputMetadata (tGradeOfFinality b)) <$> outputMetadata st !! o
  ∧ (Trigger (TransactionConfirmed transactionID) ∈ (call s st c).1.2 →
     is_Some (outputMetadata st !! o) →
     IsOutputConfirmed s (call s st c).1.1 o = true).
Proof.
  intros Howned Ha Hb Hlt Htx Hin.
  destruct (call_cover s Howned st c) as (cand & [Ht _ Ho]).
  destruct (Ht transactionID) as [Hsame|(md & Hmd & Hltc & Hnew)].
  { rewrite Ha, Hb in Hsame. injection Hsame as ->. lia. }
  rewrite Ha in Hmd. injection Hmd as <-.
  pose proof (Ho transactionID a transaction o Ha Hltc Hnew Htx Hin) as Hout.
  rewrite Hb in Hnew. injection Hnew as ->. cbn [tGradeOfFinality] in *.
  split; [done|].
  intros Hev [omd Homd].
  destruct (call_event_confirmed s st c) as [_ Hconf].
  destruct (Hconf transactionID Hev) as (b' & Hb' & Hle).
  rewrite Hb in Hb'. injection Hb' as <-. cbn [tGradeOfFinality] in Hle.
  unfold IsOutputConfirmed. rewrite Hout, Homd. cbn. by apply geb_true.
Qed.

Lemma raised_transaction_outputs_witness :
  outputMetadata (call cascadeGadget cascadeStorage (CallMarker (1, 1) (6 # 10))).1.1
    !! mkOutputID 5 0
  = (λ _, mkOutputMetadata gof.High) <$> outputMetadata cascadeStorage !! mkOutputID 5 0
  ∧ (Trigger (TransactionConfirmed 5)
       ∈ (call cascadeGadget cascadeStorage (CallMarker (1, 1) (6 # 10))).1.2 →
     is_Some (outputMetadata cascadeStorage !! mkOutputID 5 0) →
     IsOutputConfirmed cascadeGadget
       (call cascadeGadget cascadeStorage (CallMarker (1, 1) (6 # 10))).1.1
       (mkOutputID 5 0) = true).
Proof.
  apply (raised_transaction_outputs cascadeGadget cascadeStorage (CallMarker (1, 1) (6 # 10))
           5 (mkTransactionMetadata gof.None 5) (mkTransactionMetadata gof.High 5)
           (mkTransaction [mkOutputID 5 0; mkOutputID 5 1]) (mkOutputID 5 0)).
  - exact cascade_outputsOwned.
  - reflexivity.
  - vm_compute. reflexivity.
  - cbn. lia.
  - reflexivity.
  - cbn. apply elem_of_cons. by left.
Defined.

(** ** The payloads of the messages that [HandleMarker] raises *)

Section MarkerPayloads.

Variable s : SimpleFinalityGadget.
Variable g : gof.GradeOfFinality.
Variable st0 : Storage.

(** The payload of every message that was below [g] in [st0] and is at
    [g] or above in [st] is, when it is stored, at its candidate or
    above. *)
#[local] Abbreviation paid st :=
  (∀ messageID message md0 md transactionID tmd,
     messages (tangle s) !! messageID = Some message →
     payload message = Some transactionID →
     messageMetadata st0 !! messageID = Some md0 →
     gof.rank (mGradeOfFinality md0) < gof.rank g →
     messageMetadata st !! messageID = Some md →
     gof.rank g ≤ gof.rank (mGradeOfFinality md) →
     transactionMetadata st !! transactionID = Some tmd →
     gof.rank (markerCandidate s g (OfTransaction transactionID))
     ≤ gof.rank (tGradeOfFinality tmd)).

Lemma setPayloadGoF_payload (st : Storage) (messageID : MessageID) (message : Message)
    (transactionID : TransactionID) (tmd : TransactionMetadata) :
  messages (tangle s) !! messageID = Some message →
  payload message = Some transactionID →
  transactionMetadata (setPayloadGoF s st messageID g).1 !! transactionID = Some tmd →
  gof.rank (markerCandidate s g (OfTransaction transactionID))
  ≤ gof.rank (tGradeOfFinality tmd).
Proof.
  intros Hmsg Hpay. unfold setPayloadGoF. rewrite Hmsg, Hpay.
  destruct (transactionMetadata st !! transactionID) as [md|] eqn:Hmd;
    [|cbn [fst]; congruence].
  change (if TransactionConflicting (tangle s) transactionID then _ else g)
    with (markerCandidate s g (OfTransaction transactionID)).
  set (g' := markerCandidate s g (OfTransaction transactionID)).
  destruct (TransactionMetadata_SetGradeOfFinality_spec md g') as [[Hlt ->]|[Hle ->]];
    cbn [negb]; cycle 1.
  { cbn [fst]. rewrite Hmd. by intros [= <-]. }
  assert (∀ outs,
            transactionMetadata
              (setOutputsGoF
                 (storeTransactionMetadata st transactionID
                    (mkTransactionMetadata g' (tBranchID md))) outs g').1 !! transactionID
            = Some (mkTransactionMetadata g' (tBranchID md))) as Houts.
  { intros outs. destruct (setOutputsGoF_spec outs g'
                (storeTransactionMetadata st transactionID
                   (mkTransactionMetadata g' (tBranchID md)))) as (_ & -> & _).
    apply lookup_insert_eq. }
  destruct (transactions (tangle s) !! transactionID) as [transaction|].
  - specialize (Houts (Outputs transaction)).
    destruct (setOutputsGoF _ _ _) as [st2 log2]. cbn [fst] in *.
    rewrite Houts. by intros [= <-].
  - cbn [fst transactionMetadata storeTransactionMetadata].
    rewrite lookup_insert_eq. by intros [= <-].
Qed.

Lemma propagateGoF_paid (st : Storage) (messageID : MessageID) (message : Message)
    (md : MessageMetadata) (w : walker.Walker) :
  messages (tangle s) !! messageID = Some message →
  paid st →
  paid (propagateGoF s g st messageID message md w).1.1.
Proof.
  intros Hmsg Hpaid. unfold propagateGoF.
  destruct (IsPastMarker md && _); [done|].
  unfold setMessageGoF.
  destruct (MessageMetadata_SetGradeOfFinality_spec md g) as [[Hlt ->]|[Hle ->]];
    [|done].
  cbn [negb].
  set (st1 := storeMessageMetadata st messageID _).
  pose proof (setPayloadGoF_messages s st1 messageID g) as Hmm.
  pose proof (step_transactions _ _ _ _ _ (setPayloadGoF_step s (λ _, False) st1 messageID g))
    as Hrt.
  pose proof (λ T tmd, setPayloadGoF_payload st1 messageID message T tmd Hmsg) as Hpay.
  destruct (setPayloadGoF s st1 messageID g) as [st2 log2]. cbn [fst snd negb] in *.
  intros m message' md0 md' T tmd Hmsg' Hpay' Hmd0 Hlt0 Hmd' Hge Htmd.
  destruct (decide (m = messageID)) as [->|Hne].
  - rewrite Hmsg in Hmsg'. injection Hmsg' as <-. by eapply Hpay.
  - rewrite Hmm in Hmd'. subst st1.
    cbn [messageMetadata storeMessageMetadata] in Hmd'.
    rewrite lookup_insert_ne in Hmd' by done.
    destruct (raised_lookup_inv _ _ _ _ _ Hrt Htmd) as (tmd0 & Htmd0 & Hle0).
    pose proof (Hpaid m message' md0 md' T tmd0 Hmsg' Hpay' Hmd0 Hlt0 Hmd' Hge Htmd0).
    unfold transaction_le in Hle0. lia.
Qed.

Lemma WalkMessageAndMetadata_paid (fuel : nat) (w : walker.Walker) (st : Storage) :
  paid st → paid (WalkMessageAndMetadata s fuel g w st).1.1.
Proof.
  revert w st. induction fuel as [|fuel IH]; intros w st Hpaid; [done|].
  cbn [WalkMessageAndMetadata].
  destruct w as [|messageID w]; [done|].
  destruct (messages (tangle s) !! messageID) as [message|] eqn:Hmsg.
  - destruct (messageMetadata st !! messageID) as [md|].
    + pose proof (propagateGoF_paid st messageID message md w Hmsg Hpaid) as Hstep.
      destruct (propagateGoF s g st messageID message md w) as [[st1 w1] log1].
      specialize (IH w1 st1 Hstep).
      by destruct (WalkMessageAndMetadata s fuel g w1 st1) as [[st2 w2] log2].
    + specialize (IH w st Hpaid).
      by destruct (WalkMessageAndMetadata s fuel g w st) as [[st2 w2] log2].
  - specialize (IH w st Hpaid).
    by destruct (WalkMessageAndMetadata s fuel g w st) as [[st2 w2] log2].
Qed.

End MarkerPayloads.

(** X21: [HandleMarker] raises the payloads with the messages: when a
    stored message that was below the candidate is reached from the message
    of the marker through strong parents of messages below the candidate,
    and its payload is a transaction with stored metadata, then after the
    call the transaction is at its own candidate or above (the translation
    of the weight of its branch when it conflicts, the candidate of the call
    otherwise). *)
Theorem HandleMarker_raises_payloads (s : SimpleFinalityGadget) (st : Storage)
    (marker : Marker) (aw : Q) (messageID : MessageID) (message : Message)
    (md : MessageMetadata) (transactionID : TransactionID) (tmd : TransactionMetadata) :
  rtc (belowParent s (MessageTransFunc (opts s) aw) st)
      (MarkersManager_MessageID (tangle s) marker) messageID →
  messages (tangle s) !! messageID = Some message →
  messageMetadata st !! messageID = Some md →
  gof.rank (mGradeOfFinality md) < gof.rank (MessageTransFunc (opts s) aw) →
  payload message = Some transactionID →
  transactionMetadata st !! transactionID = Some tmd →
  ∃ b, transactionMetadata (HandleMarker s st marker aw).1.1 !! transactionID = Some b
       ∧ gof.rank (markerCandidate s (MessageTransFunc (opts s) aw)
                     (OfTransaction transactionID))
         ≤ gof.rank (tGradeOfFinality b).
Proof.
  intros Hreach Hmsg Hmd Hlt Hpay Htmd.
  pose proof (HandleMarker_step s (λ _, False) st marker aw) as [Hrm Hrt _ _ _].
  destruct (raised_lookup _ _ _ _ _ Hrm Hmd) as (md' & Hmd' & _).
  destruct (raised_lookup _ _ _ _ _ Hrt Htmd) as (b & Hb & _).
  exists b. split; [done|].
  destruct (HandleMarker_settles s st marker aw messageID Hreach) as [Hz|Hset]; [lia|].
  unfold settled in Hset. rewrite Hmsg, Hmd' in Hset.
  assert (∀ messageID message md0 md transactionID tmd,
            messages (tangle s) !! messageID = Some message →
            payload message = Some transactionID →
            messageMetadata st !! messageID = Some md0 →
            gof.rank (mGradeOfFinality md0) < gof.rank (MessageTransFunc (opts s) aw) →
            messageMetadata (HandleMarker s st marker aw).1.1 !! messageID = Some md →
            gof.rank (MessageTransFunc (opts s) aw) ≤ gof.rank (mGradeOfFinality md) →
            transactionMetadata (HandleMarker s st marker aw).1.1 !! transactionID = Some tmd →
            gof.rank (markerCandidate s (MessageTransFunc (opts s) aw)
                        (OfTransaction transactionID))
            ≤ gof.rank (tGradeOfFinality tmd)) as Hpaid.
  { assert (∀ messageID message md0 md transactionID tmd,
              messages (tangle s) !! messageID = Some message →
              payload message = Some transactionID →
              messageMetadata st !! messageID = Some md0 →
              gof.rank (mGradeOfFinality md0) < gof.rank (MessageTransFunc (opts s) aw) →
              messageMetadata st !! messageID = Some md →
              gof.rank (MessageTransFunc (opts s) aw) ≤ gof.rank (mGradeOfFinality md) →
              transactionMetadata st !! transactionID = Some tmd →
              gof.rank (markerCandidate s (MessageTransFunc (opts s) aw)
                          (OfTransaction transactionID))
              ≤ gof.rank (tGradeOfFinality tmd)) as Hstart.
    { intros m0 message0 md0 md1 T0 tmd0 _ _ H0 Hlt0 H1 Hge1.
      rewrite H0 in H1. injection H1 as ->. lia. }
    unfold HandleMarker.
    destruct (gof.eqb _ _); [exact Hstart|].
    destruct (negb _); [exact Hstart|].
    pose proof (WalkMessageAndMetadata_paid s (MessageTransFunc (opts s) aw) st
                  (S (markerPotential s (MessageTransFunc (opts s) aw) st))
                  [MarkersManager_MessageID (tangle s) marker] st Hstart) as Hloop.
    by destruct (WalkMessageAndMetadata _ _ _ _ _) as [[st1 w1] log1]. }
  by eapply (Hpaid messageID message md md' transactionID b).
Qed.

Lemma HandleMarker_raises_payloads_witness :
  ∃ b, transactionMetadata (HandleMarker cascadeGadget cascadeStorage (1, 1) (6 # 10)).1.1 !! 5
       = Some b
       ∧ gof.rank (markerCandidate cascadeGadget
                     (MessageTransFunc (opts cascadeGadget) (6 # 10)) (OfTransaction 5))
         ≤ gof.rank (tGradeOfFinality b).
Proof.
  apply (HandleMarker_raises_payloads cascadeGadget cascadeStorage (1, 1) (6 # 10) 11
           (mkMessage [] (Some 5)) (mkMessageMetadata gof.None false)
           5 (mkTransactionMetadata gof.None 5)).
  - apply rtc_once. exists (mkMessage [11] None), (mkMessageMetadata gof.None true).
    split; [reflexivity|]. split; [reflexivity|]. split; [vm_compute; lia|].
    cbn. apply list_elem_of_singleton. reflexivity.
  - reflexivity.
  - reflexivity.
  - vm_compute. lia.
  - reflexivity.
  - reflexivity.
Defined.

(** ** What a call of [HandleBranch] reaches *)

Lemma pushConsumers_elem_of (cs : list TransactionID) (c : gset TransactionID)
    (w : walker.Walker) :
  (∀ x, x ∈ c → x ∈ w) →
  (∀ x, x ∈ (pushConsumers cs c w).1 → x ∈ (pushConsumers cs c w).2)
  ∧ (∀ x, x ∈ w → x ∈ (pushConsumers cs c w).2)
  ∧ (∀ x, x ∈ cs → x ∈ (pushConsumers cs c w).2).
Proof.
  revert c w. induction cs as [|consumer cs IH]; intros c w Hc; cbn [pushConsumers].
  { split; [done|]. split; [done|]. set_solver. }
  destruct (decide (consumer ∈ c)) as [Hin|Hnin].
  - destruct (IH c w Hc) as (H1 & H2 & H3).
    split; [done|]. split; [done|].
    intros x Hx. apply elem_of_cons in Hx as [->|Hx]; auto.
  - destruct (IH ({[consumer]} ∪ c) (walker.Push consumer w)) as (H1 & H2 & H3).
    { intros x Hx. apply Push_elem_of_2. set_solver. }
    split; [done|]. split.
    + intros x Hx. apply H2, Push_elem_of_2. auto.
    + intros x Hx. apply elem_of_cons in Hx as [->|Hx]; [|auto].
      apply H2, Push_elem_of_2. auto.
Qed.

Section BranchReach.

Variable s : SimpleFinalityGadget.
Variable branchID : BranchID.
Variable g : gof.GradeOfFinality.
Variable st0 : Storage.

(** The walker after the loop over the outputs of a transaction holds what
    it held and the consumers of the outputs that are stored. *)
Lemma adjustOutputsGoF_walker (outs : list OutputID) (st : Storage)
    (c : gset TransactionID) (w : walker.Walker) :
  (∀ x, x ∈ c → x ∈ w) →
  (∀ x, x ∈ (adjustOutputsGoF s st outs g c w).1.1.2
        → x ∈ (adjustOutputsGoF s st outs g c w).1.2)
  ∧ (∀ x, x ∈ w → x ∈ (adjustOutputsGoF s st outs g c w).1.2)
  ∧ (∀ o cs y, o ∈ outs → is_Some (outputMetadata st !! o) →
               consumers (tangle s) !! o = Some cs → y ∈ cs →
               y ∈ (adjustOutputsGoF s st outs g c w).1.2).
Proof.
  revert st c w. induction outs as [|o outs IH]; intros st c w Hc;
    cbn [adjustOutputsGoF].
  { split; [done|]. split; [done|]. set_solver. }
  unfold adjustOutputGoF.
  destruct (outputMetadata st !! o) as [md|] eqn:Ho.
  - destruct (pushConsumers_elem_of (default [] (consumers (tangle s) !! o)) c w Hc)
      as (H1 & H2 & H3).
    destruct (pushConsumers _ c w) as [c1 w1]. cbn [fst snd] in *.
    set (st1 := storeOutputMetadata st o _).
    destruct (IH st1 c1 w1 H1) as (K1 & K2 & K3).
    destruct (adjustOutputsGoF s st1 outs g c1 w1) as [[[st2 c2] w2] log2].
    cbn [fst snd] in *.
    split; [done|]. split; [auto|].
    intros o' cs y Hin Hsome Hcs Hy.
    apply elem_of_cons in Hin as [->|Hin].
    + apply K2, H3. by rewrite Hcs.
    + apply (K3 o' cs y Hin); [|done|done].
      subst st1. cbn [outputMetadata storeOutputMetadata].
      destruct (decide (o' = o)) as [->|Hne];
        [by rewrite lookup_insert_eq|by rewrite lookup_insert_ne].
  - destruct (IH st c w Hc) as (K1 & K2 & K3).
    destruct (adjustOutputsGoF s st outs g c w) as [[[st2 c2] w2] log2].
    cbn [fst snd] in *.
    split; [done|]. split; [done|].
    intros o' cs y Hin Hsome Hcs Hy.
    apply elem_of_cons in Hin as [->|Hin]; [|by apply (K3 o' cs y)].
    rewrite Ho in Hsome. by destruct Hsome.
Qed.

(** What one step of the loop does to the transactions and to the
    worklist. *)
Lemma forwardPropagateBranchGoFToTxs_transactions (st : Storage)
    (candidateTxID : TransactionID) (w : walker.Walker) :
  (settledTx s branchID g st candidateTxID
   ∧ forwardPropagateBranchGoFToTxs s st candidateTxID branchID g w = (st, w, []))
  ∨ (∃ md,
       transactionMetadata st !! candidateTxID = Some md
       ∧ transactionMetadata
           (forwardPropagateBranchGoFToTxs s st candidateTxID branchID g w).1.1
         = <[candidateTxID := mkTransactionMetadata g (tBranchID md)]>
             (transactionMetadata st)
       ∧ messageMetadata
           (forwardPropagateBranchGoFToTxs s st candidateTxID branchID g w).1.1
         = messageMetadata st
       ∧ (∀ o, is_Some (outputMetadata
                          (forwardPropagateBranchGoFToTxs s st candidateTxID branchID g w).1.1
                        !! o)
               ↔ is_Some (outputMetadata st !! o))
       ∧ (∀ x, x ∈ w
               → x ∈ (forwardPropagateBranchGoFToTxs s st candidateTxID branchID g w).1.2)
       ∧ (∀ y, spends s st candidateTxID y
               → y ∈ (forwardPropagateBranchGoFToTxs s st candidateTxID branchID g w).1.2)).
Proof.
  unfold forwardPropagateBranchGoFToTxs, settledTx.
  destruct (transactionMetadata st !! candidateTxID) as [md|] eqn:Hmd; [|by left].
  destruct (negb _) eqn:Hb.
  { left. split; [|done]. left. apply negb_true_iff in Hb. by apply bool_decide_eq_false in Hb. }
  destruct (gof.ltb (maxAttachmentGoF _ _ _) _) eqn:Hcap.
  { left. split; [|done]. right. left. by apply ltb_true. }
  destruct (TransactionMetadata_SetGradeOfFinality_spec md g) as [[Hlt ->]|[Hle ->]];
    [|left; split; [auto|done]].
  cbn [negb]. right. exists md. split; [done|].
  set (st1 := storeTransactionMetadata st candidateTxID _).
  destruct (transactions (tangle s) !! candidateTxID) as [transaction|] eqn:Htx.
  - destruct (adjustOutputsGoF_set s (Outputs transaction) g st1 ∅ w) as [Hst _].
    destruct (setOutputsGoF_spec (Outputs transaction) g st1) as (Hm' & Ht' & Ho' & _).
    destruct (adjustOutputsGoF_walker (Outputs transaction) st1 ∅ w) as (_ & K2 & K3);
      [set_solver|].
    destruct (adjustOutputsGoF s st1 (Outputs transaction) g ∅ w) as [[[st2 c2] w2] log2].
    cbn [fst snd] in *. subst st2.
    split; [by rewrite Ht'|]. split; [by rewrite Hm'|]. split.
    + intros o. rewrite Ho'. cbn [outputMetadata storeTransactionMetadata].
      destruct (decide (o ∈ Outputs transaction)); [|done].
      by rewrite fmap_is_Some.
    + split; [done|].
      intros y (tx & o & cs & Htx' & Hin & Hsome & Hcs & Hy).
      rewrite Htx in Htx'. injection Htx' as <-.
      by apply (K3 o cs y).
  - cbn [fst snd]. split; [done|]. split; [done|]. split; [done|]. split; [done|].
    intros y (tx & o & cs & Htx' & _). congruence.
Qed.

#[local] Abbreviation pendingTx st w :=
  (∀ y, targetTx s branchID g st0 st y → y ∈ w ∨ settledTx s branchID g st y).

#[local] Abbreviation sameButTransactions st :=
  (messageMetadata st = messageMetadata st0
   ∧ ∀ o, is_Some (outputMetadata st !! o) ↔ is_Some (outputMetadata st0 !! o)).

Lemma propagateBranch_pending (fuel : nat) (w : walker.Walker) (st : Storage) :
  sameButTransactions st →
  pendingTx st w →
  sameButTransactions (propagateBranch s fuel branchID g w st).1.1
  ∧ pendingTx (propagateBranch s fuel branchID g w st).1.1
              (propagateBranch s fuel branchID g w st).1.2.
Proof.
  revert w st. induction fuel as [|fuel IH]; intros w st Hsame Hinv; [done|].
  cbn [propagateBranch].
  destruct w as [|z w]; [done|].
  pose proof (forwardPropagateBranchGoFToTxs_transactions st z w) as Hstep.
  destruct (forwardPropagateBranchGoFToTxs s st z branchID g w) as [[st1 w1] log1].
  cbn [fst snd] in Hstep.
  specialize (IH w1 st1).
  destruct (propagateBranch s fuel branchID g w1 st1) as [[st2 w2] log2].
  cbn [fst snd] in *.
  destruct Hstep as [[Hset [= -> -> ->]]|(md & Hmd & Ht1 & Hm1 & Ho1 & Hw1 & Hs1)].
  - apply IH; [done|].
    intros y Hy. destruct (Hinv y Hy) as [Hin|?]; [|by right].
    apply elem_of_cons in Hin as [->|Hin]; auto.
  - destruct Hsame as [Hsm Hso].
    assert (∀ y, maxAttachmentGoF s st1 y = maxAttachmentGoF s st y) as Hmax.
    { intros y. by apply maxAttachmentGoF_ext. }
    assert (settledTx s branchID g st1 z) as Hz.
    { unfold settledTx. rewrite Ht1, lookup_insert_eq. cbn. auto. }
    assert (∀ y, settledTx s branchID g st y → settledTx s branchID g st1 y) as Hmono.
    { intros y. destruct (decide (y = z)) as [->|Hne]; [done|].
      unfold settledTx. by rewrite Ht1, lookup_insert_ne, Hmax. }
    apply IH.
    { split; [by rewrite Hm1|]. intros o. by rewrite Ho1. }
    assert (∀ y, targetTx s branchID g st0 st y → y ∈ w1 ∨ settledTx s branchID g st1 y)
      as Hold.
    { intros y Hy. destruct (Hinv y Hy) as [Hin|?]; [|auto].
      apply elem_of_cons in Hin as [->|Hin]; auto. }
    intros y [->|(x & xmd & Hxy & Hx & Hxge)]; [apply Hold; by left|].
    destruct (decide (x = z)) as [->|Hne].
    + left. apply Hs1.
      destruct Hxy as [_ (tx & o & cs & Htx & Hin & Hsome & Hcs & Hy)].
      exists tx, o, cs. by rewrite Hso.
    + rewrite Ht1, lookup_insert_ne in Hx by done.
      apply Hold. right. eauto.
Qed.

End BranchReach.

(** X22: [HandleBranch] reaches the whole future cone it is meant for.
    Starting from the transaction that defines the branch, follow the
    consumers of the stored outputs of the transactions that the loop
    raises (those recorded under the branch, below the candidate, with an
    attachment at the candidate or above): every transaction reached that is
    recorded under the branch and has an attachment at the candidate or
    above has, after the call, a grade at the candidate or above. *)
Theorem HandleBranch_raises_future_cone (s : SimpleFinalityGadget) (st : Storage)
    (branchID : BranchID) (aw : Q) (transactionID : TransactionID)
    (md : TransactionMetadata) :
  rtc (branchLink s branchID (BranchTransFunc (opts s) branchID aw) st)
      (BranchID_TransactionID branchID) transactionID →
  transactionMetadata st !! transactionID = Some md →
  tBranchID md = branchID →
  gof.rank (BranchTransFunc (opts s) branchID aw)
  ≤ gof.rank (maxAttachmentGoF s st transactionID) →
  ∃ md', transactionMetadata (HandleBranch s st branchID aw).1.1 !! transactionID = Some md'
         ∧ gof.rank (BranchTransFunc (opts s) branchID aw)
           ≤ gof.rank (tGradeOfFinality md').
Proof.
  set (g := BranchTransFunc (opts s) branchID aw).
  intros Hreach Hmd Hb Hcap.
  pose proof (HandleBranch_step s (λ _, True) st branchID aw (λ _, I)) as [_ Hrt _ _ _].
  assert (messageMetadata (HandleBranch s st branchID aw).1.1 = messageMetadata st
          ∧ (∀ T a b, transactionMetadata st !! T = Some a →
                      transactionMetadata (HandleBranch s st branchID aw).1.1 !! T = Some b →
                      tBranchID b = tBranchID a)
          ∧ ∀ y, targetTx s branchID g st (HandleBranch s st branchID aw).1.1 y →
                 settledTx s branchID g (HandleBranch s st branchID aw).1.1 y)
    as (Hmm & Hbranch & Hdone).
  { unfold HandleBranch. fold g.
    set (w := walker.Push (BranchID_TransactionID branchID) walker.New).
    pose proof (propagateBranch_frame s branchID g st (S (branchPotential s g st)) w st
                  (Frame_refl _ _ _ _ _ st)) as HF.
    destruct (propagateBranch_pending s branchID g st (S (branchPotential s g st)) w st)
      as [[Hsm _] Hpend]; [done| |].
    { intros y [->|(x & xmd & [(md0 & Hmd0 & _ & _ & Hlt0) _] & Hx & Hge)].
      - left. subst w. rewrite Push_New. set_solver.
      - rewrite Hmd0 in Hx. injection Hx as ->. lia. }
    destruct (propagateBranch_drains s branchID g (S (branchPotential s g st)) w st)
      as [Hnil _]; [subst w; rewrite Push_New; cbn; lia|].
    destruct (propagateBranch s (S (branchPotential s g st)) branchID g w st)
      as [[st1 w1] log1]. cbn [fst snd] in *. subst w1.
    split; [done|]. split.
    - intros T a b Ha Hb'. destruct HF as [_ Ht _].
      destruct (Ht T) as [Heq|(md0 & Hmd0 & _ & _ & Hnew)].
      + rewrite Ha, Hb' in Heq. by injection Heq as ->.
      + rewrite Ha in Hmd0. injection Hmd0 as <-. rewrite Hb' in Hnew.
        by injection Hnew as ->.
    - intros y Hy. destruct (Hpend y Hy) as [Hin|?]; [set_solver|done]. }
  assert (settledTx s branchID g (HandleBranch s st branchID aw).1.1 transactionID) as Hset.
  { clear Hmd Hb Hcap md. revert transactionID Hreach.
    apply (rtc_ind_r (λ T, settledTx s branchID g (HandleBranch s st branchID aw).1.1 T));
      [apply Hdone; by left|].
    intros x y Hx Hxy IH. apply Hdone. right.
    pose proof Hxy as [(md0 & Hmd0 & Hb0 & Hcap0 & Hlt0) _].
    destruct (raised_lookup _ _ _ _ _ Hrt Hmd0) as (b & Hb & _).
    exists x, b. split; [done|]. split; [done|].
    unfold settledTx in IH. rewrite Hb in IH.
    rewrite (maxAttachmentGoF_ext s st _ x Hmm) in IH.
    rewrite (Hbranch x md0 b Hmd0 Hb) in IH.
    destruct IH as [?|[?|?]]; [done|lia|done]. }
  destruct (raised_lookup _ _ _ _ _ Hrt Hmd) as (md' & Hmd' & _).
  exists md'. split; [done|].
  unfold settledTx in Hset. rewrite Hmd' in Hset.
  rewrite (maxAttachmentGoF_ext s st _ transactionID Hmm) in Hset.
  rewrite (Hbranch transactionID md md' Hmd Hmd') in Hset.
  destruct Hset as [?|[?|?]]; [done|lia|done].
Qed.

Lemma HandleBranch_raises_future_cone_witness :
  ∃ md', transactionMetadata (HandleBranch chainGadget chainStorage 5 (6 # 10)).1.1 !! 8
         = Some md'
         ∧ gof.rank (BranchTransFunc (opts chainGadget) 5 (6 # 10))
           ≤ gof.rank (tGradeOfFinality md').
Proof.
  apply (HandleBranch_raises_future_cone chainGadget chainStorage 5 (6 # 10) 8
           (mkTransactionMetadata gof.None 5)).
  - apply rtc_once. split.
    + exists (mkTransactionMetadata gof.None 5).
      split; [reflexivity|]. split; [reflexivity|]. split; vm_compute; lia.
    + exists (mkTransaction [mkOutputID 5 0]), (mkOutputID 5 0), [8].
      split; [reflexivity|]. split; [apply list_elem_of_singleton; reflexivity|].
      split; [by eexists|]. split; [reflexivity|].
      apply list_elem_of_singleton. reflexivity.
  - reflexivity.
  - reflexivity.
  - vm_compute. lia.
Defined.

(** The branch 5 gets the weight 0.6: the transaction 5, the transaction 8
    that spends its output, and their outputs go to High. *)
Example chain_run :
  HandleBranch chainGadget chainStorage 5 (6 # 10)
  = (mkStorage
       {[ 11 := mkMessageMetadata gof.High false ]}
       {[ 5 := mkTransactionMetadata gof.High 5; 8 := mkTransactionMetadata gof.High 5 ]}
       {[ mkOutputID 5 0 := mkOutputMetadata gof.High;
          mkOutputID 8 0 := mkOutputMetadata gof.High ]},
     [ Write (OfTransaction 5) gof.None gof.High;
       Write (OfOutput (mkOutputID 5 0)) gof.None gof.High;
       Trigger (TransactionConfirmed 5);
       Write (OfTransaction 8) gof.None gof.High;
       Write (OfOutput (mkOutputID 8 0)) gof.None gof.High;
       Trigger (TransactionConfirmed 8);
       Trigger (BranchConfirmed 5) ],
     None).
Proof. vm_compute. reflexivity. Qed.

(** ** The marker after [HandleMarker] *)

Lemma geb_false (a b : gof.GradeOfFinality) :
  gof.geb a b = false ↔ gof.rank a < gof.rank b.
Proof. rewrite <- not_true_iff_false, geb_true. lia. Qed.

(** X23: when a marker resolves to a stored message with stored metadata,
    not the empty message identifier, the marker is confirmed after
    [HandleMarker] exactly when it was confirmed before or the candidate of
    the call reaches the message level. *)
Theorem HandleMarker_confirms_marker (s : SimpleFinalityGadget) (st : Storage)
    (marker : Marker) (aw : Q) (message : Message) (md : MessageMetadata) :
  MarkersManager_MessageID (tangle s) marker ≠ EmptyMessageID →
  messages (tangle s) !! MarkersManager_MessageID (tangle s) marker = Some message →
  messageMetadata st !! MarkersManager_MessageID (tangle s) marker = Some md →
  IsMarkerConfirmed s (HandleMarker s st marker aw).1.1 marker
  = IsMarkerConfirmed s st marker
    || gof.geb (MessageTransFunc (opts s) aw) (MessageGoFReachedLevel (opts s)).
Proof.
  set (g := MessageTransFunc (opts s) aw).
  set (root := MarkersManager_MessageID (tangle s) marker).
  intros Hroot Hmsg Hmd.
  unfold IsMarkerConfirmed. fold root. rewrite !decide_False by done.
  unfold IsMessageConfirmed. rewrite Hmd.
  destruct (decide (gof.rank g ≤ gof.rank (mGradeOfFinality md))) as [Hle|Hlt].
  { rewrite HandleMarker_guard by eauto. cbn [fst]. rewrite Hmd.
    destruct (gof.geb (mGradeOfFinality md) _) eqn:E1; [done|].
    destruct (gof.geb g _) eqn:E2; [|done].
    apply geb_false in E1. apply geb_true in E2. lia. }
  assert (gof.eqb g gof.None = false) as Heqb.
  { apply not_true_iff_false. rewrite eqb_None_true. intros Hg. rewrite Hg in Hlt.
    cbn in Hlt. lia. }
  destruct (WalkMessageAndMetadata_raises_root s (markerPotential s g st) g st root
              message md Hmsg Hmd) as (b & Hb & Hge); [lia|].
  pose proof (WalkMessageAndMetadata_frame s g root st (S (markerPotential s g st))
                [root] st (Frame_refl _ _ _ _ _ st)) as [Hm _ _].
  { intros x Hx. apply list_elem_of_singleton in Hx as ->. done. }
  unfold HandleMarker. fold g root. rewrite Heqb, Hmd.
  rewrite (proj2 (ltb_true _ _)) by lia. cbn [negb].
  destruct (WalkMessageAndMetadata s (S (markerPotential s g st)) g [root] st)
    as [[st1 w1] log1]. cbn [fst snd] in *.
  rewrite Hb.
  destruct (Hm root) as [Heq|(md0 & Hmd0 & _ & _ & Hnew)].
  { rewrite Hb, Hmd in Heq. injection Heq as ->. lia. }
  rewrite Hb in Hnew. injection Hnew as ->. cbn [mGradeOfFinality].
  destruct (gof.geb (mGradeOfFinality md) _) eqn:E1; [|done].
  cbn [orb]. apply geb_true in E1. apply geb_true. lia.
Qed.

Lemma HandleMarker_confirms_marker_witness :
  IsMarkerConfirmed cascadeGadget
    (HandleMarker cascadeGadget cascadeStorage (1, 1) (6 # 10)).1.1 (1, 1)
  = IsMarkerConfirmed cascadeGadget cascadeStorage (1, 1)
    || gof.geb (MessageTransFunc (opts cascadeGadget) (6 # 10))
               (MessageGoFReachedLevel (opts cascadeGadget)).
Proof.
  apply (HandleMarker_confirms_marker cascadeGadget cascadeStorage (1, 1) (6 # 10)
           (mkMessage [11] None) (mkMessageMetadata gof.None true)).
  - vm_compute. lia.
  - reflexivity.
  - reflexivity.
Defined.
